(** * Guest memory subsystem (core/memory.cpp)

    A shallow embedding of [Memory::MemorySystem]: the page tables, the
    rasterizer cache marker, the typed and block accessors, the
    physical/virtual translation and the rasterizer marking, followed by
    the properties of the specification that are settled on it. *)

From Stdlib Require Import String ZArith List Bool Lia.
Import ListNotations.
Local Open Scope Z_scope.

(** ** Machine integers *)

(** [u32], [VAddr] and [PAddr] are 32-bit unsigned integers: a [Z] with the
    wrap-around written out wherever the source computes on them. *)
Definition u32 (x : Z) : Z := x mod 2 ^ 32.

(** Modelled from the spec: core/memory.h is absent; section 3 of the
    specification fixes the page constants bit-exactly. *)
Definition PAGE_BITS : Z := 12.
Definition PAGE_SIZE : Z := Z.shiftl 1 PAGE_BITS.
Definition PAGE_MASK : Z := PAGE_SIZE - 1.
Definition PAGE_TABLE_NUM_ENTRIES : Z := Z.shiftl 1 (32 - PAGE_BITS).

(** [~PAGE_MASK] on a 32-bit value. *)
Definition NOT_PAGE_MASK : Z := Z.lxor (2 ^ 32 - 1) PAGE_MASK.

(** ** The address map

    The window constants of core/memory.h are not part of the sources at
    hand; the functions of memory.cpp are modelled over an arbitrary
    [Layout], and the facts about the constants that a property needs are
    collected in [layout_ok]. *)
Record Layout : Type := {
  VRAM_VADDR : Z;
  VRAM_VADDR_END : Z;
  LINEAR_HEAP_VADDR : Z;
  LINEAR_HEAP_VADDR_END : Z;
  NEW_LINEAR_HEAP_VADDR : Z;
  NEW_LINEAR_HEAP_VADDR_END : Z;
  VRAM_PADDR : Z;
  VRAM_PADDR_END : Z;
  DSP_RAM_PADDR : Z;
  DSP_RAM_PADDR_END : Z;
  FCRAM_PADDR : Z;
  FCRAM_PADDR_END : Z;
  FCRAM_N3DS_PADDR_END : Z;
  N3DS_EXTRA_RAM_PADDR : Z;
  N3DS_EXTRA_RAM_PADDR_END : Z
}.

Definition page_aligned (x : Z) : bool := Z.land x PAGE_MASK =? 0.

(** What the proofs use of the constants: the three cacheable virtual
    windows are page aligned, disjoint and in this order; VRAM and FCRAM are
    page aligned physical windows above address zero; each virtual window
    is as long as its physical image; the physical windows lie below 2^32
    in the order VRAM, extra RAM, DSP RAM, FCRAM, with a gap after each of
    the first three. *)
Definition layout_ok (L : Layout) : bool :=
  (0 <? LINEAR_HEAP_VADDR L)
  && (LINEAR_HEAP_VADDR L <? LINEAR_HEAP_VADDR_END L)
  && (LINEAR_HEAP_VADDR_END L <=? VRAM_VADDR L)
  && (VRAM_VADDR L <? VRAM_VADDR_END L)
  && (VRAM_VADDR_END L <=? NEW_LINEAR_HEAP_VADDR L)
  && (NEW_LINEAR_HEAP_VADDR L <? NEW_LINEAR_HEAP_VADDR_END L)
  && (NEW_LINEAR_HEAP_VADDR_END L <? 2 ^ 32)
  && page_aligned (LINEAR_HEAP_VADDR L)
  && page_aligned (LINEAR_HEAP_VADDR_END L)
  && page_aligned (VRAM_VADDR L)
  && page_aligned (VRAM_VADDR_END L)
  && page_aligned (NEW_LINEAR_HEAP_VADDR L)
  && page_aligned (NEW_LINEAR_HEAP_VADDR_END L)
  && (0 <? VRAM_PADDR L)
  && (VRAM_PADDR L <? VRAM_PADDR_END L)
  && (VRAM_PADDR_END L <=? FCRAM_PADDR L)
  && (FCRAM_PADDR L <? FCRAM_PADDR_END L)
  && (FCRAM_PADDR_END L <? FCRAM_N3DS_PADDR_END L)
  && (FCRAM_N3DS_PADDR_END L <? 2 ^ 32)
  && page_aligned (VRAM_PADDR L)
  && page_aligned (VRAM_PADDR_END L)
  && page_aligned (FCRAM_PADDR L)
  && page_aligned (FCRAM_PADDR_END L)
  && page_aligned (FCRAM_N3DS_PADDR_END L)
  && (VRAM_VADDR_END L - VRAM_VADDR L =? VRAM_PADDR_END L - VRAM_PADDR L)
  && (LINEAR_HEAP_VADDR_END L - LINEAR_HEAP_VADDR L
      =? FCRAM_PADDR_END L - FCRAM_PADDR L)
  && (NEW_LINEAR_HEAP_VADDR_END L - NEW_LINEAR_HEAP_VADDR L
      =? FCRAM_N3DS_PADDR_END L - FCRAM_PADDR L)
  && (VRAM_PADDR_END L <? N3DS_EXTRA_RAM_PADDR L)
  && (N3DS_EXTRA_RAM_PADDR L <? N3DS_EXTRA_RAM_PADDR_END L)
  && (N3DS_EXTRA_RAM_PADDR_END L <? DSP_RAM_PADDR L)
  && (DSP_RAM_PADDR L <? DSP_RAM_PADDR_END L)
  && (DSP_RAM_PADDR_END L <? FCRAM_PADDR L).

(** The content of [layout_ok], as propositions. *)
Record layout_facts (L : Layout) : Prop := {
  lf_lin_pos : 0 < LINEAR_HEAP_VADDR L;
  lf_lin : LINEAR_HEAP_VADDR L < LINEAR_HEAP_VADDR_END L;
  lf_lin_vram : LINEAR_HEAP_VADDR_END L <= VRAM_VADDR L;
  lf_vram : VRAM_VADDR L < VRAM_VADDR_END L;
  lf_vram_new : VRAM_VADDR_END L <= NEW_LINEAR_HEAP_VADDR L;
  lf_new : NEW_LINEAR_HEAP_VADDR L < NEW_LINEAR_HEAP_VADDR_END L;
  lf_new_top : NEW_LINEAR_HEAP_VADDR_END L < 2 ^ 32;
  lf_al_lin : LINEAR_HEAP_VADDR L mod 4096 = 0;
  lf_al_lin_end : LINEAR_HEAP_VADDR_END L mod 4096 = 0;
  lf_al_vram : VRAM_VADDR L mod 4096 = 0;
  lf_al_vram_end : VRAM_VADDR_END L mod 4096 = 0;
  lf_al_new : NEW_LINEAR_HEAP_VADDR L mod 4096 = 0;
  lf_al_new_end : NEW_LINEAR_HEAP_VADDR_END L mod 4096 = 0;
  lf_pvram_pos : 0 < VRAM_PADDR L;
  lf_pvram : VRAM_PADDR L < VRAM_PADDR_END L;
  lf_pvram_fcram : VRAM_PADDR_END L <= FCRAM_PADDR L;
  lf_fcram : FCRAM_PADDR L < FCRAM_PADDR_END L;
  lf_fcram_n3ds : FCRAM_PADDR_END L < FCRAM_N3DS_PADDR_END L;
  lf_fcram_top : FCRAM_N3DS_PADDR_END L < 2 ^ 32;
  lf_al_pvram : VRAM_PADDR L mod 4096 = 0;
  lf_al_pvram_end : VRAM_PADDR_END L mod 4096 = 0;
  lf_al_fcram : FCRAM_PADDR L mod 4096 = 0;
  lf_al_fcram_end : FCRAM_PADDR_END L mod 4096 = 0;
  lf_al_n3ds_end : FCRAM_N3DS_PADDR_END L mod 4096 = 0;
  lf_sz_vram :
    VRAM_VADDR_END L - VRAM_VADDR L = VRAM_PADDR_END L - VRAM_PADDR L;
  lf_sz_lin :
    LINEAR_HEAP_VADDR_END L - LINEAR_HEAP_VADDR L
    = FCRAM_PADDR_END L - FCRAM_PADDR L;
  lf_sz_new :
    NEW_LINEAR_HEAP_VADDR_END L - NEW_LINEAR_HEAP_VADDR L
    = FCRAM_N3DS_PADDR_END L - FCRAM_PADDR L;
  lf_vram_extra : VRAM_PADDR_END L < N3DS_EXTRA_RAM_PADDR L;
  lf_extra : N3DS_EXTRA_RAM_PADDR L < N3DS_EXTRA_RAM_PADDR_END L;
  lf_extra_dsp : N3DS_EXTRA_RAM_PADDR_END L < DSP_RAM_PADDR L;
  lf_dsp : DSP_RAM_PADDR L < DSP_RAM_PADDR_END L;
  lf_dsp_fcram : DSP_RAM_PADDR_END L < FCRAM_PADDR L
}.

(** The memory map of the emulated console, as an instance of [Layout]:
    6 MB of VRAM at physical 0x18000000, 4 MB of extra RAM at 0x1F000000,
    512 KB of DSP RAM at 0x1FF00000, 128 MB of FCRAM (256 MB on the
    enhanced model) at 0x20000000; the linear heap at virtual 0x14000000,
    VRAM at 0x1F000000 and the new linear heap at 0x30000000. *)
Definition ctr_layout : Layout := {|
  VRAM_VADDR := 0x1F000000;
  VRAM_VADDR_END := 0x1F600000;
  LINEAR_HEAP_VADDR := 0x14000000;
  LINEAR_HEAP_VADDR_END := 0x1C000000;
  NEW_LINEAR_HEAP_VADDR := 0x30000000;
  NEW_LINEAR_HEAP_VADDR_END := 0x40000000;
  VRAM_PADDR := 0x18000000;
  VRAM_PADDR_END := 0x18600000;
  DSP_RAM_PADDR := 0x1FF00000;
  DSP_RAM_PADDR_END := 0x1FF80000;
  FCRAM_PADDR := 0x20000000;
  FCRAM_PADDR_END := 0x28000000;
  FCRAM_N3DS_PADDR_END := 0x30000000;
  N3DS_EXTRA_RAM_PADDR := 0x1F000000;
  N3DS_EXTRA_RAM_PADDR_END := 0x1F400000
|}.

(** ** Host memory

    A host pointer [u8*] is a block and an offset into it; [nullptr] is
    [None]. The blocks are the three buffers owned by [MemorySystem::Impl],
    the DSP memory reached through the injected interface, and any other
    host buffer a caller may hand to [MapMemoryRegion]. *)
Inductive block : Type :=
| Fcram
| Vram
| N3dsExtraRam
| DspRam
| HostBuf (n : nat).

Record hptr : Type := { blk : block; ofs : Z }.

Definition block_eqb (a b : block) : bool :=
  match a, b with
  | Fcram, Fcram | Vram, Vram | N3dsExtraRam, N3dsExtraRam
  | DspRam, DspRam => true
  | HostBuf n, HostBuf m => Nat.eqb n m
  | _, _ => false
  end.

Definition hptr_eqb (p q : hptr) : bool :=
  block_eqb (blk p) (blk q) && (ofs p =? ofs q).

(** [p + n] on a non-null pointer. *)
Definition ptr_add (p : hptr) (n : Z) : hptr :=
  {| blk := blk p; ofs := ofs p + n |}.

(** Host memory holds one byte, a [Z] in [0, 256), per location. *)
Definition hmem : Type := hptr -> Z.

Definition store_byte (m : hmem) (p : hptr) (b : Z) : hmem :=
  fun q => if hptr_eqb q p then Z.land b 255 else m q.

(** [memcpy(p, bytes, length bytes)] *)
Fixpoint memcpy_to (m : hmem) (p : hptr) (bytes : list Z) : hmem :=
  match bytes with
  | [] => m
  | b :: rest => memcpy_to (store_byte m p b) (ptr_add p 1) rest
  end.

(** [memcpy(buffer, p, n)]: the [n] bytes read. *)
Fixpoint memcpy_from (m : hmem) (p : hptr) (n : nat) : list Z :=
  match n with
  | O => []
  | S n' => m p :: memcpy_from m (ptr_add p 1) n'
  end.

(** Modelled from the spec: the types [u16_le], [u32_le] and [u64_le] come
    from common/swap.h, which is absent; by section 4.2 multibyte values
    are little-endian in guest memory on every host, so the object
    representation that [memcpy] moves is the bytes of the value, least
    significant first. *)
Fixpoint le_bytes (n : nat) (x : Z) : list Z :=
  match n with
  | O => []
  | S n' => Z.land x 255 :: le_bytes n' (Z.shiftr x 8)
  end.

Fixpoint le_value (bytes : list Z) : Z :=
  match bytes with
  | [] => 0
  | b :: rest => b + 256 * le_value rest
  end.

(** ** Page tables *)

(** Modelled from the spec: the enumeration is declared in core/memory.h,
    which is absent; section 3 lists the three page types and the reserved
    [Special] one, which memory.cpp only meets in a [default:] branch. *)
Inductive PageType : Type :=
| Unmapped
| Memory
| RasterizerCachedMemory
| Special.

Definition PageType_eqb (a b : PageType) : bool :=
  match a, b with
  | Unmapped, Unmapped | Memory, Memory
  | RasterizerCachedMemory, RasterizerCachedMemory
  | Special, Special => true
  | _, _ => false
  end.

(** Modelled from the spec: [struct PageTable] of core/memory.h is absent;
    section 3 gives it as two parallel arrays of PAGE_TABLE_NUM_ENTRIES
    elements, indexed by [vaddr >> PAGE_BITS]. *)
Record PageTable : Type := {
  pointers : Z -> option hptr;
  attributes : Z -> PageType
}.

Definition upd {A : Type} (f : Z -> A) (i : Z) (v : A) : Z -> A :=
  fun j => if j =? i then v else f j.

Definition set_attribute (pt : PageTable) (i : Z) (a : PageType) : PageTable :=
  {| pointers := pointers pt; attributes := upd (attributes pt) i a |}.

Definition set_pointer (pt : PageTable) (i : Z) (p : option hptr) : PageTable :=
  {| pointers := upd (pointers pt) i p; attributes := attributes pt |}.

(** Modelled from the spec: page tables are created by the kernel, which is
    absent; a table without mappings has every entry [Unmapped] with a null
    pointer (invariant P3, scenario S2). *)
Definition fresh_table : PageTable :=
  {| pointers := fun _ => None; attributes := fun _ => Unmapped |}.

(** ** The rasterizer cache marker

    The three [std::array<bool, ...>] of the marker, one element per page
    of a window; [At] only ever indexes them inside the window. *)

Record RasterizerCacheMarker : Type := {
  vram : Z -> bool;
  linear_heap : Z -> bool;
  new_linear_heap : Z -> bool
}.

(** The element [At] points to. *)
Inductive MarkerSlot : Type :=
| VramSlot (i : Z)
| LinearHeapSlot (i : Z)
| NewLinearHeapSlot (i : Z).

Definition empty_marker : RasterizerCacheMarker :=
  {| vram := fun _ => false;
     linear_heap := fun _ => false;
     new_linear_heap := fun _ => false |}.

(** ** Trace of the calls that leave the memory system *)

Inductive FlushMode : Type :=
| Flush
| Invalidate
| FlushAndInvalidate.

Inductive Event : Type :=
| LogError (what : string) (args : list Z)
| LogDebug (what : string) (args : list Z)
| RasterizerCall (mode : FlushMode) (start size : Z).

(** The rasterizer is an external collaborator: each of its three entry
    points is given by what it does to the host memory (a rasterizer that
    calls back into the memory system while it is being called is outside
    the model). *)
Record Rasterizer : Type := {
  FlushRegion : Z -> Z -> hmem -> hmem;
  InvalidateRegion : Z -> Z -> hmem -> hmem;
  FlushAndInvalidateRegion : Z -> Z -> hmem -> hmem
}.

(** ** The memory system *)

(** [MemorySystem::Impl]. The three owned buffers live in [mem] under the
    blocks [Fcram], [Vram] and [N3dsExtraRam]. Page tables are owned by the
    kernel and referred to by pointer: [tables] is the store of the
    [PageTable] objects, and [current_page_table] and [page_table_list]
    hold references into it. *)
Record MemorySystem : Type := {
  mem : hmem;
  tables : nat -> PageTable;
  current_page_table : option nat;
  cache_marker : RasterizerCacheMarker;
  page_table_list : list nat;
  dsp : option block;
  trace : list Event
}.

Definition with_mem (s : MemorySystem) (m : hmem) : MemorySystem :=
  {| mem := m; tables := tables s;
     current_page_table := current_page_table s;
     cache_marker := cache_marker s; page_table_list := page_table_list s;
     dsp := dsp s; trace := trace s |}.

Definition with_tables (s : MemorySystem) (t : nat -> PageTable)
  : MemorySystem :=
  {| mem := mem s; tables := t;
     current_page_table := current_page_table s;
     cache_marker := cache_marker s; page_table_list := page_table_list s;
     dsp := dsp s; trace := trace s |}.

Definition with_marker (s : MemorySystem) (c : RasterizerCacheMarker)
  : MemorySystem :=
  {| mem := mem s; tables := tables s;
     current_page_table := current_page_table s;
     cache_marker := c; page_table_list := page_table_list s;
     dsp := dsp s; trace := trace s |}.

Definition emit (s : MemorySystem) (e : Event) : MemorySystem :=
  {| mem := mem s; tables := tables s;
     current_page_table := current_page_table s;
     cache_marker := cache_marker s; page_table_list := page_table_list s;
     dsp := dsp s; trace := trace s ++ [e] |}.

Definition updn {A : Type} (f : nat -> A) (i : nat) (v : A) : nat -> A :=
  fun j => if Nat.eqb j i then v else f j.

(** The state after construction: zeroed buffers, no current table, an
    empty marker, no registered table, no DSP. *)
Definition initial : MemorySystem :=
  {| mem := fun _ => 0;
     tables := fun _ => fresh_table;
     current_page_table := None;
     cache_marker := empty_marker;
     page_table_list := [];
     dsp := None;
     trace := [] |}.

(** ** Results

    Modelled from the spec: common/assert.h is absent; by section 7 an
    invariant violation aborts the host process.
    [ASSERT], [UNREACHABLE] and a dereference of [nullptr] end the process:
    an operation either returns a value and the next state or aborts.
    [OutOfFuel] is the answer of a loop of the model whose iteration bound
    was too small; the bounds the operations pass are never exhausted. *)
Inductive result (A : Type) : Type :=
| Ok (a : A)
| Abort (why : string)
| OutOfFuel.
Arguments Ok {A} a.
Arguments Abort {A} why.
Arguments OutOfFuel {A}.

Definition M (A : Type) : Type := MemorySystem -> result (A * MemorySystem).

Definition ret {A : Type} (a : A) : M A := fun s => Ok (a, s).

Definition bind {A B : Type} (c : M A) (k : A -> M B) : M B :=
  fun s => match c s with
           | Ok (a, s') => k a s'
           | Abort why => Abort why
           | OutOfFuel => OutOfFuel
           end.

Definition lift {A : Type} (r : result A) : M A :=
  fun s => match r with
           | Ok a => Ok (a, s)
           | Abort why => Abort why
           | OutOfFuel => OutOfFuel
           end.

Definition abort {A : Type} (why : string) : M A := fun _ => Abort why.

Definition get : M MemorySystem := fun s => Ok (s, s).

Definition modify (f : MemorySystem -> MemorySystem) : M unit :=
  fun s => Ok (tt, f s).

Definition log (e : Event) : M unit := modify (fun s => emit s e).

Declare Scope mem_scope.
Delimit Scope mem_scope with mem.
Notation "x <- c ;; k" := (bind c (fun x => k))
  (at level 61, c at next level, right associativity) : mem_scope.
Notation "c ;; k" := (bind c (fun _ => k))
  (at level 61, right associativity) : mem_scope.
Local Open Scope mem_scope.

Definition map_result {A B : Type} (f : A -> B) (r : result A) : result B :=
  match r with
  | Ok a => Ok (f a)
  | Abort why => Abort why
  | OutOfFuel => OutOfFuel
  end.

(** [for (x : l) body] *)
Fixpoint for_each {A : Type} (l : list A) (body : A -> M unit) : M unit :=
  match l with
  | [] => ret tt
  | x :: rest => body x ;; for_each rest body
  end.

(** ** The operations of memory.cpp *)

Section Operations.

Context (L : Layout) (R : Rasterizer).

(** *** RasterizerCacheMarker *)

Definition At (addr : Z) : option MarkerSlot :=
  if (VRAM_VADDR L <=? addr) && (addr <? VRAM_VADDR_END L) then
    Some (VramSlot ((addr - VRAM_VADDR L) / PAGE_SIZE))
  else if (LINEAR_HEAP_VADDR L <=? addr)
          && (addr <? LINEAR_HEAP_VADDR_END L) then
    Some (LinearHeapSlot ((addr - LINEAR_HEAP_VADDR L) / PAGE_SIZE))
  else if (NEW_LINEAR_HEAP_VADDR L <=? addr)
          && (addr <? NEW_LINEAR_HEAP_VADDR_END L) then
    Some (NewLinearHeapSlot ((addr - NEW_LINEAR_HEAP_VADDR L) / PAGE_SIZE))
  else None.

Definition Mark (c : RasterizerCacheMarker) (addr : Z) (cached : bool)
  : RasterizerCacheMarker :=
  match At addr with
  | Some (VramSlot i) =>
      {| vram := upd (vram c) i cached; linear_heap := linear_heap c;
         new_linear_heap := new_linear_heap c |}
  | Some (LinearHeapSlot i) =>
      {| vram := vram c; linear_heap := upd (linear_heap c) i cached;
         new_linear_heap := new_linear_heap c |}
  | Some (NewLinearHeapSlot i) =>
      {| vram := vram c; linear_heap := linear_heap c;
         new_linear_heap := upd (new_linear_heap c) i cached |}
  | None => c
  end.

Definition IsCached (c : RasterizerCacheMarker) (addr : Z) : bool :=
  match At addr with
  | Some (VramSlot i) => vram c i
  | Some (LinearHeapSlot i) => linear_heap c i
  | Some (NewLinearHeapSlot i) => new_linear_heap c i
  | None => false
  end.

(** *** Flush dispatcher *)

Definition rasterizer_effect (mode : FlushMode) : Z -> Z -> hmem -> hmem :=
  match mode with
  | Flush => FlushRegion R
  | Invalidate => InvalidateRegion R
  | FlushAndInvalidate => FlushAndInvalidateRegion R
  end.

(** [VideoCore::Rasterizer()->...Region(start, size)] *)
Definition rasterizer_call (mode : FlushMode) (start size : Z) : M unit :=
  modify (fun s =>
    emit (with_mem s (rasterizer_effect mode start size (mem s)))
         (RasterizerCall mode start size)).

Definition RasterizerFlushRegion (start size : Z) : M unit :=
  rasterizer_call Flush start size.

Definition RasterizerInvalidateRegion (start size : Z) : M unit :=
  rasterizer_call Invalidate start size.

Definition RasterizerFlushAndInvalidateRegion (start size : Z) : M unit :=
  rasterizer_call FlushAndInvalidate start size.

(** The lambda [CheckRegion] of [RasterizerFlushVirtualRegion]. *)
Definition CheckRegion (start end_ : Z) (mode : FlushMode)
    (region_start region_end paddr_region_start : Z) : M unit :=
  if (region_end <=? start) || (end_ <=? region_start) then ret tt
  else
    let overlap_start := Z.max start region_start in
    let overlap_end := Z.min end_ region_end in
    let physical_start :=
      u32 (paddr_region_start + u32 (overlap_start - region_start)) in
    let overlap_size := u32 (overlap_end - overlap_start) in
    rasterizer_call mode physical_start overlap_size.

Definition RasterizerFlushVirtualRegion (start size : Z) (mode : FlushMode)
  : M unit :=
  let end_ := u32 (start + size) in
  CheckRegion start end_ mode
    (LINEAR_HEAP_VADDR L) (LINEAR_HEAP_VADDR_END L) (FCRAM_PADDR L) ;;
  CheckRegion start end_ mode
    (NEW_LINEAR_HEAP_VADDR L) (NEW_LINEAR_HEAP_VADDR_END L) (FCRAM_PADDR L) ;;
  CheckRegion start end_ mode
    (VRAM_VADDR L) (VRAM_VADDR_END L) (VRAM_PADDR L).

(** *** Page table management *)

Definition SetCurrentPageTable (page_table : option nat) : M unit :=
  modify (fun s =>
    {| mem := mem s; tables := tables s; current_page_table := page_table;
       cache_marker := cache_marker s; page_table_list := page_table_list s;
       dsp := dsp s; trace := trace s |}).

Definition GetCurrentPageTable : M (option nat) :=
  fun s => Ok (current_page_table s, s).

Definition set_page_table_list (s : MemorySystem) (l : list nat)
  : MemorySystem :=
  {| mem := mem s; tables := tables s;
     current_page_table := current_page_table s;
     cache_marker := cache_marker s; page_table_list := l;
     dsp := dsp s; trace := trace s |}.

Definition RegisterPageTable (page_table : nat) : M unit :=
  modify (fun s => set_page_table_list s (page_table_list s ++ [page_table])).

(** [erase(find(begin, end, x))]: the first occurrence goes; erasing
    [end()] is not defined. *)
Fixpoint erase_first (x : nat) (l : list nat) : option (list nat) :=
  match l with
  | [] => None
  | y :: rest =>
      if Nat.eqb y x then Some rest
      else option_map (cons y) (erase_first x rest)
  end.

Definition UnregisterPageTable (page_table : nat) : M unit :=
  fun s => match erase_first page_table (page_table_list s) with
           | Some l => Ok (tt, set_page_table_list s l)
           | None => Abort "erase(end())"
           end.

Definition SetDSP (d : block) : M unit :=
  modify (fun s =>
    {| mem := mem s; tables := tables s;
       current_page_table := current_page_table s;
       cache_marker := cache_marker s; page_table_list := page_table_list s;
       dsp := Some d; trace := trace s |}).

(** One turn of the loop of [MapPages]. *)
Definition MapPages_entry (c : RasterizerCacheMarker) (pt : PageTable)
    (base : Z) (memory : option hptr) (type : PageType) : PageTable :=
  let pt := set_attribute pt base type in
  let pt := set_pointer pt base memory in
  if PageType_eqb type Memory && IsCached c (u32 (base * PAGE_SIZE)) then
    set_pointer (set_attribute pt base RasterizerCachedMemory) base None
  else pt.

(** [while (base != end)], as the [count = end - base (mod 2^32)] turns it
    takes. *)
Fixpoint MapPages_loop (c : RasterizerCacheMarker) (count : nat)
    (pt : PageTable) (base : Z) (memory : option hptr) (type : PageType)
  : result PageTable :=
  match count with
  | O => Ok pt
  | S count' =>
      if base <? PAGE_TABLE_NUM_ENTRIES then
        MapPages_loop c count' (MapPages_entry c pt base memory type)
          (u32 (base + 1))
          (option_map (fun p => ptr_add p PAGE_SIZE) memory) type
      else Abort "out of range mapping"
  end.

Definition MapPages (page_table : nat) (base size : Z)
    (memory : option hptr) (type : PageType) : M unit :=
  log (LogDebug "Mapping" [u32 (base * PAGE_SIZE);
                           u32 ((base + size) * PAGE_SIZE)]) ;;
  RasterizerFlushVirtualRegion (u32 (Z.shiftl base PAGE_BITS))
    (u32 (size * PAGE_SIZE)) FlushAndInvalidate ;;
  let end_ := u32 (base + size) in
  s <- get ;;
  pt <- lift (MapPages_loop (cache_marker s) (Z.to_nat (u32 (end_ - base)))
                (tables s page_table) base memory type) ;;
  modify (fun s => with_tables s (updn (tables s) page_table pt)).

Definition MapMemoryRegion (page_table : nat) (base size : Z)
    (target : option hptr) : M unit :=
  if negb (Z.land size PAGE_MASK =? 0) then abort "non-page aligned size"
  else if negb (Z.land base PAGE_MASK =? 0) then abort "non-page aligned base"
  else MapPages page_table (base / PAGE_SIZE) (size / PAGE_SIZE) target Memory.

Definition UnmapRegion (page_table : nat) (base size : Z) : M unit :=
  if negb (Z.land size PAGE_MASK =? 0) then abort "non-page aligned size"
  else if negb (Z.land base PAGE_MASK =? 0) then abort "non-page aligned base"
  else MapPages page_table (base / PAGE_SIZE) (size / PAGE_SIZE) None Unmapped.

Definition GetPointerForRasterizerCache (addr : Z) : result hptr :=
  if (LINEAR_HEAP_VADDR L <=? addr) && (addr <? LINEAR_HEAP_VADDR_END L) then
    Ok {| blk := Fcram; ofs := u32 (addr - LINEAR_HEAP_VADDR L) |}
  else if (NEW_LINEAR_HEAP_VADDR L <=? addr)
          && (addr <? NEW_LINEAR_HEAP_VADDR_END L) then
    Ok {| blk := Fcram; ofs := u32 (addr - NEW_LINEAR_HEAP_VADDR L) |}
  else if (VRAM_VADDR L <=? addr) && (addr <? VRAM_VADDR_END L) then
    Ok {| blk := Vram; ofs := u32 (addr - VRAM_VADDR L) |}
  else Abort "unreachable".

(** *** Typed access

    [sizeof(T)] is the parameter [n]: 1, 2, 4 or 8. *)

Definition Read (n : nat) (vaddr : Z) : M Z :=
  s <- get ;;
  match current_page_table s with
  | None => abort "no current page table"
  | Some t =>
      let page_table := tables s t in
      match pointers page_table (Z.shiftr vaddr PAGE_BITS) with
      | Some page_pointer =>
          ret (le_value
                 (memcpy_from (mem s)
                    (ptr_add page_pointer (Z.land vaddr PAGE_MASK)) n))
      | None =>
          match attributes page_table (Z.shiftr vaddr PAGE_BITS) with
          | Unmapped =>
              log (LogError "unmapped Read" [Z.of_nat n * 8; vaddr]) ;;
              ret 0
          | Memory => abort "Mapped memory page without a pointer"
          | RasterizerCachedMemory =>
              RasterizerFlushVirtualRegion vaddr (Z.of_nat n) Flush ;;
              p <- lift (GetPointerForRasterizerCache vaddr) ;;
              s' <- get ;;
              ret (le_value (memcpy_from (mem s') p n))
          | Special => abort "unreachable"
          end
      end
  end.

Definition Write (n : nat) (vaddr : Z) (data : Z) : M unit :=
  s <- get ;;
  match current_page_table s with
  | None => abort "no current page table"
  | Some t =>
      let page_table := tables s t in
      match pointers page_table (Z.shiftr vaddr PAGE_BITS) with
      | Some page_pointer =>
          modify (fun s =>
            with_mem s
              (memcpy_to (mem s)
                 (ptr_add page_pointer (Z.land vaddr PAGE_MASK))
                 (le_bytes n data)))
      | None =>
          match attributes page_table (Z.shiftr vaddr PAGE_BITS) with
          | Unmapped =>
              log (LogError "unmapped Write"
                     [Z.of_nat n * 8; u32 data; vaddr])
          | Memory => abort "Mapped memory page without a pointer"
          | RasterizerCachedMemory =>
              RasterizerFlushVirtualRegion vaddr (Z.of_nat n) Invalidate ;;
              p <- lift (GetPointerForRasterizerCache vaddr) ;;
              modify (fun s =>
                with_mem s (memcpy_to (mem s) p (le_bytes n data)))
          | Special => abort "unreachable"
          end
      end
  end.

Definition Read8 (addr : Z) : M Z := Read 1 addr.
Definition Read16 (addr : Z) : M Z := Read 2 addr.
Definition Read32 (addr : Z) : M Z := Read 4 addr.
Definition Read64 (addr : Z) : M Z := Read 8 addr.

Definition Write8 (addr data : Z) : M unit := Write 1 addr data.
Definition Write16 (addr data : Z) : M unit := Write 2 addr data.
Definition Write32 (addr data : Z) : M unit := Write 4 addr data.
Definition Write64 (addr data : Z) : M unit := Write 8 addr data.

(** A process is given by its page table [process.vm_manager.page_table]. *)
Definition IsValidVirtualAddress (process : nat) (vaddr : Z) : M bool :=
  s <- get ;;
  let page_table := tables s process in
  match pointers page_table (Z.shiftr vaddr PAGE_BITS) with
  | Some _ => ret true
  | None =>
      ret (PageType_eqb (attributes page_table (Z.shiftr vaddr PAGE_BITS))
             RasterizerCachedMemory)
  end.

Definition GetPointer (vaddr : Z) : M (option hptr) :=
  s <- get ;;
  match current_page_table s with
  | None => abort "no current page table"
  | Some t =>
      match pointers (tables s t) (Z.shiftr vaddr PAGE_BITS) with
      | Some page_pointer =>
          ret (Some (ptr_add page_pointer (Z.land vaddr PAGE_MASK)))
      | None =>
          if PageType_eqb (attributes (tables s t) (Z.shiftr vaddr PAGE_BITS))
               RasterizerCachedMemory
          then p <- lift (GetPointerForRasterizerCache vaddr) ;; ret (Some p)
          else log (LogError "unknown GetPointer" [vaddr]) ;; ret None
      end
  end.

(** *** Physical addressing *)

Definition GetPhysicalPointer (address : Z) : M (option hptr) :=
  if (VRAM_PADDR L <=? address) && (address <=? VRAM_PADDR_END L) then
    ret (Some {| blk := Vram; ofs := u32 (address - VRAM_PADDR L) |})
  else if (DSP_RAM_PADDR L <=? address)
          && (address <=? DSP_RAM_PADDR_END L) then
    s <- get ;;
    match dsp s with
    | Some d =>
        ret (Some {| blk := d; ofs := u32 (address - DSP_RAM_PADDR L) |})
    | None => abort "no DSP"
    end
  else if (FCRAM_PADDR L <=? address)
          && (address <=? FCRAM_N3DS_PADDR_END L) then
    ret (Some {| blk := Fcram; ofs := u32 (address - FCRAM_PADDR L) |})
  else if (N3DS_EXTRA_RAM_PADDR L <=? address)
          && (address <=? N3DS_EXTRA_RAM_PADDR_END L) then
    ret (Some {| blk := N3dsExtraRam;
                 ofs := u32 (address - N3DS_EXTRA_RAM_PADDR L) |})
  else
    log (LogError "unknown GetPhysicalPointer" [address]) ;;
    ret None.

Definition IsValidPhysicalAddress (paddr : Z) : M bool :=
  p <- GetPhysicalPointer paddr ;;
  ret (match p with Some _ => true | None => false end).

Definition PhysicalToVirtualAddressForRasterizer (addr : Z) : M (list Z) :=
  if (VRAM_PADDR L <=? addr) && (addr <? VRAM_PADDR_END L) then
    ret [u32 (u32 (addr - VRAM_PADDR L) + VRAM_VADDR L)]
  else if (FCRAM_PADDR L <=? addr) && (addr <? FCRAM_PADDR_END L) then
    ret [u32 (u32 (addr - FCRAM_PADDR L) + LINEAR_HEAP_VADDR L);
         u32 (u32 (addr - FCRAM_PADDR L) + NEW_LINEAR_HEAP_VADDR L)]
  else if (FCRAM_PADDR_END L <=? addr)
          && (addr <? FCRAM_N3DS_PADDR_END L) then
    ret [u32 (u32 (addr - FCRAM_PADDR L) + NEW_LINEAR_HEAP_VADDR L)]
  else
    log (LogError "Trying to use invalid physical address for rasterizer"
           [addr]) ;;
    ret [].

(** *** RasterizerMarkRegionCached *)

(** The body of the innermost loop, on one page table. *)
Definition mark_page_table (cached : bool) (vaddr : Z) (pt : PageTable)
  : result PageTable :=
  let index := Z.shiftr vaddr PAGE_BITS in
  if cached then
    match attributes pt index with
    | Unmapped => Ok pt
    | Memory =>
        Ok (set_pointer (set_attribute pt index RasterizerCachedMemory)
              index None)
    | _ => Abort "unreachable"
    end
  else
    match attributes pt index with
    | Unmapped => Ok pt
    | RasterizerCachedMemory =>
        match GetPointerForRasterizerCache (Z.land vaddr NOT_PAGE_MASK) with
        | Ok p => Ok (set_pointer (set_attribute pt index Memory)
                        index (Some p))
        | Abort why => Abort why
        | OutOfFuel => OutOfFuel
        end
    | _ => Abort "unreachable"
    end.

Definition mark_registered (cached : bool) (vaddr : Z) (page_table : nat)
  : M unit :=
  s <- get ;;
  pt <- lift (mark_page_table cached vaddr (tables s page_table)) ;;
  modify (fun s => with_tables s (updn (tables s) page_table pt)).

Definition mark_alias (cached : bool) (vaddr : Z) : M unit :=
  modify (fun s => with_marker s (Mark (cache_marker s) vaddr cached)) ;;
  s <- get ;;
  for_each (page_table_list s) (mark_registered cached vaddr).

(** [for (i = 0; i < num_pages; ++i, paddr += PAGE_SIZE)] *)
Fixpoint mark_pages (cached : bool) (num_pages : nat) (paddr : Z) : M unit :=
  match num_pages with
  | O => ret tt
  | S n =>
      vaddrs <- PhysicalToVirtualAddressForRasterizer paddr ;;
      for_each vaddrs (mark_alias cached) ;;
      mark_pages cached n (u32 (paddr + PAGE_SIZE))
  end.

Definition num_pages_of (start size : Z) : Z :=
  u32 (u32 (Z.shiftr (u32 (u32 (start + size) - 1)) PAGE_BITS
            - Z.shiftr start PAGE_BITS) + 1).

Definition RasterizerMarkRegionCached (start size : Z) (cached : bool)
  : M unit :=
  if start =? 0 then ret tt
  else mark_pages cached (Z.to_nat (num_pages_of start size)) start.

(** *** Block transfers

    A host buffer that is read or filled by a block transfer is given by
    its bytes: [ReadBlock] returns the bytes it puts into [dest_buffer].
    [page_index] is a
    [size_t]: past the last entry the arrays of the page table must not be
    indexed, which ends the model's run. Each turn of a loop consumes at
    least one byte, so [size] turns are enough fuel. *)

Definition ReadBlock_page (process : nat) (src_addr size : Z)
    (page_index page_offset copy_amount : Z) : M (list Z) :=
  let current_vaddr := u32 (Z.shiftl page_index PAGE_BITS + page_offset) in
  s <- get ;;
  if page_index <? PAGE_TABLE_NUM_ENTRIES then
    match attributes (tables s process) page_index with
    | Unmapped =>
        log (LogError "unmapped ReadBlock" [current_vaddr; src_addr; size]) ;;
        ret (repeat 0 (Z.to_nat copy_amount))
    | Memory =>
        match pointers (tables s process) page_index with
        | Some p =>
            ret (memcpy_from (mem s) (ptr_add p page_offset)
                   (Z.to_nat copy_amount))
        | None => abort "null page pointer"
        end
    | RasterizerCachedMemory =>
        RasterizerFlushVirtualRegion current_vaddr (u32 copy_amount) Flush ;;
        p <- lift (GetPointerForRasterizerCache current_vaddr) ;;
        s' <- get ;;
        ret (memcpy_from (mem s') p (Z.to_nat copy_amount))
    | Special => abort "unreachable"
    end
  else abort "page index out of range".

Fixpoint ReadBlock_loop (fuel : nat) (process : nat) (src_addr size : Z)
    (page_index page_offset remaining_size : Z) (dest_buffer : list Z)
  : M (list Z) :=
  if remaining_size <=? 0 then ret dest_buffer
  else
    match fuel with
    | O => fun _ => OutOfFuel
    | S fuel' =>
        let copy_amount := Z.min (PAGE_SIZE - page_offset) remaining_size in
        chunk <- ReadBlock_page process src_addr size page_index page_offset
                   copy_amount ;;
        ReadBlock_loop fuel' process src_addr size (page_index + 1) 0
          (remaining_size - copy_amount) (dest_buffer ++ chunk)
    end.

Definition ReadBlock (process : nat) (src_addr size : Z) : M (list Z) :=
  ReadBlock_loop (Z.to_nat size) process src_addr size
    (Z.shiftr src_addr PAGE_BITS) (Z.land src_addr PAGE_MASK) size [].

(** The source of [WriteBlock]: a buffer of the caller, given by the bytes
    it holds (at least [size] of them), or a pointer into host memory, as
    [CopyBlock] passes it. [memcpy] reads its source when it is called. *)
Inductive buffer : Type :=
| Bytes (bytes : list Z)
| HostPtr (p : hptr).

Definition buffer_read (m : hmem) (b : buffer) (n : nat) : list Z :=
  match b with
  | Bytes bytes => firstn n bytes
  | HostPtr p => memcpy_from m p n
  end.

(** [src_buffer = static_cast<const u8*>(src_buffer) + copy_amount] *)
Definition buffer_advance (b : buffer) (n : Z) : buffer :=
  match b with
  | Bytes bytes => Bytes (skipn (Z.to_nat n) bytes)
  | HostPtr p => HostPtr (ptr_add p n)
  end.

Definition WriteBlock_page (process : nat) (dest_addr size : Z)
    (page_index page_offset : Z) (src_buffer : buffer) (copy_amount : Z)
  : M unit :=
  let current_vaddr := u32 (Z.shiftl page_index PAGE_BITS + page_offset) in
  s <- get ;;
  if page_index <? PAGE_TABLE_NUM_ENTRIES then
    match attributes (tables s process) page_index with
    | Unmapped =>
        log (LogError "unmapped WriteBlock" [current_vaddr; dest_addr; size])
    | Memory =>
        match pointers (tables s process) page_index with
        | Some p =>
            modify (fun s =>
              with_mem s
                (memcpy_to (mem s) (ptr_add p page_offset)
                   (buffer_read (mem s) src_buffer (Z.to_nat copy_amount))))
        | None => abort "null page pointer"
        end
    | RasterizerCachedMemory =>
        RasterizerFlushVirtualRegion current_vaddr (u32 copy_amount)
          Invalidate ;;
        p <- lift (GetPointerForRasterizerCache current_vaddr) ;;
        modify (fun s =>
          with_mem s
            (memcpy_to (mem s) p
               (buffer_read (mem s) src_buffer (Z.to_nat copy_amount))))
    | Special => abort "unreachable"
    end
  else abort "page index out of range".

Fixpoint WriteBlock_loop (fuel : nat) (process : nat) (dest_addr size : Z)
    (page_index page_offset : Z) (src_buffer : buffer) (remaining_size : Z)
  : M unit :=
  if remaining_size <=? 0 then ret tt
  else
    match fuel with
    | O => fun _ => OutOfFuel
    | S fuel' =>
        let copy_amount := Z.min (PAGE_SIZE - page_offset) remaining_size in
        WriteBlock_page process dest_addr size page_index page_offset
          src_buffer copy_amount ;;
        WriteBlock_loop fuel' process dest_addr size (page_index + 1) 0
          (buffer_advance src_buffer copy_amount)
          (remaining_size - copy_amount)
    end.

Definition WriteBlock (process : nat) (dest_addr : Z) (src_buffer : buffer)
    (size : Z) : M unit :=
  WriteBlock_loop (Z.to_nat size) process dest_addr size
    (Z.shiftr dest_addr PAGE_BITS) (Z.land dest_addr PAGE_MASK)
    src_buffer size.

Definition ZeroBlock_page (process : nat) (dest_addr size : Z)
    (page_index page_offset copy_amount : Z) : M unit :=
  let current_vaddr := u32 (Z.shiftl page_index PAGE_BITS + page_offset) in
  let zeros := repeat 0 (Z.to_nat copy_amount) in
  s <- get ;;
  if page_index <? PAGE_TABLE_NUM_ENTRIES then
    match attributes (tables s process) page_index with
    | Unmapped =>
        log (LogError "unmapped ZeroBlock" [current_vaddr; dest_addr; size])
    | Memory =>
        match pointers (tables s process) page_index with
        | Some p =>
            modify (fun s =>
              with_mem s (memcpy_to (mem s) (ptr_add p page_offset) zeros))
        | None => abort "null page pointer"
        end
    | RasterizerCachedMemory =>
        RasterizerFlushVirtualRegion current_vaddr (u32 copy_amount)
          Invalidate ;;
        p <- lift (GetPointerForRasterizerCache current_vaddr) ;;
        modify (fun s => with_mem s (memcpy_to (mem s) p zeros))
    | Special => abort "unreachable"
    end
  else abort "page index out of range".

Fixpoint ZeroBlock_loop (fuel : nat) (process : nat) (dest_addr size : Z)
    (page_index page_offset remaining_size : Z) : M unit :=
  if remaining_size <=? 0 then ret tt
  else
    match fuel with
    | O => fun _ => OutOfFuel
    | S fuel' =>
        let copy_amount := Z.min (PAGE_SIZE - page_offset) remaining_size in
        ZeroBlock_page process dest_addr size page_index page_offset
          copy_amount ;;
        ZeroBlock_loop fuel' process dest_addr size (page_index + 1) 0
          (remaining_size - copy_amount)
    end.

Definition ZeroBlock (process : nat) (dest_addr size : Z) : M unit :=
  ZeroBlock_loop (Z.to_nat size) process dest_addr size
    (Z.shiftr dest_addr PAGE_BITS) (Z.land dest_addr PAGE_MASK) size.

(** The source and the destination process of [CopyBlock] are given by
    their page tables. *)
Definition CopyBlock_page (dest_process src_process : nat)
    (dest_addr src_addr size : Z) (page_index page_offset copy_amount : Z)
  : M unit :=
  let current_vaddr := u32 (Z.shiftl page_index PAGE_BITS + page_offset) in
  s <- get ;;
  if page_index <? PAGE_TABLE_NUM_ENTRIES then
    match attributes (tables s src_process) page_index with
    | Unmapped =>
        log (LogError "unmapped CopyBlock" [current_vaddr; src_addr; size]) ;;
        ZeroBlock dest_process dest_addr copy_amount
    | Memory =>
        match pointers (tables s src_process) page_index with
        | Some p =>
            WriteBlock dest_process dest_addr
              (HostPtr (ptr_add p page_offset)) copy_amount
        | None => abort "null page pointer"
        end
    | RasterizerCachedMemory =>
        RasterizerFlushVirtualRegion current_vaddr (u32 copy_amount) Flush ;;
        p <- lift (GetPointerForRasterizerCache current_vaddr) ;;
        WriteBlock dest_process dest_addr (HostPtr p) copy_amount
    | Special => abort "unreachable"
    end
  else abort "page index out of range".

Fixpoint CopyBlock_loop (fuel : nat) (dest_process src_process : nat)
    (dest_addr src_addr size : Z) (page_index page_offset remaining_size : Z)
  : M unit :=
  if remaining_size <=? 0 then ret tt
  else
    match fuel with
    | O => fun _ => OutOfFuel
    | S fuel' =>
        let copy_amount := Z.min (PAGE_SIZE - page_offset) remaining_size in
        CopyBlock_page dest_process src_process dest_addr src_addr size
          page_index page_offset copy_amount ;;
        CopyBlock_loop fuel' dest_process src_process
          (u32 (dest_addr + copy_amount)) (u32 (src_addr + copy_amount)) size
          (page_index + 1) 0 (remaining_size - copy_amount)
    end.

Definition CopyBlock (dest_process src_process : nat)
    (dest_addr src_addr size : Z) : M unit :=
  CopyBlock_loop (Z.to_nat size) dest_process src_process dest_addr src_addr
    size (Z.shiftr src_addr PAGE_BITS) (Z.land src_addr PAGE_MASK) size.

(** *** ReadCString *)

Fixpoint ReadCString_loop (max_length : nat) (page_table : PageTable)
    (m : hmem) (vaddr : Z) : list Z :=
  match max_length with
  | O => []
  | S n =>
      match pointers page_table (Z.shiftr vaddr PAGE_BITS) with
      | Some page_pointer =>
          let value := m (ptr_add page_pointer (Z.land vaddr PAGE_MASK)) in
          if value =? 0 then []
          else value :: ReadCString_loop n page_table m (u32 (vaddr + 1))
      | None => []
      end
  end.

Definition ReadCString (vaddr max_length : Z) : M (list Z) :=
  if max_length <=? 0 then ret []
  else
    s <- get ;;
    match current_page_table s with
    | None => abort "no current page table"
    | Some t =>
        ret (ReadCString_loop (Z.to_nat max_length) (tables s t) (mem s) vaddr)
    end.

(** *** The public operations, as data

    A client drives the memory system through its public member functions;
    [reachable] collects the states it can bring about from [initial]. An
    argument of type [VAddr], [PAddr] or [u32] is passed as the 32-bit
    value it converts to. *)
Inductive Op : Type :=
| OpSetCurrentPageTable (page_table : option nat)
| OpRegisterPageTable (page_table : nat)
| OpUnregisterPageTable (page_table : nat)
| OpSetDSP (d : block)
| OpMapMemoryRegion (page_table : nat) (base size : Z) (target : option hptr)
| OpUnmapRegion (page_table : nat) (base size : Z)
| OpRasterizerMarkRegionCached (start size : Z) (cached : bool)
| OpRasterizerFlushVirtualRegion (start size : Z) (mode : FlushMode)
| OpRead (n : nat) (vaddr : Z)
| OpWrite (n : nat) (vaddr data : Z)
| OpReadBlock (process : nat) (src_addr size : Z)
| OpWriteBlock (process : nat) (dest_addr : Z) (src_buffer : list Z)
| OpZeroBlock (process : nat) (dest_addr size : Z)
| OpCopyBlock (dest_process src_process : nat) (dest_addr src_addr size : Z)
| OpReadCString (vaddr max_length : Z)
| OpGetPointer (vaddr : Z)
| OpGetPhysicalPointer (paddr : Z)
| OpRasterizerRegion (mode : FlushMode) (start size : Z).

Definition exec (o : Op) : M unit :=
  match o with
  | OpSetCurrentPageTable t => SetCurrentPageTable t
  | OpRegisterPageTable t => RegisterPageTable t
  | OpUnregisterPageTable t => UnregisterPageTable t
  | OpSetDSP d => SetDSP d
  | OpMapMemoryRegion t base size target =>
      MapMemoryRegion t (u32 base) (u32 size) target
  | OpUnmapRegion t base size => UnmapRegion t (u32 base) (u32 size)
  | OpRasterizerMarkRegionCached start size cached =>
      RasterizerMarkRegionCached (u32 start) (u32 size) cached
  | OpRasterizerFlushVirtualRegion start size mode =>
      RasterizerFlushVirtualRegion (u32 start) (u32 size) mode
  | OpRead n vaddr => Read n (u32 vaddr) ;; ret tt
  | OpWrite n vaddr data => Write n (u32 vaddr) data
  | OpReadBlock p a size => ReadBlock p (u32 a) size ;; ret tt
  | OpWriteBlock p a buf =>
      WriteBlock p (u32 a) (Bytes buf) (Z.of_nat (length buf))
  | OpZeroBlock p a size => ZeroBlock p (u32 a) size
  | OpCopyBlock d p da sa size => CopyBlock d p (u32 da) (u32 sa) size
  | OpReadCString vaddr max_length =>
      ReadCString (u32 vaddr) (u32 max_length) ;; ret tt
  | OpGetPointer vaddr => GetPointer (u32 vaddr) ;; ret tt
  | OpGetPhysicalPointer paddr => GetPhysicalPointer (u32 paddr) ;; ret tt
  | OpRasterizerRegion mode start size =>
      rasterizer_call mode (u32 start) (u32 size)
  end.

Definition run (ops : list Op) : M unit := for_each ops exec.

Definition reachable (s : MemorySystem) : Prop :=
  exists ops, run ops initial = Ok (tt, s).

(** *** Page-table invariants (section 3 of the specification) *)

Definition P1 (pt : PageTable) (i : Z) : Prop :=
  attributes pt i = Memory -> pointers pt i <> None.

Definition P2 (pt : PageTable) (i : Z) : Prop :=
  attributes pt i = RasterizerCachedMemory -> pointers pt i = None.

Definition P3 (pt : PageTable) (i : Z) : Prop :=
  attributes pt i = Unmapped -> pointers pt i = None.

(** A mapping request that hands over a host pointer. *)
Definition op_strict (o : Op) : bool :=
  match o with
  | OpMapMemoryRegion _ _ _ None => false
  | _ => true
  end.

(** What every entry of a table satisfies in a reachable state: P2 and P3;
    no [Special] page; P1 when [strict]; and a rasterizer-cached page lies
    in one of the three cacheable windows. *)
Definition entry_inv (strict : bool) (pt : PageTable) (i : Z) : Prop :=
  P2 pt i
  /\ P3 pt i
  /\ attributes pt i <> Special
  /\ (strict = true -> P1 pt i)
  /\ (layout_ok L = true -> attributes pt i = RasterizerCachedMemory ->
      0 <= i < PAGE_TABLE_NUM_ENTRIES /\ At (i * PAGE_SIZE) <> None).

Definition state_inv (strict : bool) (s : MemorySystem) : Prop :=
  forall t i, entry_inv strict (tables s t) i.

End Operations.

Arguments At L addr : assert.
Arguments GetPointerForRasterizerCache L addr : assert.

(** The address lies in one of the three cacheable virtual windows. *)
Definition cacheable (L : Layout) (a : Z) : Prop :=
  LINEAR_HEAP_VADDR L <= a < LINEAR_HEAP_VADDR_END L
  \/ VRAM_VADDR L <= a < VRAM_VADDR_END L
  \/ NEW_LINEAR_HEAP_VADDR L <= a < NEW_LINEAR_HEAP_VADDR_END L.

(** Everything but the host memory and the trace is the same. *)
Definition same_control (s s' : MemorySystem) : Prop :=
  tables s' = tables s
  /\ cache_marker s' = cache_marker s
  /\ page_table_list s' = page_table_list s
  /\ current_page_table s' = current_page_table s
  /\ dsp s' = dsp s.

(** An operation that touches nothing but host memory and trace. *)
Definition data_only {A : Type} (c : M A) : Prop :=
  forall s a s', c s = Ok (a, s') -> same_control s s'.

(** A rasterizer that leaves the host memory alone. *)
Definition idle_rasterizer : Rasterizer :=
  {| FlushRegion := fun _ _ m => m;
     InvalidateRegion := fun _ _ m => m;
     FlushAndInvalidateRegion := fun _ _ m => m |}.

(** Whether a list of operations runs to its end, and the state it then
    leads to. *)
Definition runs (L : Layout) (R : Rasterizer) (ops : list Op) : bool :=
  match run L R ops initial with
  | Ok _ => true
  | _ => false
  end.

Definition state_after (L : Layout) (R : Rasterizer) (ops : list Op)
  : MemorySystem :=
  match run L R ops initial with
  | Ok (_, s) => s
  | _ => initial
  end.


(** The physical address behind a virtual address of a cacheable window,
    as [CheckRegion] computes it from the base of the window. *)
Definition physical_image (L : Layout) (vaddr : Z) : Z :=
  if (LINEAR_HEAP_VADDR L <=? vaddr) && (vaddr <? LINEAR_HEAP_VADDR_END L)
  then FCRAM_PADDR L + (vaddr - LINEAR_HEAP_VADDR L)
  else if (NEW_LINEAR_HEAP_VADDR L <=? vaddr)
          && (vaddr <? NEW_LINEAR_HEAP_VADDR_END L)
  then FCRAM_PADDR L + (vaddr - NEW_LINEAR_HEAP_VADDR L)
  else VRAM_PADDR L + (vaddr - VRAM_VADDR L).

(** The entry that [MapPages] leaves at index [i] of a range that starts
    at index [base] with host pointer [memory]. *)
Definition mapped_entry (L : Layout) (c : RasterizerCacheMarker)
    (type : PageType) (memory : option hptr) (base i : Z)
  : PageType * option hptr :=
  if PageType_eqb type Memory && IsCached L c (i * PAGE_SIZE) then
    (RasterizerCachedMemory, None)
  else
    (type, option_map (fun p => ptr_add p ((i - base) * PAGE_SIZE)) memory).

(** *** RasterizerMarkRegionCached, flattened

    The three nested loops of [RasterizerMarkRegionCached] visit a sequence
    of pairs (registered table, virtual alias); the definitions below name
    that sequence and what the visits do to the page tables and to the
    marker, so that the loops can be compared with them. *)

(** The vector [PhysicalToVirtualAddressForRasterizer] returns, and what
    it logs. *)
Definition aliases (L : Layout) (paddr : Z) : list Z :=
  match PhysicalToVirtualAddressForRasterizer L paddr initial with
  | Ok (vs, _) => vs
  | _ => []
  end.

Definition alias_log (L : Layout) (paddr : Z) : list Event :=
  match PhysicalToVirtualAddressForRasterizer L paddr initial with
  | Ok (_, s) => trace s
  | _ => []
  end.

(** The virtual addresses visited by [num_pages] turns from [paddr]. *)
Fixpoint alias_seq (L : Layout) (num_pages : nat) (paddr : Z) : list Z :=
  match num_pages with
  | O => []
  | S n => aliases L paddr ++ alias_seq L n (u32 (paddr + PAGE_SIZE))
  end.

Fixpoint alias_logs (L : Layout) (num_pages : nat) (paddr : Z)
  : list Event :=
  match num_pages with
  | O => []
  | S n => alias_log L paddr ++ alias_logs L n (u32 (paddr + PAGE_SIZE))
  end.

(** The visits: for each alias in turn, each registered table in turn. *)
Definition touches (l : list nat) (vs : list Z) : list (nat * Z) :=
  flat_map (fun v => map (fun t => (t, v)) l) vs.

Fixpoint apply_touches (L : Layout) (cached : bool) (ts : list (nat * Z))
    (tb : nat -> PageTable) : result (nat -> PageTable) :=
  match ts with
  | [] => Ok tb
  | (t, v) :: rest =>
      match mark_page_table L cached v (tb t) with
      | Ok pt => apply_touches L cached rest (updn tb t pt)
      | Abort why => Abort why
      | OutOfFuel => OutOfFuel
      end
  end.

Definition mark_all (L : Layout) (cached : bool) (vs : list Z)
    (c : RasterizerCacheMarker) : RasterizerCacheMarker :=
  fold_left (fun c v => Mark L c v cached) vs c.

(** The state with its tables, marker and trace replaced. *)
Definition marked (s : MemorySystem) (tb : nat -> PageTable)
    (c : RasterizerCacheMarker) (tr : list Event) : MemorySystem :=
  {| mem := mem s; tables := tb;
     current_page_table := current_page_table s;
     cache_marker := c; page_table_list := page_table_list s;
     dsp := dsp s; trace := tr |}.

(** The transition table of section 4.5, on one entry of a page table:
    what the entry of page [i] becomes, when the table lists the case. *)
Definition transition (L : Layout) (cached : bool) (i : Z)
    (e : PageType * option hptr) : option (PageType * option hptr) :=
  match fst e, cached with
  | Unmapped, _ => Some e
  | Memory, true => Some (RasterizerCachedMemory, None)
  | RasterizerCachedMemory, false =>
      match GetPointerForRasterizerCache L (i * PAGE_SIZE) with
      | Ok p => Some (Memory, Some p)
      | _ => None
      end
  | _, _ => None
  end.

Definition entry (tb : nat -> PageTable) (t : nat) (i : Z)
  : PageType * option hptr :=
  (attributes (tb t) i, pointers (tb t) i).

(** *** Guest addresses of a block transfer

    The host location a block transfer uses for the guest address [a] on a
    page with attribute [Memory], and the effect on host memory of storing
    [bytes] one after the other at the guest addresses [a], [a + 1], ...
    (a byte for an address without such a location is dropped). *)
Definition block_target (pt : PageTable) (a : Z) : option hptr :=
  match attributes pt (Z.shiftr a PAGE_BITS),
        pointers pt (Z.shiftr a PAGE_BITS) with
  | Memory, Some p => Some (ptr_add p (Z.land a PAGE_MASK))
  | _, _ => None
  end.

Fixpoint write_bytes (pt : PageTable) (m : hmem) (a : Z) (bytes : list Z)
  : hmem :=
  match bytes with
  | [] => m
  | b :: rest =>
      write_bytes pt
        (match block_target pt a with
         | Some q => store_byte m q b
         | None => m
         end) (a + 1) rest
  end.

(** A rasterizer whose flush writes one byte back into VRAM. *)
Definition stamping_rasterizer : Rasterizer :=
  {| FlushRegion := fun _ _ m => store_byte m {| blk := Vram; ofs := 0 |} 0x5A;
     InvalidateRegion := fun _ _ m => m;
     FlushAndInvalidateRegion := fun _ _ m => m |}.

(** Sample runs, used to exercise the theorems on concrete states. *)

Definition vram_map_ops : list Op :=
  [OpSetCurrentPageTable (Some 0%nat);
   OpRegisterPageTable 0;
   OpMapMemoryRegion 0 0x1F000000 0x1000 (Some {| blk := Vram; ofs := 0 |});
   OpMapMemoryRegion 0 0x00100000 0x2000
     (Some {| blk := HostBuf 0; ofs := 0 |})].

Definition vram_page_ops : list Op :=
  vram_map_ops ++ [OpRasterizerMarkRegionCached 0x18000000 0x1000 true].

(** A linear-heap page mapped onto a host buffer that is not FCRAM. *)
Definition foreign_map_ops : list Op :=
  [OpRegisterPageTable 0;
   OpMapMemoryRegion 0 0x14000000 0x1000
     (Some {| blk := HostBuf 7; ofs := 0 |})].

Definition null_map_ops : list Op :=
  [OpMapMemoryRegion 0 0x1000 0x1000 None].

(** *** FCRAM offsets

    [GetFCRAMOffset] and [GetFCRAMPointer]. The size of the FCRAM buffer,
    the constant [FCRAM_N3DS_SIZE] of core/memory.h, is a parameter of the
    two functions. A pointer that does not point into the FCRAM buffer
    fails the comparison of [DEBUG_ASSERT], which ends the run. *)
Definition GetFCRAMOffset (FCRAM_N3DS_SIZE : Z) (pointer : hptr) : result Z :=
  if block_eqb (blk pointer) Fcram
     && (0 <=? ofs pointer) && (ofs pointer <=? FCRAM_N3DS_SIZE)
  then Ok (u32 (ofs pointer))
  else Abort "pointer outside FCRAM".

Definition GetFCRAMPointer (FCRAM_N3DS_SIZE : Z) (offset : Z) : result hptr :=
  if offset <=? FCRAM_N3DS_SIZE then Ok {| blk := Fcram; ofs := offset |}
  else Abort "offset outside FCRAM".

(** The bytes a block transfer finds at the guest addresses [a], [a + 1],
    ...: the byte at the host location of the address, and zero for an
    address without one. *)
Fixpoint read_bytes (pt : PageTable) (m : hmem) (a : Z) (n : nat) : list Z :=
  match n with
  | O => []
  | S n' =>
      match block_target pt a with
      | Some q => m q
      | None => 0
      end :: read_bytes pt m (a + 1) n'
  end.

(** The page types for which the [switch] of [RasterizerMarkRegionCached]
    has no [case]: it goes to [default:] and reaches [UNREACHABLE]. *)
Definition off_transition_table (cached : bool) (a : PageType) : bool :=
  match cached, a with
  | true, (RasterizerCachedMemory | Special) => true
  | false, (Memory | Special) => true
  | _, _ => false
  end.

(** *** Runs that register before they map

    The operations that leave the page tables, the marker and the list of
    registered tables alone. *)
Definition is_access (o : Op) : bool :=
  match o with
  | OpRasterizerFlushVirtualRegion _ _ _
  | OpRead _ _ | OpWrite _ _ _
  | OpReadBlock _ _ _ | OpWriteBlock _ _ _ | OpZeroBlock _ _ _
  | OpCopyBlock _ _ _ _ _
  | OpReadCString _ _ | OpGetPointer _ | OpGetPhysicalPointer _
  | OpRasterizerRegion _ _ _ => true
  | _ => false
  end.

(** A run in which a page table is registered by the time it is mapped,
    and no table is unregistered; [registered] is the list of registered
    tables at the start. *)
Fixpoint disciplined (registered : list nat) (ops : list Op) : bool :=
  match ops with
  | [] => true
  | OpRegisterPageTable t :: rest => disciplined (registered ++ [t]) rest
  | OpUnregisterPageTable _ :: _ => false
  | OpMapMemoryRegion t _ _ _ :: rest =>
      existsb (Nat.eqb t) registered && disciplined registered rest
  | _ :: rest => disciplined registered rest
  end.

(** The marker and the page tables agree: in a registered table a
    rasterizer-cached entry is a page the marker has as cached, and an
    entry with attribute [Memory] a page it does not; a table that is not
    registered maps nothing. *)
Definition marker_agrees (L : Layout) (s : MemorySystem) : Prop :=
  forall t,
    (In t (page_table_list s) ->
     forall i,
       (attributes (tables s t) i = RasterizerCachedMemory ->
        IsCached L (cache_marker s) (i * PAGE_SIZE) = true)
       /\ (attributes (tables s t) i = Memory ->
           IsCached L (cache_marker s) (i * PAGE_SIZE) = false))
    /\ (~ In t (page_table_list s) ->
        forall i, attributes (tables s t) i = Unmapped).

(** * Properties *)

(** ** Arithmetic on pages *)

Lemma PAGE_SIZE_val : PAGE_SIZE = 4096.
Proof. reflexivity. Qed.

Lemma PAGE_TABLE_NUM_ENTRIES_val : PAGE_TABLE_NUM_ENTRIES = 1048576.
Proof. reflexivity. Qed.

Lemma shiftr_page (x : Z) : Z.shiftr x PAGE_BITS = x / 4096.
Proof. unfold PAGE_BITS. now rewrite Z.shiftr_div_pow2 by lia. Qed.

Lemma shiftl_page (x : Z) : Z.shiftl x PAGE_BITS = x * 4096.
Proof. unfold PAGE_BITS. now rewrite Z.shiftl_mul_pow2 by lia. Qed.

Lemma land_page_mask (x : Z) : Z.land x PAGE_MASK = x mod 4096.
Proof.
  change PAGE_MASK with (Z.ones 12).
  now rewrite Z.land_ones by lia.
Qed.

Lemma land_not_page_mask (x : Z) :
  0 <= x < 2 ^ 32 -> Z.land x NOT_PAGE_MASK = 4096 * (x / 4096).
Proof.
  intros Hx.
  assert (E : Z.land x NOT_PAGE_MASK = Z.shiftl (Z.shiftr x 12) 12).
  { apply Z.bits_inj'. intros n Hn.
    rewrite Z.land_spec.
    change NOT_PAGE_MASK with (Z.lxor (Z.ones 32) (Z.ones 12)).
    rewrite Z.lxor_spec.
    destruct (Z.ltb_spec n 12) as [Hlo | Hhi].
    - rewrite Z.shiftl_spec_low by lia.
      rewrite !Z.ones_spec_low by lia. simpl. apply andb_false_r.
    - rewrite Z.shiftl_spec by lia. rewrite Z.shiftr_spec by lia.
      replace (n - 12 + 12) with n by lia.
      rewrite (Z.ones_spec_high 12) by lia.
      destruct (Z.ltb_spec n 32) as [Hlt | Hge].
      + rewrite Z.ones_spec_low by lia. simpl. apply andb_true_r.
      + rewrite Z.ones_spec_high by lia. simpl. rewrite andb_false_r.
        symmetry. apply Z.bits_above_log2; [lia |].
        destruct (Z.eq_dec x 0) as [-> | Hnz]; [simpl; lia |].
        apply Z.log2_lt_pow2; [lia |].
        assert (2 ^ 32 <= 2 ^ n) by (apply Z.pow_le_mono_r; lia). lia. }
  rewrite E, Z.shiftl_mul_pow2, Z.shiftr_div_pow2 by lia.
  change (2 ^ 12) with 4096. lia.
Qed.

Lemma u32_small (x : Z) : 0 <= x < 2 ^ 32 -> u32 x = x.
Proof. intros H. unfold u32. now apply Z.mod_small. Qed.

Lemma u32_range (x : Z) : 0 <= u32 x < 2 ^ 32.
Proof. unfold u32. apply Z.mod_pos_bound. lia. Qed.

Lemma page_aligned_mod (x : Z) : page_aligned x = true -> x mod 4096 = 0.
Proof.
  unfold page_aligned. rewrite land_page_mask. intros H.
  now apply Z.eqb_eq in H.
Qed.

Lemma layout_ok_facts (L : Layout) : layout_ok L = true -> layout_facts L.
Proof.
  unfold layout_ok. intros H.
  repeat (apply andb_prop in H; let H' := fresh "H" in destruct H as [H H']).
  constructor;
    first [ now apply page_aligned_mod
          | now apply Z.ltb_lt
          | now apply Z.leb_le
          | now apply Z.eqb_eq ].
Qed.

(** Brings the facts of a layout into the context, for [lia]. *)
Ltac layout H :=
  let F := fresh "F" in
  pose proof (layout_ok_facts _ H) as F; destruct F.

Ltac bools :=
  repeat match goal with
    | |- context [?a <=? ?b] => destruct (Z.leb_spec a b)
    | |- context [?a <? ?b] => destruct (Z.ltb_spec a b)
    | |- context [?a =? ?b] => destruct (Z.eqb_spec a b)
    end; simpl; try lia.

(** ** Reasoning on runs *)

Lemma bind_ok {A B : Type} (c : M A) (k : A -> M B) s r :
  bind c k s = Ok r -> exists a s1, c s = Ok (a, s1) /\ k a s1 = Ok r.
Proof.
  unfold bind. destruct (c s) as [[a s1] | |]; [eauto | discriminate ..].
Qed.

Lemma bind_eq {A B : Type} (c : M A) (k : A -> M B) s a s1 :
  c s = Ok (a, s1) -> bind c k s = k a s1.
Proof. unfold bind. now intros ->. Qed.

Lemma lift_ok {A : Type} (r : result A) s a s' :
  lift r s = Ok (a, s') -> r = Ok a /\ s' = s.
Proof. destruct r; simpl; intros H; inversion H; auto. Qed.

(** Takes a successful run apart along its binds, and resolves the steps
    that only read the state. *)
Ltac run_clean :=
  repeat match goal with
    | u : unit |- _ => destruct u
    | H : get _ = Ok _ |- _ => inversion H; subst; clear H
    | H : ret _ _ = Ok _ |- _ => inversion H; subst; clear H
    | H : lift _ _ = Ok _ |- _ =>
        apply lift_ok in H; let E := fresh "Hlift" in destruct H as [E ->]
    end.

Ltac run_inv H :=
  repeat match type of H with
    | bind _ _ _ = Ok _ =>
        let a := fresh "a" in
        let s := fresh "s" in
        let H1 := fresh "Hrun" in
        apply bind_ok in H; destruct H as (a & s & H1 & H)
    end;
  run_clean.

Lemma for_each_inv {A : Type} (P : MemorySystem -> Prop) (body : A -> M unit) :
  forall l s s',
    (forall x s1 s2, In x l -> P s1 -> body x s1 = Ok (tt, s2) -> P s2) ->
    P s -> for_each l body s = Ok (tt, s') -> P s'.
Proof.
  induction l as [| x l IH]; intros s s' Hbody HP Hrun; simpl in Hrun.
  - inversion Hrun; now subst.
  - apply bind_ok in Hrun. destruct Hrun as ([] & s1 & H1 & H2).
    apply (IH s1 s'); auto.
    + intros y sa sb Hy. apply Hbody. now right.
    + apply (Hbody x s s1); auto. now left.
Qed.

(** ** Physical to virtual translation *)

(** C5: [PhysicalToVirtualAddressForRasterizer] returns one virtual
    address for a physical address in the VRAM window; the linear-heap alias
    followed by the new-linear-heap alias for FCRAM below the end of the
    legacy model; the new-linear-heap alias alone for the FCRAM tail of the
    enhanced model; and nothing, with an error logged, anywhere else. *)
Theorem PhysicalToVirtualAddressForRasterizer_cases :
  forall (L : Layout) (s : MemorySystem) (paddr : Z),
    layout_ok L = true ->
    0 <= paddr < 2 ^ 32 ->
    (VRAM_PADDR L <= paddr < VRAM_PADDR_END L ->
     PhysicalToVirtualAddressForRasterizer L paddr s
     = Ok ([paddr - VRAM_PADDR L + VRAM_VADDR L], s))
    /\ (FCRAM_PADDR L <= paddr < FCRAM_PADDR_END L ->
        PhysicalToVirtualAddressForRasterizer L paddr s
        = Ok ([paddr - FCRAM_PADDR L + LINEAR_HEAP_VADDR L;
               paddr - FCRAM_PADDR L + NEW_LINEAR_HEAP_VADDR L], s))
    /\ (FCRAM_PADDR_END L <= paddr < FCRAM_N3DS_PADDR_END L ->
        PhysicalToVirtualAddressForRasterizer L paddr s
        = Ok ([paddr - FCRAM_PADDR L + NEW_LINEAR_HEAP_VADDR L], s))
    /\ (~ VRAM_PADDR L <= paddr < VRAM_PADDR_END L ->
        ~ FCRAM_PADDR L <= paddr < FCRAM_N3DS_PADDR_END L ->
        PhysicalToVirtualAddressForRasterizer L paddr s
        = Ok ([], emit s (LogError
                 "Trying to use invalid physical address for rasterizer"
                 [paddr]))).
Proof.
  intros L s paddr HL Hp. layout HL.
  unfold PhysicalToVirtualAddressForRasterizer.
  repeat split; intros; bools; unfold ret; simpl;
    rewrite ?(u32_small (paddr - _)) by lia;
    rewrite ?u32_small by lia; reflexivity.
Qed.

Lemma PhysicalToVirtualAddressForRasterizer_cases_witness :
  PhysicalToVirtualAddressForRasterizer ctr_layout 0x18001234 initial
  = Ok ([0x1F001234], initial)
  /\ PhysicalToVirtualAddressForRasterizer ctr_layout 0x20001234 initial
     = Ok ([0x14001234; 0x30001234], initial)
  /\ PhysicalToVirtualAddressForRasterizer ctr_layout 0x28001234 initial
     = Ok ([0x38001234], initial)
  /\ PhysicalToVirtualAddressForRasterizer ctr_layout 0x1FF00000 initial
     = Ok ([], emit initial (LogError
              "Trying to use invalid physical address for rasterizer"
              [0x1FF00000])).
Proof.
  assert (HL : layout_ok ctr_layout = true) by reflexivity.
  split; [| split; [| split]].
  - apply (PhysicalToVirtualAddressForRasterizer_cases
             ctr_layout initial 0x18001234 HL); simpl; lia.
  - apply (PhysicalToVirtualAddressForRasterizer_cases
             ctr_layout initial 0x20001234 HL); simpl; lia.
  - apply (PhysicalToVirtualAddressForRasterizer_cases
             ctr_layout initial 0x28001234 HL); simpl; lia.
  - apply (PhysicalToVirtualAddressForRasterizer_cases
             ctr_layout initial 0x1FF00000 HL); simpl; lia.
Defined.

(** ** Physical pointers *)

(** C10: [GetPhysicalPointer] compares with [<=] against the end of each
    physical window, so the address equal to an END constant, one byte past
    the window, still gets a pointer, the one just past the buffer of the
    window, and [IsValidPhysicalAddress] answers true there (for the DSP
    window, once the DSP is set). *)
Theorem GetPhysicalPointer_end_inclusive :
  forall (L : Layout) (s : MemorySystem),
    layout_ok L = true ->
    GetPhysicalPointer L (VRAM_PADDR_END L) s
    = Ok (Some {| blk := Vram; ofs := VRAM_PADDR_END L - VRAM_PADDR L |}, s)
    /\ GetPhysicalPointer L (FCRAM_N3DS_PADDR_END L) s
       = Ok (Some {| blk := Fcram;
                     ofs := FCRAM_N3DS_PADDR_END L - FCRAM_PADDR L |}, s)
    /\ GetPhysicalPointer L (N3DS_EXTRA_RAM_PADDR_END L) s
       = Ok (Some {| blk := N3dsExtraRam;
                     ofs := N3DS_EXTRA_RAM_PADDR_END L
                            - N3DS_EXTRA_RAM_PADDR L |}, s)
    /\ (forall d, dsp s = Some d ->
        GetPhysicalPointer L (DSP_RAM_PADDR_END L) s
        = Ok (Some {| blk := d;
                      ofs := DSP_RAM_PADDR_END L - DSP_RAM_PADDR L |}, s)
        /\ IsValidPhysicalAddress L (DSP_RAM_PADDR_END L) s = Ok (true, s))
    /\ (forall a,
          In a [VRAM_PADDR_END L; FCRAM_N3DS_PADDR_END L;
                N3DS_EXTRA_RAM_PADDR_END L] ->
          IsValidPhysicalAddress L a s = Ok (true, s)).
Proof.
  intros L s HL. layout HL.
  assert (HV : GetPhysicalPointer L (VRAM_PADDR_END L) s
               = Ok (Some {| blk := Vram;
                             ofs := VRAM_PADDR_END L - VRAM_PADDR L |}, s)).
  { unfold GetPhysicalPointer. bools; unfold ret;
      now rewrite u32_small by lia. }
  assert (HF : GetPhysicalPointer L (FCRAM_N3DS_PADDR_END L) s
               = Ok (Some {| blk := Fcram;
                             ofs := FCRAM_N3DS_PADDR_END L - FCRAM_PADDR L |},
                     s)).
  { unfold GetPhysicalPointer. bools; unfold ret;
      now rewrite u32_small by lia. }
  assert (HE : GetPhysicalPointer L (N3DS_EXTRA_RAM_PADDR_END L) s
               = Ok (Some {| blk := N3dsExtraRam;
                             ofs := N3DS_EXTRA_RAM_PADDR_END L
                                    - N3DS_EXTRA_RAM_PADDR L |}, s)).
  { unfold GetPhysicalPointer. bools; unfold ret;
      now rewrite u32_small by lia. }
  split; [exact HV |]. split; [exact HF |]. split; [exact HE |]. split.
  - intros d Hd.
    assert (HD : GetPhysicalPointer L (DSP_RAM_PADDR_END L) s
                 = Ok (Some {| blk := d;
                               ofs := DSP_RAM_PADDR_END L - DSP_RAM_PADDR L |},
                       s)).
    { unfold GetPhysicalPointer. bools; unfold bind, get, ret; rewrite Hd;
        now rewrite u32_small by lia. }
    split; [exact HD |].
    unfold IsValidPhysicalAddress. now rewrite (bind_eq _ _ _ _ _ HD).
  - intros a Ha. unfold IsValidPhysicalAddress. simpl in Ha.
    destruct Ha as [<- | [<- | [<- | []]]].
    + now rewrite (bind_eq _ _ _ _ _ HV).
    + now rewrite (bind_eq _ _ _ _ _ HF).
    + now rewrite (bind_eq _ _ _ _ _ HE).
Qed.

Lemma GetPhysicalPointer_end_inclusive_witness :
  GetPhysicalPointer ctr_layout 0x18600000 initial
  = Ok (Some {| blk := Vram; ofs := 0x600000 |}, initial)
  /\ IsValidPhysicalAddress ctr_layout 0x18600000 initial
     = Ok (true, initial).
Proof.
  destruct (GetPhysicalPointer_end_inclusive ctr_layout initial eq_refl)
    as (HV & _ & _ & _ & Hvalid).
  split; [exact HV |].
  apply (Hvalid 0x18600000). left. reflexivity.
Defined.

(** ** Operations that only touch host memory and trace *)

Lemma same_control_refl s : same_control s s.
Proof. repeat split. Qed.

Lemma same_control_trans s1 s2 s3 :
  same_control s1 s2 -> same_control s2 s3 -> same_control s1 s3.
Proof.
  unfold same_control. intros (A1 & A2 & A3 & A4 & A5) (B1 & B2 & B3 & B4 & B5).
  repeat split; congruence.
Qed.

Lemma data_only_ret {A : Type} (a : A) : data_only (ret a).
Proof. intros s b s' H. inversion H. apply same_control_refl. Qed.

Lemma data_only_abort {A : Type} why : data_only (@abort A why).
Proof. intros s b s' H. discriminate. Qed.

Lemma data_only_fuel {A : Type} :
  data_only (fun _ : MemorySystem => @OutOfFuel (A * MemorySystem)).
Proof. intros s b s' H. discriminate. Qed.

Lemma data_only_get : data_only get.
Proof. intros s b s' H. inversion H. apply same_control_refl. Qed.

Lemma data_only_lift {A : Type} (r : result A) : data_only (lift r).
Proof.
  intros s b s' H. apply lift_ok in H. destruct H as [_ ->].
  apply same_control_refl.
Qed.

Lemma data_only_log e : data_only (log e).
Proof. intros s b s' H. inversion H. repeat split. Qed.

Lemma data_only_mem (f : MemorySystem -> hmem) :
  data_only (modify (fun s => with_mem s (f s))).
Proof. intros s b s' H. inversion H. repeat split. Qed.

Lemma data_only_bind {A B : Type} (c : M A) (k : A -> M B) :
  data_only c -> (forall a, data_only (k a)) -> data_only (bind c k).
Proof.
  intros Hc Hk s b s' H. apply bind_ok in H. destruct H as (a & s1 & H1 & H2).
  eapply same_control_trans; [eapply Hc | eapply Hk]; eauto.
Qed.

Lemma data_only_rasterizer_call R mode start size :
  data_only (rasterizer_call R mode start size).
Proof. intros s b s' H. inversion H. repeat split. Qed.

Create HintDb data_only.
#[local] Hint Resolve data_only_ret data_only_abort data_only_get
  data_only_lift data_only_log data_only_mem data_only_fuel
  data_only_rasterizer_call : data_only.

(** Splits a [data_only] goal along the structure of the operation. *)
Ltac data_only_step :=
  match goal with
  | |- data_only (bind _ _) => apply data_only_bind; [| intros ?]
  | |- data_only (if ?b then _ else _) => destruct b
  | |- data_only (match ?x with _ => _ end) => destruct x
  | |- data_only _ => solve [auto with data_only]
  end.

Lemma data_only_CheckRegion R start end_ mode rs re ps :
  data_only (CheckRegion R start end_ mode rs re ps).
Proof. unfold CheckRegion. repeat data_only_step. Qed.

Lemma data_only_RasterizerFlushVirtualRegion L R start size mode :
  data_only (RasterizerFlushVirtualRegion L R start size mode).
Proof.
  unfold RasterizerFlushVirtualRegion.
  repeat (apply data_only_bind; [| intros ?]);
    apply data_only_CheckRegion.
Qed.
#[local] Hint Resolve data_only_RasterizerFlushVirtualRegion : data_only.

Lemma data_only_Read L R n vaddr : data_only (Read L R n vaddr).
Proof. unfold Read. repeat data_only_step. Qed.

Lemma data_only_Write L R n vaddr data : data_only (Write L R n vaddr data).
Proof. unfold Write. repeat data_only_step. Qed.

Lemma data_only_ReadBlock_page L R process src_addr size pi po ca :
  data_only (ReadBlock_page L R process src_addr size pi po ca).
Proof. unfold ReadBlock_page. repeat data_only_step. Qed.

Lemma data_only_ReadBlock_loop L R process src_addr size :
  forall fuel pi po rem dest,
    data_only (ReadBlock_loop L R fuel process src_addr size pi po rem dest).
Proof.
  induction fuel as [| fuel IH]; intros pi po rem dest; simpl.
  - repeat data_only_step.
  - destruct (rem <=? 0); [auto with data_only |].
    apply data_only_bind; [apply data_only_ReadBlock_page | intros ?; apply IH].
Qed.

Lemma data_only_WriteBlock_page L R process dest_addr size pi po src ca :
  data_only (WriteBlock_page L R process dest_addr size pi po src ca).
Proof. unfold WriteBlock_page. repeat data_only_step. Qed.

Lemma data_only_WriteBlock_loop L R process dest_addr size :
  forall fuel pi po src rem,
    data_only (WriteBlock_loop L R fuel process dest_addr size pi po src rem).
Proof.
  induction fuel as [| fuel IH]; intros pi po src rem; simpl.
  - repeat data_only_step.
  - destruct (rem <=? 0); [auto with data_only |].
    apply data_only_bind; [apply data_only_WriteBlock_page | intros ?; apply IH].
Qed.

Lemma data_only_ZeroBlock_page L R process dest_addr size pi po ca :
  data_only (ZeroBlock_page L R process dest_addr size pi po ca).
Proof. unfold ZeroBlock_page. repeat data_only_step. Qed.

Lemma data_only_ZeroBlock_loop L R process dest_addr size :
  forall fuel pi po rem,
    data_only (ZeroBlock_loop L R fuel process dest_addr size pi po rem).
Proof.
  induction fuel as [| fuel IH]; intros pi po rem; simpl.
  - repeat data_only_step.
  - destruct (rem <=? 0); [auto with data_only |].
    apply data_only_bind; [apply data_only_ZeroBlock_page | intros ?; apply IH].
Qed.

Lemma data_only_CopyBlock_page L R dp sp da sa size pi po ca :
  data_only (CopyBlock_page L R dp sp da sa size pi po ca).
Proof.
  unfold CopyBlock_page, ZeroBlock, WriteBlock.
  repeat first [ apply data_only_ZeroBlock_loop
               | apply data_only_WriteBlock_loop
               | data_only_step ].
Qed.

Lemma data_only_CopyBlock_loop L R dp sp size :
  forall fuel da sa pi po rem,
    data_only (CopyBlock_loop L R fuel dp sp da sa size pi po rem).
Proof.
  induction fuel as [| fuel IH]; intros da sa pi po rem; simpl.
  - repeat data_only_step.
  - destruct (rem <=? 0); [auto with data_only |].
    apply data_only_bind; [apply data_only_CopyBlock_page | intros ?; apply IH].
Qed.

Lemma data_only_ReadCString vaddr max_length :
  data_only (ReadCString vaddr max_length).
Proof. unfold ReadCString. repeat data_only_step. Qed.

Lemma data_only_GetPointer L vaddr : data_only (GetPointer L vaddr).
Proof. unfold GetPointer. repeat data_only_step. Qed.

Lemma data_only_GetPhysicalPointer L paddr :
  data_only (GetPhysicalPointer L paddr).
Proof. unfold GetPhysicalPointer. repeat data_only_step. Qed.

(** ** Arrays and windows *)

Lemma upd_same {A : Type} (f : Z -> A) i v : upd f i v i = v.
Proof. unfold upd. now rewrite Z.eqb_refl. Qed.

Lemma upd_other {A : Type} (f : Z -> A) i j v : j <> i -> upd f i v j = f j.
Proof. unfold upd. intros H. apply Z.eqb_neq in H. now rewrite H. Qed.

Lemma updn_same {A : Type} (f : nat -> A) i v : updn f i v i = v.
Proof. unfold updn. now rewrite Nat.eqb_refl. Qed.

Lemma updn_other {A : Type} (f : nat -> A) i j v :
  j <> i -> updn f i v j = f j.
Proof. unfold updn. intros H. apply Nat.eqb_neq in H. now rewrite H. Qed.

Lemma At_cacheable L a : At L a <> None <-> cacheable L a.
Proof.
  unfold At, cacheable.
  split.
  - bools; intros Hat; try lia; now contradiction Hat.
  - intros Hc. bools; discriminate.
Qed.

Lemma cacheable_page L a :
  layout_ok L = true -> 0 <= a ->
  (cacheable L a <-> cacheable L (a / 4096 * 4096)).
Proof.
  intros HL Ha. layout HL. unfold cacheable.
  pose proof (Z.div_mod a 4096 ltac:(lia)).
  pose proof (Z.mod_pos_bound a 4096 ltac:(lia)).
  pose proof (Z.div_mod (LINEAR_HEAP_VADDR L) 4096 ltac:(lia)).
  pose proof (Z.div_mod (LINEAR_HEAP_VADDR_END L) 4096 ltac:(lia)).
  pose proof (Z.div_mod (VRAM_VADDR L) 4096 ltac:(lia)).
  pose proof (Z.div_mod (VRAM_VADDR_END L) 4096 ltac:(lia)).
  pose proof (Z.div_mod (NEW_LINEAR_HEAP_VADDR L) 4096 ltac:(lia)).
  pose proof (Z.div_mod (NEW_LINEAR_HEAP_VADDR_END L) 4096 ltac:(lia)).
  lia.
Qed.

Lemma cacheable_range L a :
  layout_ok L = true -> cacheable L a -> 0 <= a < 2 ^ 32.
Proof. intros HL H. layout HL. unfold cacheable in H. lia. Qed.

Lemma GetPointerForRasterizerCache_ok L a :
  cacheable L a -> exists p, GetPointerForRasterizerCache L a = Ok p.
Proof.
  unfold cacheable, GetPointerForRasterizerCache. intros H.
  bools; eexists; reflexivity.
Qed.

Lemma GetPointerForRasterizerCache_cacheable L a p :
  GetPointerForRasterizerCache L a = Ok p -> cacheable L a.
Proof.
  unfold cacheable, GetPointerForRasterizerCache.
  bools; discriminate.
Qed.

Lemma IsCached_cacheable L c a : IsCached L c a = true -> cacheable L a.
Proof.
  intros H. apply At_cacheable. unfold IsCached in H.
  destruct (At L a); [discriminate | discriminate].
Qed.

(** The virtual aliases of a physical address lie in the cacheable
    windows, and computing them changes nothing but the trace. *)
Lemma aliases_cacheable L paddr s vs s' :
  layout_ok L = true -> 0 <= paddr < 2 ^ 32 ->
  PhysicalToVirtualAddressForRasterizer L paddr s = Ok (vs, s') ->
  same_control s s' /\ mem s' = mem s
  /\ forall v, In v vs -> cacheable L v.
Proof.
  intros HL Hp H. layout HL. revert H.
  unfold PhysicalToVirtualAddressForRasterizer, cacheable.
  bools; intros Hr; inversion Hr; subst; clear Hr;
    (split; [repeat split |]); (split; [reflexivity |]);
    simpl; intros v Hv;
    repeat (destruct Hv as [<- | Hv]); try contradiction;
    rewrite ?(u32_small (paddr - _)) by lia;
    rewrite ?u32_small by lia; lia.
Qed.

(** ** The invariant of reachable states *)

Ltac entry_simpl :=
  unfold entry_inv, P1, P2, P3, set_pointer, set_attribute in *; simpl in *.

Lemma state_inv_same_control L strict s s' :
  same_control s s' -> state_inv L strict s -> state_inv L strict s'.
Proof.
  intros (Ht & _) H t i. rewrite Ht. apply H.
Qed.

Lemma state_inv_initial L strict : state_inv L strict initial.
Proof.
  intros t i. entry_simpl. repeat split; intros; congruence.
Qed.

Lemma state_inv_updn L strict s t pt :
  state_inv L strict s ->
  (forall i, entry_inv L strict pt i) ->
  state_inv L strict (with_tables s (updn (tables s) t pt)).
Proof.
  intros Hs Hpt u i. simpl. unfold updn.
  destruct (Nat.eqb u t); [apply Hpt | apply Hs].
Qed.

Lemma MapPages_entry_inv L strict c pt base memory type :
  0 <= base < PAGE_TABLE_NUM_ENTRIES ->
  type = Memory \/ (type = Unmapped /\ memory = None) ->
  (strict = true -> type = Memory -> memory <> None) ->
  (forall i, entry_inv L strict pt i) ->
  forall i, entry_inv L strict (MapPages_entry L c pt base memory type) i.
Proof.
  intros Hb Hty Hstrict Hpt i. unfold MapPages_entry.
  pose proof (Hpt i) as (H2 & H3 & Hsp & H1 & Hw).
  destruct (PageType_eqb type Memory && IsCached L c (u32 (base * PAGE_SIZE)))
    eqn:E.
  - apply andb_prop in E. destruct E as [_ Hc].
    apply IsCached_cacheable in Hc.
    rewrite u32_small in Hc
      by (rewrite PAGE_SIZE_val; rewrite PAGE_TABLE_NUM_ENTRIES_val in Hb; lia).
    entry_simpl. unfold upd.
    destruct (Z.eqb_spec i base) as [-> | Hne].
    + repeat split; intros; try congruence; try lia.
      now apply At_cacheable.
    + repeat split; auto; now apply Hw.
  - entry_simpl. unfold upd.
    destruct (Z.eqb_spec i base) as [-> | Hne].
    + destruct Hty as [-> | [-> ->]];
        repeat split; intros; try congruence; try discriminate.
      now apply Hstrict.
    + repeat split; auto; now apply Hw.
Qed.

Lemma MapPages_loop_inv L strict c type :
  forall count pt base memory pt',
    0 <= base ->
    type = Memory \/ (type = Unmapped /\ memory = None) ->
    (strict = true -> type = Memory -> memory <> None) ->
    (forall i, entry_inv L strict pt i) ->
    MapPages_loop L c count pt base memory type = Ok pt' ->
    forall i, entry_inv L strict pt' i.
Proof.
  induction count as [| count IH]; intros pt base memory pt' Hb Hty Hs Hpt Hrun;
    cbn [MapPages_loop] in Hrun.
  - inversion Hrun; now subst.
  - destruct (Z.ltb_spec base PAGE_TABLE_NUM_ENTRIES); [| discriminate].
    eapply IH; [| | | | exact Hrun].
    + apply u32_range.
    + destruct Hty as [-> | [-> ->]]; [now left | now right].
    + intros Hst Hm. specialize (Hs Hst Hm).
      destruct memory; [discriminate | congruence].
    + apply MapPages_entry_inv; auto; lia.
Qed.

Lemma MapPages_inv L R strict t base size memory type s s' :
  0 <= base ->
  type = Memory \/ (type = Unmapped /\ memory = None) ->
  (strict = true -> type = Memory -> memory <> None) ->
  state_inv L strict s ->
  MapPages L R t base size memory type s = Ok (tt, s') ->
  state_inv L strict s'.
Proof.
  intros Hb Hty Hs Hinv Hrun. unfold MapPages in Hrun. run_inv Hrun.
  assert (Hc : same_control s s2).
  { eapply same_control_trans.
    - eapply data_only_log; eauto.
    - eapply data_only_RasterizerFlushVirtualRegion; eauto. }
  inversion Hrun; subst. apply state_inv_updn.
  - eapply state_inv_same_control; eauto.
  - eapply MapPages_loop_inv; [| | | | exact Hlift]; auto.
    intros i. destruct Hc as [-> _]. apply Hinv.
Qed.

Lemma div_page_nonneg x : 0 <= x -> 0 <= x / PAGE_SIZE.
Proof. intros H. rewrite PAGE_SIZE_val. apply Z.div_pos; lia. Qed.

Lemma MapMemoryRegion_inv L R strict t base size target s s' :
  0 <= base ->
  (strict = true -> target <> None) ->
  state_inv L strict s ->
  MapMemoryRegion L R t base size target s = Ok (tt, s') ->
  state_inv L strict s'.
Proof.
  intros Hb Hs Hinv Hrun. unfold MapMemoryRegion in Hrun.
  destruct (negb (Z.land size PAGE_MASK =? 0)); [discriminate |].
  destruct (negb (Z.land base PAGE_MASK =? 0)); [discriminate |].
  eapply MapPages_inv; [| | | exact Hinv | exact Hrun]; auto.
  now apply div_page_nonneg.
Qed.

Lemma UnmapRegion_inv L R strict t base size s s' :
  0 <= base ->
  state_inv L strict s ->
  UnmapRegion L R t base size s = Ok (tt, s') ->
  state_inv L strict s'.
Proof.
  intros Hb Hinv Hrun. unfold UnmapRegion in Hrun.
  destruct (negb (Z.land size PAGE_MASK =? 0)); [discriminate |].
  destruct (negb (Z.land base PAGE_MASK =? 0)); [discriminate |].
  eapply MapPages_inv; [| | | exact Hinv | exact Hrun]; auto.
  - now apply div_page_nonneg.
  - intros _ Hm. discriminate.
Qed.

Lemma mark_page_table_inv L strict cached vaddr pt pt' :
  (layout_ok L = true -> cacheable L vaddr) ->
  (forall i, entry_inv L strict pt i) ->
  mark_page_table L cached vaddr pt = Ok pt' ->
  forall i, entry_inv L strict pt' i.
Proof.
  intros Hv Hpt Hrun i. unfold mark_page_table in Hrun.
  pose proof (Hpt i) as (H2 & H3 & Hsp & H1 & Hw).
  assert (Hwin : layout_ok L = true ->
            0 <= Z.shiftr vaddr PAGE_BITS < PAGE_TABLE_NUM_ENTRIES
            /\ At L (Z.shiftr vaddr PAGE_BITS * PAGE_SIZE) <> None).
  { intros HL. specialize (Hv HL).
    pose proof (cacheable_range _ _ HL Hv) as Hr.
    rewrite shiftr_page, PAGE_SIZE_val, PAGE_TABLE_NUM_ENTRIES_val. split.
    - split; [apply Z.div_pos; lia | apply Z.div_lt_upper_bound; lia].
    - apply At_cacheable.
      apply (proj1 (cacheable_page L vaddr HL ltac:(lia))). exact Hv. }
  destruct cached.
  - destruct (attributes pt (Z.shiftr vaddr PAGE_BITS)) eqn:Ea;
      inversion Hrun; subst; clear Hrun; [apply Hpt |].
    entry_simpl. unfold upd.
    destruct (Z.eqb_spec i (Z.shiftr vaddr PAGE_BITS)) as [-> | Hne].
    + repeat split; intros; try congruence; now apply Hwin.
    + repeat split; auto; now apply Hw.
  - destruct (attributes pt (Z.shiftr vaddr PAGE_BITS)) eqn:Ea;
      try discriminate; [inversion Hrun; subst; apply Hpt |].
    destruct (GetPointerForRasterizerCache L (Z.land vaddr NOT_PAGE_MASK));
      inversion Hrun; subst; clear Hrun.
    entry_simpl. unfold upd.
    destruct (Z.eqb_spec i (Z.shiftr vaddr PAGE_BITS)) as [-> | Hne].
    + repeat split; intros; try congruence; try discriminate.
    + repeat split; auto; now apply Hw.
Qed.

Lemma mark_alias_inv L strict cached vaddr s s' :
  (layout_ok L = true -> cacheable L vaddr) ->
  state_inv L strict s ->
  mark_alias L cached vaddr s = Ok (tt, s') ->
  state_inv L strict s'.
Proof.
  intros Hv Hinv Hrun. unfold mark_alias in Hrun. run_inv Hrun.
  inversion Hrun0; subst; clear Hrun0.
  revert Hrun. apply for_each_inv; [| exact Hinv].
  intros t s1 s2 _ H1 Hm. unfold mark_registered in Hm. run_inv Hm.
  inversion Hm; subst. apply state_inv_updn; auto.
  eapply mark_page_table_inv; [exact Hv | | exact Hlift]. apply H1.
Qed.

Lemma mark_pages_inv L strict cached :
  forall n paddr s s',
    0 <= paddr < 2 ^ 32 ->
    state_inv L strict s ->
    mark_pages L cached n paddr s = Ok (tt, s') ->
    state_inv L strict s'.
Proof.
  induction n as [| n IH]; intros paddr s s' Hp Hinv Hrun;
    cbn [mark_pages] in Hrun.
  - inversion Hrun; now subst.
  - run_inv Hrun. eapply (IH _ s1); [apply u32_range | | exact Hrun].
    revert Hrun1. apply for_each_inv.
    + intros v sa sb Hin Ha. apply mark_alias_inv; auto.
      intros HL. eapply aliases_cacheable; eauto.
    + assert (Hc : same_control s s0).
      { unfold PhysicalToVirtualAddressForRasterizer in Hrun0.
        revert Hrun0.
        repeat match goal with
          | |- context [if ?b then _ else _] => destruct b
          end; intros Hr; inversion Hr; repeat split. }
      eapply state_inv_same_control; eauto.
Qed.

Lemma RasterizerMarkRegionCached_inv L strict start size cached s s' :
  0 <= start < 2 ^ 32 ->
  state_inv L strict s ->
  RasterizerMarkRegionCached L start size cached s = Ok (tt, s') ->
  state_inv L strict s'.
Proof.
  intros Hs Hinv Hrun. unfold RasterizerMarkRegionCached in Hrun.
  destruct (start =? 0).
  - inversion Hrun; now subst.
  - eapply mark_pages_inv; eauto.
Qed.

Lemma exec_inv L R strict o s s' :
  (strict = true -> op_strict o = true) ->
  state_inv L strict s ->
  exec L R o s = Ok (tt, s') ->
  state_inv L strict s'.
Proof.
  intros Hst Hinv Hrun.
  destruct o; cbn [exec] in Hrun.
  - inversion Hrun; subst. exact Hinv.
  - inversion Hrun; subst. exact Hinv.
  - unfold UnregisterPageTable in Hrun.
    destruct (erase_first page_table (page_table_list s)); inversion Hrun.
    exact Hinv.
  - inversion Hrun; subst. exact Hinv.
  - eapply MapMemoryRegion_inv; [apply u32_range | | exact Hinv | exact Hrun].
    intros E. specialize (Hst E). destruct target; [discriminate | discriminate].
  - eapply UnmapRegion_inv; [apply u32_range | exact Hinv | exact Hrun].
  - eapply RasterizerMarkRegionCached_inv;
      [apply u32_range | exact Hinv | exact Hrun].
  - eapply state_inv_same_control; [| exact Hinv].
    eapply data_only_RasterizerFlushVirtualRegion; eauto.
  - eapply state_inv_same_control; [| exact Hinv].
    eapply data_only_bind; [apply data_only_Read | | exact Hrun].
    intros ?; apply data_only_ret.
  - eapply state_inv_same_control; [| exact Hinv].
    eapply data_only_Write; eauto.
  - eapply state_inv_same_control; [| exact Hinv].
    eapply data_only_bind; [apply data_only_ReadBlock_loop | | exact Hrun].
    intros ?; apply data_only_ret.
  - eapply state_inv_same_control; [| exact Hinv].
    eapply data_only_WriteBlock_loop; eauto.
  - eapply state_inv_same_control; [| exact Hinv].
    eapply data_only_ZeroBlock_loop; eauto.
  - eapply state_inv_same_control; [| exact Hinv].
    eapply data_only_CopyBlock_loop; eauto.
  - eapply state_inv_same_control; [| exact Hinv].
    eapply data_only_bind; [apply data_only_ReadCString | | exact Hrun].
    intros ?; apply data_only_ret.
  - eapply state_inv_same_control; [| exact Hinv].
    eapply data_only_bind; [apply data_only_GetPointer | | exact Hrun].
    intros ?; apply data_only_ret.
  - eapply state_inv_same_control; [| exact Hinv].
    eapply data_only_bind; [apply data_only_GetPhysicalPointer | | exact Hrun].
    intros ?; apply data_only_ret.
  - eapply state_inv_same_control; [| exact Hinv].
    eapply data_only_rasterizer_call; eauto.
Qed.

Lemma run_inv_from L R strict :
  forall ops s s',
    (strict = true -> forallb op_strict ops = true) ->
    state_inv L strict s ->
    run L R ops s = Ok (tt, s') ->
    state_inv L strict s'.
Proof.
  induction ops as [| o ops IH]; intros s s' Hst Hinv Hrun;
    unfold run in *; cbn [for_each] in Hrun.
  - inversion Hrun; now subst.
  - apply bind_ok in Hrun. destruct Hrun as ([] & s1 & H1 & H2).
    apply (IH s1 s'); auto.
    + intros E. specialize (Hst E). simpl in Hst.
      now apply andb_prop in Hst.
    + eapply exec_inv; [| exact Hinv | exact H1].
      intros E. specialize (Hst E). simpl in Hst.
      now apply andb_prop in Hst.
Qed.

Lemma runs_state_after L R ops :
  runs L R ops = true ->
  run L R ops initial = Ok (tt, state_after L R ops).
Proof.
  unfold runs, state_after.
  destruct (run L R ops initial) as [[[] s] | |];
    [reflexivity | discriminate | discriminate].
Qed.

Lemma runs_reachable L R ops :
  runs L R ops = true -> reachable L R (state_after L R ops).
Proof. intros H. exists ops. now apply runs_state_after. Qed.

Lemma reachable_inv L R s : reachable L R s -> state_inv L false s.
Proof.
  intros [ops Hrun]. eapply run_inv_from; [| | exact Hrun].
  - discriminate.
  - apply state_inv_initial.
Qed.

(** C1 (as amended): in every state the public operations lead to, each
    entry of each page table satisfies P2 and P3; it satisfies P1 as well
    when no [MapMemoryRegion] of the run was given a null host pointer. *)
Theorem page_table_invariants_reachable :
  forall (L : Layout) (R : Rasterizer) (ops : list Op) (s : MemorySystem),
    run L R ops initial = Ok (tt, s) ->
    forall (t : nat) (i : Z),
      P2 (tables s t) i
      /\ P3 (tables s t) i
      /\ (forallb op_strict ops = true -> P1 (tables s t) i).
Proof.
  intros L R ops s Hrun t i. split; [| split].
  - eapply (run_inv_from L R false); [discriminate | | exact Hrun].
    apply state_inv_initial.
  - eapply (run_inv_from L R false); [discriminate | | exact Hrun].
    apply state_inv_initial.
  - intros Hst.
    assert (Hinv : state_inv L true s).
    { eapply run_inv_from; [| | exact Hrun]; auto. apply state_inv_initial. }
    destruct (Hinv t i) as (_ & _ & _ & H1 & _). now apply H1.
Qed.

Lemma page_table_invariants_reachable_witness :
  P2 (tables (state_after ctr_layout idle_rasterizer vram_page_ops) 0%nat)
     0x1F000
  /\ P3 (tables (state_after ctr_layout idle_rasterizer vram_page_ops) 0%nat)
        0x1F000
  /\ P1 (tables (state_after ctr_layout idle_rasterizer vram_page_ops) 0%nat)
        0x00100.
Proof.
  assert (Hrun : runs ctr_layout idle_rasterizer vram_page_ops = true)
    by (vm_compute; reflexivity).
  pose proof (page_table_invariants_reachable ctr_layout idle_rasterizer
                vram_page_ops
                (state_after ctr_layout idle_rasterizer vram_page_ops)
                (runs_state_after _ _ _ Hrun)) as H.
  split; [apply (H 0%nat 0x1F000) | split; [apply (H 0%nat 0x1F000) |]].
  apply (H 0%nat 0x00100). reflexivity.
Defined.

(** C1 as stated fails: mapping a page with a null host pointer leaves an
    entry with attribute [Memory] and a null pointer. *)
Lemma null_mapping_breaks_P1 :
  ~ (forall s : MemorySystem,
       reachable ctr_layout idle_rasterizer s ->
       forall (t : nat) (i : Z),
         P1 (tables s t) i /\ P2 (tables s t) i /\ P3 (tables s t) i).
Proof.
  intros H.
  assert (Hrun : runs ctr_layout idle_rasterizer null_map_ops = true)
    by (vm_compute; reflexivity).
  destruct (H (state_after ctr_layout idle_rasterizer null_map_ops)
              (runs_reachable _ _ _ Hrun) 0%nat 1) as (H1 & _).
  apply H1; vm_compute; reflexivity.
Qed.

(** ** Host memory *)

Lemma block_eqb_eq a b : block_eqb a b = true <-> a = b.
Proof.
  destruct a, b; simpl; split; intros H; try discriminate; try reflexivity.
  - apply Nat.eqb_eq in H. now subst.
  - inversion H. apply Nat.eqb_refl.
Qed.

Lemma hptr_eqb_eq p q : hptr_eqb p q = true <-> p = q.
Proof.
  destruct p as [b o], q as [b' o']. unfold hptr_eqb. simpl.
  rewrite andb_true_iff, block_eqb_eq, Z.eqb_eq.
  split; [intros [-> ->]; reflexivity | intros H; inversion H; auto].
Qed.

Lemma hptr_eqb_refl p : hptr_eqb p p = true.
Proof. now apply hptr_eqb_eq. Qed.

Lemma hptr_eqb_neq p q : p <> q -> hptr_eqb p q = false.
Proof.
  intros H. destruct (hptr_eqb p q) eqn:E; [| reflexivity].
  apply hptr_eqb_eq in E. contradiction.
Qed.

Lemma ptr_add_add p a b : ptr_add (ptr_add p a) b = ptr_add p (a + b).
Proof. unfold ptr_add. simpl. f_equal. lia. Qed.

Lemma ptr_add_0 p : ptr_add p 0 = p.
Proof. destruct p. unfold ptr_add. simpl. f_equal. lia. Qed.

Lemma ptr_add_inj p a b : ptr_add p a = ptr_add p b -> a = b.
Proof. unfold ptr_add. intros H. inversion H. lia. Qed.

Lemma store_byte_same m p b : store_byte m p b p = Z.land b 255.
Proof. unfold store_byte. now rewrite hptr_eqb_refl. Qed.

Lemma store_byte_other m p q b : q <> p -> store_byte m p b q = m q.
Proof. unfold store_byte. intros H. now rewrite hptr_eqb_neq. Qed.

(** After [memcpy(p, bytes, n)], the byte [k] of the source is at [p + k],
    and everything outside [p .. p + n - 1] is as before. *)
Lemma memcpy_to_inside :
  forall bytes m p k,
    0 <= k < Z.of_nat (length bytes) ->
    memcpy_to m p bytes (ptr_add p k) = Z.land (nth (Z.to_nat k) bytes 0) 255.
Proof.
  induction bytes as [| b bytes IH]; intros m p k Hk; simpl in Hk; [lia |].
  cbn [memcpy_to].
  destruct (Z.eq_dec k 0) as [-> | Hnz].
  - rewrite ptr_add_0. simpl.
    assert (Hout : forall bs m' j, 0 < j ->
              memcpy_to m' (ptr_add p j) bs p = m' p).
    { induction bs as [| c bs IHbs]; intros m' j Hj; simpl; [reflexivity |].
      rewrite ptr_add_add. rewrite IHbs by lia.
      apply store_byte_other. intros E.
      apply (f_equal ofs) in E. simpl in E. lia. }
    rewrite Hout by lia. apply store_byte_same.
  - replace (ptr_add p k) with (ptr_add (ptr_add p 1) (k - 1))
      by (rewrite ptr_add_add; f_equal; lia).
    rewrite IH by lia.
    replace (Z.to_nat k) with (S (Z.to_nat (k - 1))) by lia. reflexivity.
Qed.

Lemma memcpy_to_outside :
  forall bytes m p q,
    (forall k, 0 <= k < Z.of_nat (length bytes) -> q <> ptr_add p k) ->
    memcpy_to m p bytes q = m q.
Proof.
  induction bytes as [| b bytes IH]; intros m p q Hq; simpl; [reflexivity |].
  rewrite IH.
  - apply store_byte_other. intros ->.
    apply (Hq 0); [simpl length; lia | now rewrite ptr_add_0].
  - intros k Hk. rewrite ptr_add_add. apply Hq. simpl length. lia.
Qed.

Lemma memcpy_from_length m : forall n p, length (memcpy_from m p n) = n.
Proof. induction n as [| n IH]; intros p; simpl; [| rewrite IH]; reflexivity. Qed.

Lemma memcpy_from_nth m :
  forall n p k d, (k < n)%nat ->
    nth k (memcpy_from m p n) d = m (ptr_add p (Z.of_nat k)).
Proof.
  induction n as [| n IH]; intros p k d Hk; [lia |].
  destruct k as [| k]; simpl nth.
  - now rewrite ptr_add_0.
  - cbn [memcpy_from nth]. rewrite IH by lia. rewrite ptr_add_add.
    f_equal. f_equal. lia.
Qed.

Lemma memcpy_from_ext m m' :
  forall n p,
    (forall k, 0 <= k < Z.of_nat n -> m (ptr_add p k) = m' (ptr_add p k)) ->
    memcpy_from m p n = memcpy_from m' p n.
Proof.
  induction n as [| n IH]; intros p H; simpl; [reflexivity |].
  f_equal.
  - specialize (H 0). rewrite ptr_add_0 in H. apply H. lia.
  - apply IH. intros k Hk. rewrite ptr_add_add. apply H. lia.
Qed.

(** ** Little-endian values *)

Lemma le_bytes_length : forall n x, length (le_bytes n x) = n.
Proof. induction n as [| n IH]; intros x; simpl; [| rewrite IH]; reflexivity. Qed.

Lemma le_bytes_nth :
  forall n x k, (k < n)%nat ->
    nth k (le_bytes n x) 0 = Z.land (Z.shiftr x (8 * Z.of_nat k)) 255.
Proof.
  induction n as [| n IH]; intros x k Hk; [lia |].
  destruct k as [| k]; cbn [le_bytes nth].
  - now rewrite Z.shiftr_0_r.
  - rewrite IH by lia. rewrite Z.shiftr_shiftr by lia.
    f_equal. f_equal. lia.
Qed.

Lemma le_bytes_byte :
  forall n x k, In k (le_bytes n x) -> Z.land k 255 = k.
Proof.
  induction n as [| n IH]; intros x k Hk; simpl in Hk; [contradiction |].
  destruct Hk as [<- | Hk]; [| eauto].
  rewrite <- Z.land_assoc. reflexivity.
Qed.

Lemma le_value_le_bytes :
  forall n x, le_value (le_bytes n x) = x mod 2 ^ (8 * Z.of_nat n).
Proof.
  induction n as [| n IH]; intros x; cbn [le_bytes le_value].
  - simpl. now rewrite Z.mod_1_r.
  - rewrite IH. change 255 with (Z.ones 8). rewrite Z.land_ones by lia.
    rewrite Z.shiftr_div_pow2 by lia.
    replace (8 * Z.of_nat (S n)) with (8 + 8 * Z.of_nat n) by lia.
    rewrite Z.pow_add_r by lia.
    rewrite Z.rem_mul_r by (try apply Z.pow_pos_nonneg; lia).
    change (2 ^ 8) with 256. reflexivity.
Qed.

Lemma all_land_255 (bs : list Z) :
  (forall b, In b bs -> Z.land b 255 = b) -> map (fun b => Z.land b 255) bs = bs.
Proof.
  induction bs as [| b bs IH]; intros H; simpl; [reflexivity |].
  rewrite H by now left. f_equal. apply IH. intros c Hc. apply H. now right.
Qed.

(** Reading back what [memcpy] has just stored. *)
Lemma memcpy_from_memcpy_to m p bytes :
  memcpy_from (memcpy_to m p bytes) p (length bytes)
  = map (fun b => Z.land b 255) bytes.
Proof.
  apply nth_ext with (d := 0) (d' := Z.land 0 255).
  - now rewrite memcpy_from_length, length_map.
  - intros k Hk. rewrite memcpy_from_length in Hk.
    rewrite memcpy_from_nth by lia.
    rewrite memcpy_to_inside by lia.
    rewrite (map_nth (fun b => Z.land b 255)).
    now rewrite Nat2Z.id.
Qed.

(** ** Typed access on a mapped page *)

(** C9: on a page with a host pointer, [Write32] stores the four bytes of
    the value least significant first, and [Read32] assembles its result
    from the four bytes at the address, least significant first; the value
    0x11223344 is stored as 44 33 22 11. *)
Theorem Write32_Read32_little_endian :
  forall (L : Layout) (R : Rasterizer) (s : MemorySystem) (t : nat)
         (v x : Z) (p : hptr),
    current_page_table s = Some t ->
    pointers (tables s t) (Z.shiftr v PAGE_BITS) = Some p ->
    let q := ptr_add p (Z.land v PAGE_MASK) in
    let s' := with_mem s (memcpy_to (mem s) q (le_bytes 4 x)) in
    Write32 L R v x s = Ok (tt, s')
    /\ (forall k, 0 <= k < 4 ->
        mem s' (ptr_add q k) = Z.land (Z.shiftr x (8 * k)) 255)
    /\ (x = 0x11223344 -> memcpy_from (mem s') q 4 = [0x44; 0x33; 0x22; 0x11])
    /\ Read32 L R v s' = Ok (x mod 2 ^ 32, s')
    /\ Read32 L R v s
       = Ok (mem s q
             + 256 * (mem s (ptr_add q 1)
                      + 256 * (mem s (ptr_add q 2)
                               + 256 * mem s (ptr_add q 3))), s).
Proof.
  intros L R s t v x p Hcur Hptr q s'.
  assert (Hbytes : memcpy_from (mem s') q 4 = le_bytes 4 x).
  { unfold s'. cbn [mem with_mem].
    change 4%nat with (length (le_bytes 4 x)) at 1.
    rewrite memcpy_from_memcpy_to. apply all_land_255.
    apply le_bytes_byte. }
  split; [| split; [| split; [| split]]].
  - unfold Write32, Write, bind, get. rewrite Hcur, Hptr. reflexivity.
  - intros k Hk. unfold s'. cbn [mem with_mem].
    rewrite memcpy_to_inside by (rewrite le_bytes_length; lia).
    rewrite le_bytes_nth by lia. rewrite Z2Nat.id by lia.
    rewrite <- Z.land_assoc. reflexivity.
  - intros ->. rewrite Hbytes. reflexivity.
  - unfold Read32, Read, bind, get. unfold s' at 1 2. cbn [current_page_table
      tables with_mem]. rewrite Hcur, Hptr. unfold ret. fold q.
    rewrite Hbytes, le_value_le_bytes. reflexivity.
  - unfold Read32, Read, bind, get. rewrite Hcur, Hptr. unfold ret. fold q.
    cbn [memcpy_from le_value]. rewrite !ptr_add_add. simpl (1 + 1).
    simpl (2 + 1). rewrite Z.mul_0_r, Z.add_0_r. reflexivity.
Qed.

Lemma Write32_Read32_little_endian_witness :
  Write32 ctr_layout idle_rasterizer 0x00100010 0x11223344
    (state_after ctr_layout idle_rasterizer vram_page_ops)
  = Ok (tt,
        with_mem (state_after ctr_layout idle_rasterizer vram_page_ops)
          (memcpy_to
             (mem (state_after ctr_layout idle_rasterizer vram_page_ops))
             {| blk := HostBuf 0; ofs := 0x10 |} (le_bytes 4 0x11223344))).
Proof.
  apply (Write32_Read32_little_endian ctr_layout idle_rasterizer
           (state_after ctr_layout idle_rasterizer vram_page_ops) 0%nat
           0x00100010 0x11223344 {| blk := HostBuf 0; ofs := 0 |});
    vm_compute; reflexivity.
Defined.

(** ** Block reads *)

Lemma repeat_nth {A : Type} (x d : A) n k : (k < n)%nat -> nth k (repeat x n) d = x.
Proof.
  revert k. induction n as [| n IH]; intros k Hk; [lia |].
  destruct k; simpl; [reflexivity | apply IH; lia].
Qed.

Lemma repeat_app_add {A : Type} (x : A) n m :
  repeat x n ++ repeat x m = repeat x (n + m).
Proof. now rewrite repeat_app. Qed.

(** One page of [ReadBlock]: the chunk has the clipped length, and it is
    all zeros when the page is unmapped. *)
Lemma ReadBlock_page_spec L R process src_addr size pi po ca s chunk s' :
  ReadBlock_page L R process src_addr size pi po ca s = Ok (chunk, s') ->
  same_control s s'
  /\ length chunk = Z.to_nat ca
  /\ (attributes (tables s process) pi = Unmapped ->
      chunk = repeat 0 (Z.to_nat ca)).
Proof.
  intros Hrun. split; [eapply data_only_ReadBlock_page; eauto |].
  unfold ReadBlock_page in Hrun. run_inv Hrun.
  destruct (pi <? PAGE_TABLE_NUM_ENTRIES); [| discriminate].
  destruct (attributes (tables s0 process) pi) eqn:Ea.
  - run_inv Hrun. split; [apply repeat_length | reflexivity].
  - destruct (pointers (tables s0 process) pi); [| discriminate].
    inversion Hrun; subst. split; [apply memcpy_from_length | discriminate].
  - run_inv Hrun. split; [apply memcpy_from_length | discriminate].
  - discriminate.
Qed.

Lemma ReadBlock_page_unmapped L R process src_addr size pi po ca s :
  pi < PAGE_TABLE_NUM_ENTRIES ->
  attributes (tables s process) pi = Unmapped ->
  ReadBlock_page L R process src_addr size pi po ca s
  = Ok (repeat 0 (Z.to_nat ca),
        emit s (LogError "unmapped ReadBlock"
                  [u32 (Z.shiftl pi PAGE_BITS + po); src_addr; size])).
Proof.
  intros Hpi Ha. unfold ReadBlock_page, bind, get.
  apply Z.ltb_lt in Hpi. rewrite Hpi, Ha. reflexivity.
Qed.

Lemma ReadBlock_loop_spec L R process src_addr size :
  forall fuel pi po rem dest s buf s',
    0 <= po < 4096 -> 0 <= rem ->
    ReadBlock_loop L R fuel process src_addr size pi po rem dest s
    = Ok (buf, s') ->
    same_control s s'
    /\ exists tail,
         buf = dest ++ tail
         /\ length tail = Z.to_nat rem
         /\ forall j, 0 <= j < rem ->
              attributes (tables s process) (pi + (po + j) / 4096) = Unmapped ->
              nth (Z.to_nat j) tail 1 = 0.
Proof.
  induction fuel as [| fuel IH]; intros pi po rem dest s buf s' Hpo Hrem Hrun;
    cbn [ReadBlock_loop] in Hrun.
  - destruct (Z.leb_spec rem 0); [| discriminate].
    inversion Hrun; subst. split; [apply same_control_refl |].
    exists []. rewrite app_nil_r. repeat split.
    + replace rem with 0 by lia. reflexivity.
    + intros j Hj. lia.
  - destruct (Z.leb_spec rem 0).
    + inversion Hrun; subst. split; [apply same_control_refl |].
      exists []. rewrite app_nil_r. repeat split.
      * replace rem with 0 by lia. reflexivity.
      * intros j Hj. lia.
    + apply bind_ok in Hrun. destruct Hrun as (chunk & s1 & Hpage & Hrun).
      rewrite PAGE_SIZE_val in *.
      set (ca := Z.min (4096 - po) rem) in *.
      apply ReadBlock_page_spec in Hpage.
      destruct Hpage as (Hc1 & Hlen & Hzero).
      apply IH in Hrun; [| lia | unfold ca; lia].
      destruct Hrun as (Hc2 & tail & -> & Hlt & Htail).
      split; [eapply same_control_trans; eauto |].
      exists (chunk ++ tail). split; [now rewrite app_assoc |]. split.
      * rewrite length_app, Hlen, Hlt. unfold ca. lia.
      * intros j Hj Ha.
        destruct (Z.lt_ge_cases j ca) as [Hlo | Hhi].
        -- rewrite app_nth1 by lia.
           replace ((po + j) / 4096) with 0 in Ha
             by (symmetry; apply Z.div_small; unfold ca in Hlo; lia).
           rewrite Z.add_0_r in Ha. rewrite (Hzero Ha).
           apply repeat_nth. lia.
        -- rewrite app_nth2 by lia. rewrite Hlen.
           replace (Z.to_nat j - Z.to_nat ca)%nat with (Z.to_nat (j - ca))
             by lia.
           apply Htail; [lia |].
           destruct Hc1 as [-> _].
           assert (Eca : ca = 4096 - po) by (unfold ca in *; lia).
           replace (pi + 1 + (0 + (j - ca)) / 4096)
             with (pi + (po + j) / 4096); [exact Ha |].
           replace (po + j) with (1 * 4096 + (j - ca)) by lia.
           rewrite Z.div_add_l by lia. rewrite Z.add_0_l. lia.
Qed.

Lemma ReadBlock_loop_unmapped L R process src_addr size :
  forall fuel pi po rem dest s,
    0 <= po < 4096 -> 0 <= rem <= Z.of_nat fuel ->
    (forall j, 0 <= j < rem ->
       pi + (po + j) / 4096 < PAGE_TABLE_NUM_ENTRIES
       /\ attributes (tables s process) (pi + (po + j) / 4096) = Unmapped) ->
    exists s',
      ReadBlock_loop L R fuel process src_addr size pi po rem dest s
      = Ok (dest ++ repeat 0 (Z.to_nat rem), s')
      /\ same_control s s' /\ mem s' = mem s.
Proof.
  induction fuel as [| fuel IH]; intros pi po rem dest s Hpo Hrem Hall;
    cbn [ReadBlock_loop].
  - destruct (Z.leb_spec rem 0); [| lia].
    exists s. replace rem with 0 by lia. simpl. rewrite app_nil_r.
    repeat split.
  - destruct (Z.leb_spec rem 0).
    + exists s. replace rem with 0 by lia. simpl. rewrite app_nil_r.
      repeat split.
    + rewrite PAGE_SIZE_val. set (ca := Z.min (4096 - po) rem).
      destruct (Hall 0 ltac:(lia)) as [Hlt Ha].
      replace ((po + 0) / 4096) with 0 in Hlt, Ha
        by (symmetry; apply Z.div_small; lia).
      rewrite Z.add_0_r in Hlt, Ha.
      erewrite bind_eq by (apply ReadBlock_page_unmapped; eauto).
      edestruct (IH (pi + 1) 0 (rem - ca)
                   (dest ++ repeat 0 (Z.to_nat ca))
                   (emit s (LogError "unmapped ReadBlock"
                              [u32 (Z.shiftl pi PAGE_BITS + po);
                               src_addr; size])))
        as (s' & Hrun & Hc & Hm);
        [lia | unfold ca; lia | |].
      * intros j Hj. cbn [tables emit].
        assert (Eca : ca = 4096 - po) by (unfold ca in *; lia).
        replace (pi + 1 + (0 + j) / 4096)
          with (pi + (po + (j + ca)) / 4096); [apply Hall; lia |].
        replace (po + (j + ca)) with (1 * 4096 + j) by lia.
        rewrite Z.div_add_l by lia. rewrite Z.add_0_l. lia.
      * exists s'. rewrite Hrun. split; [| split].
        -- rewrite <- app_assoc, repeat_app_add.
           replace (Z.to_nat ca + Z.to_nat (rem - ca))%nat with (Z.to_nat rem)
             by (unfold ca; lia).
           reflexivity.
        -- eapply same_control_trans; [| exact Hc]. repeat split.
        -- rewrite Hm. reflexivity.
Qed.

Lemma page_of_sum a k :
  0 <= a -> 0 <= k -> a / 4096 + (a mod 4096 + k) / 4096 = (a + k) / 4096.
Proof.
  intros Ha Hk.
  rewrite (Z.div_mod a 4096) at 3 by lia.
  replace (4096 * (a / 4096) + a mod 4096 + k)
    with (a / 4096 * 4096 + (a mod 4096 + k)) by lia.
  rewrite Z.div_add_l by lia. reflexivity.
Qed.

(** C2: on a page whose attribute is [Unmapped], [Read] returns 0 and logs
    an error, [Write] only logs an error and leaves host memory as it is,
    and [ReadBlock] fills the part of the destination that belongs to an
    unmapped page with zeros; a transfer that only touches unmapped pages
    returns, and so do the two typed accesses. *)
Theorem unmapped_access_is_harmless :
  forall (L : Layout) (R : Rasterizer) (s : MemorySystem),
    reachable L R s ->
    (forall (t n : nat) (vaddr data : Z),
       current_page_table s = Some t ->
       attributes (tables s t) (Z.shiftr vaddr PAGE_BITS) = Unmapped ->
       Read L R n vaddr s
       = Ok (0, emit s (LogError "unmapped Read" [Z.of_nat n * 8; vaddr]))
       /\ Write L R n vaddr data s
          = Ok (tt, emit s (LogError "unmapped Write"
                              [Z.of_nat n * 8; u32 data; vaddr]))
       /\ mem (emit s (LogError "unmapped Write"
                         [Z.of_nat n * 8; u32 data; vaddr])) = mem s)
    /\ (forall (process : nat) (src_addr size : Z) buf s',
          0 <= src_addr -> 0 <= size ->
          ReadBlock L R process src_addr size s = Ok (buf, s') ->
          length buf = Z.to_nat size
          /\ forall k, 0 <= k < size ->
               attributes (tables s process)
                 (Z.shiftr (src_addr + k) PAGE_BITS) = Unmapped ->
               nth (Z.to_nat k) buf 1 = 0)
    /\ (forall (process : nat) (src_addr size : Z),
          0 <= src_addr -> 0 <= size ->
          (forall k, 0 <= k < size ->
             Z.shiftr (src_addr + k) PAGE_BITS < PAGE_TABLE_NUM_ENTRIES
             /\ attributes (tables s process)
                  (Z.shiftr (src_addr + k) PAGE_BITS) = Unmapped) ->
          exists s',
            ReadBlock L R process src_addr size s
            = Ok (repeat 0 (Z.to_nat size), s')
            /\ same_control s s' /\ mem s' = mem s).
Proof.
  intros L R s Hreach. split; [| split].
  - intros t n vaddr data Hcur Ha.
    destruct (reachable_inv _ _ _ Hreach t (Z.shiftr vaddr PAGE_BITS))
      as (_ & H3 & _).
    specialize (H3 Ha).
    unfold Read, Write, bind, get. rewrite Hcur, H3, Ha. repeat split.
  - intros process src_addr size buf s' Hsrc Hsize Hrun.
    unfold ReadBlock in Hrun. rewrite land_page_mask, shiftr_page in Hrun.
    apply ReadBlock_loop_spec in Hrun;
      [| apply Z.mod_pos_bound; lia | lia].
    destruct Hrun as (_ & tail & -> & Hlen & Htail).
    split; [exact Hlen |]. intros k Hk Ha. simpl.
    apply Htail; [lia |].
    rewrite page_of_sum by lia. now rewrite <- shiftr_page.
  - intros process src_addr size Hsrc Hsize Hall.
    unfold ReadBlock. rewrite land_page_mask, shiftr_page.
    edestruct (ReadBlock_loop_unmapped L R process src_addr size
                 (Z.to_nat size) (src_addr / 4096) (src_addr mod 4096)
                 size [] s) as (s' & Hrun & Hc & Hm).
    + apply Z.mod_pos_bound; lia.
    + lia.
    + intros j Hj. rewrite page_of_sum by lia. rewrite <- shiftr_page.
      apply Hall; lia.
    + exists s'. rewrite Hrun. auto.
Qed.

Lemma unmapped_access_is_harmless_witness :
  Read ctr_layout idle_rasterizer 4 0x00400000
    (state_after ctr_layout idle_rasterizer vram_page_ops)
  = Ok (0, emit (state_after ctr_layout idle_rasterizer vram_page_ops)
             (LogError "unmapped Read" [32; 0x00400000]))
  /\ exists s',
       ReadBlock ctr_layout idle_rasterizer 0 0x00400FFE 4
         (state_after ctr_layout idle_rasterizer vram_page_ops)
       = Ok ([0; 0; 0; 0], s')
       /\ same_control (state_after ctr_layout idle_rasterizer vram_page_ops) s'
       /\ mem s' = mem (state_after ctr_layout idle_rasterizer vram_page_ops).
Proof.
  assert (Hrun : runs ctr_layout idle_rasterizer vram_page_ops = true)
    by (vm_compute; reflexivity).
  destruct (unmapped_access_is_harmless ctr_layout idle_rasterizer
              (state_after ctr_layout idle_rasterizer vram_page_ops)
              (runs_reachable _ _ _ Hrun)) as (H1 & _ & H3).
  split.
  - apply (H1 0%nat 4%nat 0x00400000 0); vm_compute; reflexivity.
  - apply (H3 0%nat 0x00400FFE 4); [lia | lia |].
    intros k Hk.
    assert (E : k = 0 \/ k = 1 \/ k = 2 \/ k = 3) by lia.
    destruct E as [-> | [-> | [-> | ->]]]; split; vm_compute; reflexivity.
Defined.

(** ** The flush dispatcher on a range inside one window *)

Lemma CheckRegion_miss R start end_ mode rs re ps s :
  re <= start \/ end_ <= rs ->
  CheckRegion R start end_ mode rs re ps s = Ok (tt, s).
Proof.
  intros H. unfold CheckRegion.
  destruct (Z.leb_spec re start), (Z.leb_spec end_ rs); simpl;
    try reflexivity; lia.
Qed.

Lemma CheckRegion_hit R start end_ mode rs re ps s :
  rs <= start -> start < end_ -> end_ <= re ->
  CheckRegion R start end_ mode rs re ps s
  = Ok (tt,
        emit (with_mem s
                (rasterizer_effect R mode (u32 (ps + u32 (start - rs)))
                   (u32 (end_ - start)) (mem s)))
          (RasterizerCall mode (u32 (ps + u32 (start - rs)))
             (u32 (end_ - start)))).
Proof.
  intros H1 H2 H3. unfold CheckRegion.
  destruct (Z.leb_spec re start); [lia |].
  destruct (Z.leb_spec end_ rs); [lia |]. simpl.
  rewrite Z.max_l by lia. rewrite Z.min_l by lia. reflexivity.
Qed.

(** A range that stays inside a page of a cacheable window reaches the
    rasterizer exactly once, as its physical image. *)
Lemma RasterizerFlushVirtualRegion_in_page L R v n mode s :
  layout_ok L = true ->
  cacheable L v -> 0 < n -> v mod 4096 + n <= 4096 ->
  RasterizerFlushVirtualRegion L R v n mode s
  = Ok (tt,
        emit (with_mem s
                (rasterizer_effect R mode (physical_image L v) n (mem s)))
          (RasterizerCall mode (physical_image L v) n)).
Proof.
  intros HL Hc Hn Hpage. layout HL.
  pose proof (Z.div_mod v 4096 ltac:(lia)) as Ev.
  pose proof (Z.mod_pos_bound v 4096 ltac:(lia)) as Bv.
  pose proof (Z.div_mod (LINEAR_HEAP_VADDR_END L) 4096 ltac:(lia)).
  pose proof (Z.div_mod (VRAM_VADDR_END L) 4096 ltac:(lia)).
  pose proof (Z.div_mod (NEW_LINEAR_HEAP_VADDR_END L) 4096 ltac:(lia)).
  unfold RasterizerFlushVirtualRegion, physical_image.
  destruct Hc as [Hc | [Hc | Hc]].
  - rewrite (u32_small (v + n)) by lia.
    erewrite bind_eq by (apply CheckRegion_hit; lia).
    erewrite bind_eq by (apply CheckRegion_miss; lia).
    rewrite CheckRegion_miss by lia.
    replace (v + n - v) with n by lia.
    rewrite (u32_small (v - _)), (u32_small n), u32_small by lia.
    bools. reflexivity.
  - rewrite (u32_small (v + n)) by lia.
    erewrite bind_eq by (apply CheckRegion_miss; lia).
    erewrite bind_eq by (apply CheckRegion_miss; lia).
    rewrite CheckRegion_hit by lia.
    replace (v + n - v) with n by lia.
    rewrite (u32_small (v - _)), (u32_small n), u32_small by lia.
    bools. reflexivity.
  - rewrite (u32_small (v + n)) by lia.
    erewrite bind_eq by (apply CheckRegion_miss; lia).
    erewrite bind_eq by (apply CheckRegion_hit; lia).
    rewrite CheckRegion_miss by lia.
    replace (v + n - v) with n by lia.
    rewrite (u32_small (v - _)), (u32_small n), u32_small by lia.
    bools. reflexivity.
Qed.

(** ** Typed access on a rasterizer-cached page *)

(** C4: in a reachable state, a typed access that stays inside a page
    whose attribute is [RasterizerCachedMemory] calls the rasterizer
    exactly once, [Flush] for a read and [Invalidate] for a write, on the
    physical image of the bytes accessed, and then reads from or writes to
    [GetPointerForRasterizerCache(vaddr)]. *)
Theorem cached_access_goes_through_rasterizer :
  forall (L : Layout) (R : Rasterizer) (s : MemorySystem) (t n : nat)
         (vaddr data : Z),
    layout_ok L = true ->
    reachable L R s ->
    current_page_table s = Some t ->
    0 <= vaddr < 2 ^ 32 ->
    (0 < n)%nat ->
    Z.land vaddr PAGE_MASK + Z.of_nat n <= PAGE_SIZE ->
    attributes (tables s t) (Z.shiftr vaddr PAGE_BITS)
    = RasterizerCachedMemory ->
    exists p,
      GetPointerForRasterizerCache L vaddr = Ok p
      /\ (let paddr := physical_image L vaddr in
          let flushed := FlushRegion R paddr (Z.of_nat n) (mem s) in
          Read L R n vaddr s
          = Ok (le_value (memcpy_from flushed p n),
                emit (with_mem s flushed)
                  (RasterizerCall Flush paddr (Z.of_nat n))))
      /\ (let paddr := physical_image L vaddr in
          let invalidated := InvalidateRegion R paddr (Z.of_nat n) (mem s) in
          Write L R n vaddr data s
          = Ok (tt,
                with_mem
                  (emit (with_mem s invalidated)
                     (RasterizerCall Invalidate paddr (Z.of_nat n)))
                  (memcpy_to invalidated p (le_bytes n data)))).
Proof.
  intros L R s t n vaddr data HL Hreach Hcur Hv Hn Hpage Ha.
  destruct (reachable_inv _ _ _ Hreach t (Z.shiftr vaddr PAGE_BITS))
    as (H2 & _ & _ & _ & Hw).
  specialize (H2 Ha). destruct (Hw HL Ha) as [_ Hat].
  apply At_cacheable in Hat.
  rewrite shiftr_page, PAGE_SIZE_val in Hat.
  apply (cacheable_page L vaddr HL) in Hat; [| lia].
  destruct (GetPointerForRasterizerCache_ok L vaddr Hat) as [p Hp].
  rewrite land_page_mask, PAGE_SIZE_val in Hpage.
  exists p. split; [exact Hp |]. split.
  - intros paddr flushed. unfold Read, bind, get. rewrite Hcur, H2, Ha.
    rewrite RasterizerFlushVirtualRegion_in_page by (auto; lia).
    rewrite Hp. reflexivity.
  - intros paddr invalidated. unfold Write, bind, get. rewrite Hcur, H2, Ha.
    rewrite RasterizerFlushVirtualRegion_in_page by (auto; lia).
    rewrite Hp. reflexivity.
Qed.

Lemma cached_access_goes_through_rasterizer_witness :
  exists p,
    GetPointerForRasterizerCache ctr_layout 0x1F000000 = Ok p
    /\ Read ctr_layout stamping_rasterizer 4 0x1F000000
         (state_after ctr_layout stamping_rasterizer vram_page_ops)
       = Ok (le_value
               (memcpy_from
                  (FlushRegion stamping_rasterizer
                     (physical_image ctr_layout 0x1F000000) 4
                     (mem (state_after ctr_layout stamping_rasterizer
                             vram_page_ops))) p 4),
             emit
               (with_mem
                  (state_after ctr_layout stamping_rasterizer vram_page_ops)
                  (FlushRegion stamping_rasterizer
                     (physical_image ctr_layout 0x1F000000) 4
                     (mem (state_after ctr_layout stamping_rasterizer
                             vram_page_ops))))
               (RasterizerCall Flush
                  (physical_image ctr_layout 0x1F000000) 4)).
Proof.
  destruct (cached_access_goes_through_rasterizer ctr_layout
              stamping_rasterizer
              (state_after ctr_layout stamping_rasterizer vram_page_ops)
              0%nat 4%nat 0x1F000000 0xCAFE) as (p & Hp & Hr & _).
  - reflexivity.
  - apply runs_reachable. vm_compute. reflexivity.
  - vm_compute. reflexivity.
  - simpl; lia.
  - lia.
  - vm_compute. discriminate.
  - vm_compute. reflexivity.
  - exists p. split; [exact Hp | exact Hr].
Defined.

(** ** Mapping *)

Lemma CheckRegion_total R start end_ mode rs re ps s :
  exists s', CheckRegion R start end_ mode rs re ps s = Ok (tt, s')
             /\ same_control s s'.
Proof.
  unfold CheckRegion.
  destruct ((re <=? start) || (end_ <=? rs)); eexists; split;
    try reflexivity; repeat split.
Qed.

Lemma RasterizerFlushVirtualRegion_total L R start size mode s :
  exists s', RasterizerFlushVirtualRegion L R start size mode s = Ok (tt, s')
             /\ same_control s s'.
Proof.
  unfold RasterizerFlushVirtualRegion.
  destruct (CheckRegion_total R start (u32 (start + size)) mode
              (LINEAR_HEAP_VADDR L) (LINEAR_HEAP_VADDR_END L) (FCRAM_PADDR L) s)
    as (s1 & H1 & C1).
  destruct (CheckRegion_total R start (u32 (start + size)) mode
              (NEW_LINEAR_HEAP_VADDR L) (NEW_LINEAR_HEAP_VADDR_END L)
              (FCRAM_PADDR L) s1) as (s2 & H2 & C2).
  destruct (CheckRegion_total R start (u32 (start + size)) mode
              (VRAM_VADDR L) (VRAM_VADDR_END L) (VRAM_PADDR L) s2)
    as (s3 & H3 & C3).
  exists s3. rewrite (bind_eq _ _ _ _ _ H1), (bind_eq _ _ _ _ _ H2), H3.
  split; [reflexivity |].
  eapply same_control_trans; [| exact C3].
  eapply same_control_trans; eauto.
Qed.

(** The entries of the table after the loop of [MapPages]. *)
Lemma MapPages_loop_entries L c type :
  forall count pt base memory,
    0 <= base -> base + Z.of_nat count <= PAGE_TABLE_NUM_ENTRIES ->
    exists pt',
      MapPages_loop L c count pt base memory type = Ok pt'
      /\ forall i,
           (base <= i < base + Z.of_nat count ->
            (attributes pt' i, pointers pt' i)
            = mapped_entry L c type memory base i)
           /\ (~ base <= i < base + Z.of_nat count ->
               attributes pt' i = attributes pt i
               /\ pointers pt' i = pointers pt i).
Proof.
  induction count as [| count IH]; intros pt base memory Hb Hend;
    cbn [MapPages_loop].
  - exists pt. split; [reflexivity |]. intros i. split; [lia | auto].
  - rewrite PAGE_TABLE_NUM_ENTRIES_val in *.
    destruct (Z.ltb_spec base 1048576); [| lia].
    rewrite (u32_small (base + 1)) by lia.
    destruct (IH (MapPages_entry L c pt base memory type) (base + 1)
                (option_map (fun p => ptr_add p PAGE_SIZE) memory))
      as (pt' & Hrun & Hent); [lia | lia |].
    exists pt'. split; [exact Hrun |]. intros i.
    destruct (Hent i) as [Hin Hout]. split.
    + intros Hi. destruct (Z.eq_dec i base) as [-> | Hne].
      * destruct Hout as [-> ->]; [lia |].
        unfold MapPages_entry, mapped_entry.
        rewrite (u32_small (base * PAGE_SIZE))
          by (rewrite PAGE_SIZE_val; lia).
        destruct (PageType_eqb type Memory && IsCached L c (base * PAGE_SIZE));
          unfold set_pointer, set_attribute; simpl; rewrite !upd_same;
          [reflexivity |].
        f_equal. destruct memory as [p |]; simpl; [| reflexivity].
        f_equal. replace ((base - base) * PAGE_SIZE) with 0 by lia.
        now rewrite ptr_add_0.
      * rewrite Hin by lia. unfold mapped_entry.
        destruct (PageType_eqb type Memory && IsCached L c (i * PAGE_SIZE));
          [reflexivity |].
        f_equal. destruct memory as [p |]; simpl; [| reflexivity].
        f_equal. rewrite ptr_add_add. f_equal. lia.
    + intros Hi. destruct Hout as [-> ->]; [lia |].
      unfold MapPages_entry.
      destruct (PageType_eqb type Memory
                && IsCached L c (u32 (base * PAGE_SIZE)));
        unfold set_pointer, set_attribute; simpl;
        rewrite !upd_other by lia; auto.
Qed.

(** What [MapPages] does to the state, for a range inside the table. *)
Lemma MapPages_entries L R t base size memory type s :
  0 <= base -> 0 <= size -> base + size <= PAGE_TABLE_NUM_ENTRIES ->
  exists s',
    MapPages L R t base size memory type s = Ok (tt, s')
    /\ cache_marker s' = cache_marker s
    /\ page_table_list s' = page_table_list s
    /\ current_page_table s' = current_page_table s
    /\ (forall u, u <> t -> tables s' u = tables s u)
    /\ forall i,
         (base <= i < base + size ->
          (attributes (tables s' t) i, pointers (tables s' t) i)
          = mapped_entry L (cache_marker s) type memory base i)
         /\ (~ base <= i < base + size ->
             attributes (tables s' t) i = attributes (tables s t) i
             /\ pointers (tables s' t) i = pointers (tables s t) i).
Proof.
  intros Hb Hsz Hend. unfold MapPages.
  rewrite PAGE_TABLE_NUM_ENTRIES_val in Hend.
  set (e := LogDebug _ _).
  destruct (RasterizerFlushVirtualRegion_total L R
              (u32 (Z.shiftl base PAGE_BITS)) (u32 (size * PAGE_SIZE))
              FlushAndInvalidate (emit s e))
    as (s1 & Hflush & (Ht & Hm & Hl & Hcur & _)).
  cbn [tables cache_marker page_table_list current_page_table emit] in *.
  rewrite (u32_small (base + size)) by lia.
  replace (u32 (base + size - base)) with size
    by (rewrite u32_small; lia).
  destruct (MapPages_loop_entries L (cache_marker s1) type (Z.to_nat size)
              (tables s1 t) base memory Hb) as (pt' & Hloop & Hent).
  { rewrite PAGE_TABLE_NUM_ENTRIES_val. lia. }
  exists (with_tables s1 (updn (tables s1) t pt')).
  split.
  { unfold bind at 1. unfold log, modify.
    rewrite (bind_eq _ _ _ _ _ Hflush).
    unfold bind, get, lift. rewrite Hloop. reflexivity. }
  cbn [tables cache_marker page_table_list current_page_table with_tables].
  rewrite updn_same. rewrite Hm in Hent. rewrite Ht in *.
  repeat split; auto.
  - intros u Hu. now rewrite updn_other.
  - intros Hi. apply Hent. lia.
  - apply Hent. lia.
  - apply Hent. lia.
Qed.

(** C7: [MapMemoryRegion] on a page-aligned range inside the address space
    returns, and every page of the range whose bit is set in the cache
    marker gets, in whatever table is being mapped, the attribute
    [RasterizerCachedMemory] and a null pointer; the other pages of the
    range get [Memory] and the host pointer advanced to their page. *)
Theorem MapMemoryRegion_inherits_cached :
  forall (L : Layout) (R : Rasterizer) (s : MemorySystem) (t : nat)
         (base size : Z) (target : option hptr),
    0 <= base -> 0 <= size ->
    Z.land base PAGE_MASK = 0 -> Z.land size PAGE_MASK = 0 ->
    base + size <= 2 ^ 32 ->
    exists s',
      MapMemoryRegion L R t base size target s = Ok (tt, s')
      /\ cache_marker s' = cache_marker s
      /\ forall i,
           base / PAGE_SIZE <= i < (base + size) / PAGE_SIZE ->
           (IsCached L (cache_marker s) (i * PAGE_SIZE) = true ->
            attributes (tables s' t) i = RasterizerCachedMemory
            /\ pointers (tables s' t) i = None)
           /\ (IsCached L (cache_marker s) (i * PAGE_SIZE) = false ->
               attributes (tables s' t) i = Memory
               /\ pointers (tables s' t) i
                  = option_map
                      (fun p => ptr_add p (i * PAGE_SIZE - base)) target).
Proof.
  intros L R s t base size target Hb Hsz Hab Has Hend.
  unfold MapMemoryRegion. rewrite Hab, Has. simpl.
  rewrite land_page_mask in Hab, Has. rewrite PAGE_SIZE_val.
  pose proof (Z.div_mod base 4096 ltac:(lia)) as Eb.
  pose proof (Z.div_mod size 4096 ltac:(lia)) as Es.
  assert (Esum : (base + size) / 4096 = base / 4096 + size / 4096).
  { replace (base + size) with ((base / 4096 + size / 4096) * 4096) by lia.
    now rewrite Z.div_mul by lia. }
  destruct (MapPages_entries L R t (base / 4096) (size / 4096) target Memory s)
    as (s' & Hrun & Hm & _ & _ & _ & Hent).
  { apply Z.div_pos; lia. }
  { apply Z.div_pos; lia. }
  { rewrite PAGE_TABLE_NUM_ENTRIES_val, <- Esum.
    apply Z.div_le_upper_bound; lia. }
  exists s'. split; [exact Hrun |]. split; [exact Hm |].
  intros i Hi. rewrite Esum in Hi.
  destruct (Hent i) as [Hin _]. specialize (Hin Hi).
  unfold mapped_entry in Hin. rewrite PAGE_SIZE_val in Hin. simpl in Hin.
  split; intros Hc; rewrite Hc in Hin; injection Hin as Hattr Hptr;
    (split; [exact Hattr |]); rewrite Hptr; [reflexivity |].
  destruct target as [p |]; simpl; [| reflexivity].
  do 2 f_equal. lia.
Qed.

Lemma MapMemoryRegion_inherits_cached_witness :
  exists s',
    MapMemoryRegion ctr_layout idle_rasterizer 1 0x1F000000 0x1000
      (Some {| blk := Vram; ofs := 0 |})
      (state_after ctr_layout idle_rasterizer vram_page_ops)
    = Ok (tt, s')
    /\ attributes (tables s' 1%nat) 0x1F000 = RasterizerCachedMemory
    /\ pointers (tables s' 1%nat) 0x1F000 = None.
Proof.
  destruct (MapMemoryRegion_inherits_cached ctr_layout idle_rasterizer
              (state_after ctr_layout idle_rasterizer vram_page_ops)
              1%nat 0x1F000000 0x1000 (Some {| blk := Vram; ofs := 0 |}))
    as (s' & Hrun & _ & Hent).
  - lia.
  - lia.
  - reflexivity.
  - reflexivity.
  - simpl; lia.
  - exists s'. split; [exact Hrun |].
    apply (Hent 0x1F000); [| vm_compute; reflexivity].
    split; [vm_compute; discriminate | reflexivity].
Defined.

(** ** RasterizerMarkRegionCached as a sequence of visits *)

Lemma marked_id s : marked s (tables s) (cache_marker s) (trace s) = s.
Proof. now destruct s. Qed.

Lemma PhysicalToVirtualAddressForRasterizer_eq L paddr s :
  PhysicalToVirtualAddressForRasterizer L paddr s
  = Ok (aliases L paddr,
        marked s (tables s) (cache_marker s) (trace s ++ alias_log L paddr)).
Proof.
  unfold aliases, alias_log, PhysicalToVirtualAddressForRasterizer.
  repeat match goal with
    | |- context [if ?b then _ else _] => destruct b
    end; unfold ret, bind, log, modify; simpl;
    rewrite ?app_nil_r, ?marked_id; reflexivity.
Qed.

Lemma apply_touches_app L cached ts1 ts2 tb :
  apply_touches L cached (ts1 ++ ts2) tb
  = match apply_touches L cached ts1 tb with
    | Ok tb1 => apply_touches L cached ts2 tb1
    | Abort why => Abort why
    | OutOfFuel => OutOfFuel
    end.
Proof.
  revert tb. induction ts1 as [| [t v] ts1 IH]; intros tb; simpl;
    [reflexivity |].
  destruct (mark_page_table L cached v (tb t)); auto.
Qed.

Lemma for_each_registered L cached v :
  forall l s,
    for_each l (mark_registered L cached v) s
    = map_result (fun tb => (tt, with_tables s tb))
        (apply_touches L cached (map (fun t => (t, v)) l) (tables s)).
Proof.
  induction l as [| t l IH]; intros s; cbn [for_each map apply_touches].
  - simpl. now destruct s.
  - unfold bind at 1. unfold mark_registered at 1. unfold bind, get, lift, modify.
    destruct (mark_page_table L cached v (tables s t)); simpl;
      [rewrite IH; reflexivity | reflexivity | reflexivity].
Qed.

Lemma mark_alias_eq L cached v s :
  mark_alias L cached v s
  = map_result
      (fun tb => (tt, marked s tb (Mark L (cache_marker s) v cached) (trace s)))
      (apply_touches L cached (map (fun t => (t, v)) (page_table_list s))
         (tables s)).
Proof.
  unfold mark_alias, bind, modify, get. rewrite for_each_registered.
  cbn [tables page_table_list with_marker].
  destruct (apply_touches L cached _ (tables s)); reflexivity.
Qed.

Lemma for_each_alias L cached :
  forall vs s,
    for_each vs (mark_alias L cached) s
    = map_result
        (fun tb => (tt, marked s tb (mark_all L cached vs (cache_marker s))
                          (trace s)))
        (apply_touches L cached (touches (page_table_list s) vs) (tables s)).
Proof.
  induction vs as [| v vs IH]; intros s; cbn [for_each].
  - simpl. now rewrite marked_id.
  - unfold bind. rewrite mark_alias_eq.
    unfold touches. cbn [flat_map]. rewrite apply_touches_app.
    destruct (apply_touches L cached (map (fun t => (t, v)) (page_table_list s))
                (tables s)) as [tb1 | |]; simpl;
      [| reflexivity | reflexivity].
    rewrite IH. reflexivity.
Qed.

Lemma touches_app l vs1 vs2 :
  touches l (vs1 ++ vs2) = touches l vs1 ++ touches l vs2.
Proof. unfold touches. apply flat_map_app. Qed.

Lemma mark_all_app L cached vs1 vs2 c :
  mark_all L cached (vs1 ++ vs2) c
  = mark_all L cached vs2 (mark_all L cached vs1 c).
Proof. unfold mark_all. apply fold_left_app. Qed.

(** The loops of [RasterizerMarkRegionCached] are the visits of
    [touches], the marks of [mark_all] and the log of [alias_logs]. *)
Lemma mark_pages_eq L cached :
  forall n paddr s,
    mark_pages L cached n paddr s
    = map_result
        (fun tb =>
           (tt, marked s tb
                  (mark_all L cached (alias_seq L n paddr) (cache_marker s))
                  (trace s ++ alias_logs L n paddr)))
        (apply_touches L cached
           (touches (page_table_list s) (alias_seq L n paddr)) (tables s)).
Proof.
  induction n as [| n IH]; intros paddr s; cbn [mark_pages alias_seq alias_logs].
  - simpl. now rewrite app_nil_r, marked_id.
  - unfold bind at 1. rewrite PhysicalToVirtualAddressForRasterizer_eq.
    unfold bind. rewrite for_each_alias.
    cbn [tables page_table_list cache_marker trace marked].
    rewrite touches_app, apply_touches_app.
    destruct (apply_touches L cached
                (touches (page_table_list s) (aliases L paddr)) (tables s))
      as [tb1 | |]; simpl; [| reflexivity | reflexivity].
    rewrite IH. cbn [tables page_table_list cache_marker trace marked].
    rewrite mark_all_app, app_assoc.
    destruct (apply_touches L cached _ tb1); reflexivity.
Qed.

(** ** One visit and the transition table *)

Lemma transition_idem L cached i e e1 e2 :
  transition L cached i e = Some e1 ->
  transition L cached i e1 = Some e2 ->
  e2 = e1 /\ e1 = e.
Proof.
  unfold transition. destruct e as [a p], e1 as [a1 p1]. simpl.
  destruct a, cached; try discriminate; intros H1; inversion H1; subst;
    simpl; try discriminate;
    try (intros H2; inversion H2; auto);
    destruct (GetPointerForRasterizerCache L (i * PAGE_SIZE));
    inversion H1; subst; simpl; discriminate.
Qed.

(** [mark_page_table] is the transition table at the page of [vaddr], and
    leaves the other entries alone; it aborts where the table has no case. *)
Lemma mark_page_table_transition L cached v pt :
  0 <= v < 2 ^ 32 ->
  let i := Z.shiftr v PAGE_BITS in
  match mark_page_table L cached v pt with
  | Ok pt' =>
      transition L cached i (attributes pt i, pointers pt i)
      = Some (attributes pt' i, pointers pt' i)
      /\ forall j, j <> i ->
           attributes pt' j = attributes pt j /\ pointers pt' j = pointers pt j
  | _ => transition L cached i (attributes pt i, pointers pt i) = None
  end.
Proof.
  intros Hv i. unfold mark_page_table, transition. fold i. cbn [fst].
  rewrite land_not_page_mask by lia.
  replace (4096 * (v / 4096)) with (i * PAGE_SIZE)
    by (unfold i; rewrite shiftr_page, PAGE_SIZE_val; lia).
  destruct cached, (attributes pt i) eqn:Ea; try reflexivity;
    try (split; [now rewrite Ea | auto]);
    try (unfold set_pointer, set_attribute; simpl; rewrite !upd_same;
         split; [reflexivity | intros j Hj; now rewrite !upd_other]).
  destruct (GetPointerForRasterizerCache L (i * PAGE_SIZE)); try reflexivity.
  unfold set_pointer, set_attribute; simpl; rewrite !upd_same.
  split; [reflexivity | intros j Hj; now rewrite !upd_other].
Qed.

Lemma entry_updn_same tb t pt i :
  entry (updn tb t pt) t i = (attributes pt i, pointers pt i).
Proof. unfold entry. now rewrite updn_same. Qed.

Lemma entry_updn_other tb t u pt i :
  u <> t -> entry (updn tb t pt) u i = entry tb u i.
Proof. intros H. unfold entry. now rewrite updn_other. Qed.

(** What a sequence of visits that does not abort has done to an entry:
    a visited entry has followed the transition table, an entry that was
    not visited is unchanged. *)
Lemma apply_touches_spec L cached :
  forall ts tb tb',
    (forall t v, In (t, v) ts -> 0 <= v < 2 ^ 32) ->
    apply_touches L cached ts tb = Ok tb' ->
    forall t i,
      (entry tb' t i = entry tb t i
       \/ transition L cached i (entry tb t i) = Some (entry tb' t i))
      /\ ((exists v, In (t, v) ts /\ Z.shiftr v PAGE_BITS = i) ->
          transition L cached i (entry tb t i) = Some (entry tb' t i))
      /\ ((forall v, In (t, v) ts -> Z.shiftr v PAGE_BITS <> i) ->
          entry tb' t i = entry tb t i).
Proof.
  induction ts as [| [t0 v0] ts IH]; intros tb tb' Hr Hrun t i;
    cbn [apply_touches] in Hrun.
  - inversion Hrun; subst. split; [now left |]. split; [| reflexivity].
    intros (v & [] & _).
  - pose proof (mark_page_table_transition L cached v0 (tb t0)
                  (Hr t0 v0 (or_introl eq_refl))) as Hstep.
    cbn zeta in Hstep.
    destruct (mark_page_table L cached v0 (tb t0)) as [pt | |];
      try discriminate.
    destruct Hstep as [Htr Hframe].
    specialize (IH _ _ (fun t v H => Hr t v (or_intror H)) Hrun t i).
    destruct IH as (Hweak & Htouched & Huntouched).
    assert (Hhead :
      (t = t0 /\ i = Z.shiftr v0 PAGE_BITS
       /\ transition L cached i (entry tb t i)
          = Some (entry (updn tb t0 pt) t i))
      \/ ((t <> t0 \/ i <> Z.shiftr v0 PAGE_BITS)
          /\ entry (updn tb t0 pt) t i = entry tb t i)).
    { destruct (Nat.eq_dec t t0) as [-> | Ht].
      - destruct (Z.eq_dec i (Z.shiftr v0 PAGE_BITS)) as [-> | Hi].
        + left. repeat split. now rewrite entry_updn_same.
        + right. split; [now right |]. rewrite entry_updn_same.
          unfold entry. destruct (Hframe i Hi) as [-> ->]. reflexivity.
      - right. split; [now left |]. now apply entry_updn_other. }
    assert (Hcompose :
      forall e1, transition L cached i (entry tb t i) = Some e1 ->
                 transition L cached i e1 = Some (entry tb' t i) ->
                 transition L cached i (entry tb t i) = Some (entry tb' t i)).
    { intros e1 H1 H2.
      destruct (transition_idem _ _ _ _ _ _ H1 H2) as [-> _]. exact H1. }
    split; [| split].
    + destruct Hhead as [(_ & _ & Hh) | (_ & Hh)].
      * right. destruct Hweak as [-> | Hw]; [exact Hh | eauto].
      * rewrite Hh in Hweak. exact Hweak.
    + intros (v & Hin & Hv).
      destruct Hhead as [(_ & _ & Hh) | (Hne & Hh)].
      * destruct Hweak as [-> | Hw]; [exact Hh | eauto].
      * rewrite Hh in Htouched. apply Htouched.
        destruct Hin as [E | Hin]; [| eauto].
        inversion E; subst. destruct Hne as [Hne | Hne]; now contradiction Hne.
    + intros Hnot.
      destruct Hhead as [(-> & -> & _) | (_ & Hh)].
      * now contradiction (Hnot v0 (or_introl eq_refl)).
      * rewrite <- Hh. apply Huntouched.
        intros v Hin. apply Hnot. now right.
Qed.

(** Visits of pairwise different entries, each of which is in a case of
    the transition table, do not abort. *)
Lemma apply_touches_total L cached :
  forall ts tb,
    (forall t v, In (t, v) ts ->
       0 <= v < 2 ^ 32
       /\ transition L cached (Z.shiftr v PAGE_BITS)
            (entry tb t (Z.shiftr v PAGE_BITS)) <> None) ->
    NoDup (map (fun tv => (fst tv, Z.shiftr (snd tv) PAGE_BITS)) ts) ->
    exists tb', apply_touches L cached ts tb = Ok tb'.
Proof.
  induction ts as [| [t0 v0] ts IH]; intros tb Hall Hnd;
    cbn [apply_touches].
  - now exists tb.
  - destruct (Hall t0 v0 (or_introl eq_refl)) as [Hv0 Hne].
    pose proof (mark_page_table_transition L cached v0 (tb t0) Hv0) as Hstep.
    cbn zeta in Hstep. unfold entry in Hne.
    destruct (mark_page_table L cached v0 (tb t0)) as [pt | |];
      try contradiction.
    destruct Hstep as [_ Hframe].
    inversion Hnd as [| k ks Hnotin Hnd']; subst.
    apply IH; [| exact Hnd'].
    intros t v Hin. destruct (Hall t v (or_intror Hin)) as [Hv Htr].
    split; [exact Hv |].
    destruct (Nat.eq_dec t t0) as [-> | Ht].
    + rewrite entry_updn_same.
      destruct (Z.eq_dec (Z.shiftr v PAGE_BITS) (Z.shiftr v0 PAGE_BITS))
        as [E | Hi].
      * exfalso. apply Hnotin. simpl. rewrite <- E.
        change (t0, Z.shiftr v PAGE_BITS)
          with ((fun tv : nat * Z => (fst tv, Z.shiftr (snd tv) PAGE_BITS))
                  (t0, v)).
        now apply in_map.
      * destruct (Hframe _ Hi) as [-> ->]. exact Htr.
    + now rewrite entry_updn_other.
Qed.

(** ** Geometry of the aliases *)

(** Quotient and remainder by the page size, for [lia]. *)
Ltac dm x :=
  let H1 := fresh "Hdm" in
  let H2 := fresh "Hdm" in
  pose proof (Z.div_mod x 4096 ltac:(lia)) as H1;
  pose proof (Z.mod_pos_bound x 4096 ltac:(lia)) as H2.

Lemma aliases_cases L p :
  layout_ok L = true -> 0 <= p < 2 ^ 32 ->
  (VRAM_PADDR L <= p < VRAM_PADDR_END L
   /\ aliases L p = [p - VRAM_PADDR L + VRAM_VADDR L])
  \/ (FCRAM_PADDR L <= p < FCRAM_PADDR_END L
      /\ aliases L p = [p - FCRAM_PADDR L + LINEAR_HEAP_VADDR L;
                        p - FCRAM_PADDR L + NEW_LINEAR_HEAP_VADDR L])
  \/ (FCRAM_PADDR_END L <= p < FCRAM_N3DS_PADDR_END L
      /\ aliases L p = [p - FCRAM_PADDR L + NEW_LINEAR_HEAP_VADDR L])
  \/ ((p < VRAM_PADDR L \/ VRAM_PADDR_END L <= p < FCRAM_PADDR L
       \/ FCRAM_N3DS_PADDR_END L <= p)
      /\ aliases L p = []).
Proof.
  intros HL Hp. layout HL.
  unfold aliases, PhysicalToVirtualAddressForRasterizer.
  destruct (Z.leb_spec (VRAM_PADDR L) p), (Z.ltb_spec p (VRAM_PADDR_END L));
    simpl;
    [ left; split; [lia |];
      rewrite (u32_small (p - _)), u32_small by lia; reflexivity | | |];
    (destruct (Z.leb_spec (FCRAM_PADDR L) p),
              (Z.ltb_spec p (FCRAM_PADDR_END L)); simpl;
     [ right; left; split; [lia |];
       rewrite (u32_small (p - _)), !u32_small by lia; reflexivity | | |]);
    (destruct (Z.leb_spec (FCRAM_PADDR_END L) p),
              (Z.ltb_spec p (FCRAM_N3DS_PADDR_END L)); simpl;
     [ right; right; left; split; [lia |];
       rewrite (u32_small (p - _)), u32_small by lia; reflexivity | | |]);
    right; right; right; (split; [lia | reflexivity]).
Qed.

Lemma aliases_in_window L p v :
  layout_ok L = true -> 0 <= p < 2 ^ 32 -> In v (aliases L p) ->
  cacheable L v /\ 0 <= v < 2 ^ 32.
Proof.
  intros HL Hp Hin.
  assert (Hc : cacheable L v).
  { destruct (aliases_cacheable L p initial _ _ HL Hp
                (PhysicalToVirtualAddressForRasterizer_eq L p initial))
      as (_ & _ & H). now apply H. }
  split; [exact Hc | eapply cacheable_range; eauto].
Qed.

(** Two physical addresses of one page have aliases in the same pages. *)
Lemma aliases_same_page L p p' v :
  layout_ok L = true -> 0 <= p < 2 ^ 32 -> 0 <= p' < 2 ^ 32 ->
  p / 4096 = p' / 4096 ->
  In v (aliases L p) ->
  exists v', In v' (aliases L p') /\ v' / 4096 = v / 4096.
Proof.
  intros HL Hp Hp' Hpage Hin. layout HL.
  dm p. dm p'. dm (VRAM_PADDR L). dm (VRAM_PADDR_END L). dm (FCRAM_PADDR L).
  dm (FCRAM_PADDR_END L). dm (FCRAM_N3DS_PADDR_END L).
  dm (VRAM_VADDR L). dm (LINEAR_HEAP_VADDR L). dm (NEW_LINEAR_HEAP_VADDR L).
  assert (Hq : forall a b c, a mod 4096 = 0 -> c mod 4096 = 0 ->
                 (b - a + c) / 4096 = b / 4096 - a / 4096 + c / 4096).
  { intros a b c Ha Hc.
    replace (b - a + c)
      with ((b / 4096 - a / 4096 + c / 4096) * 4096 + b mod 4096).
    - rewrite Z.div_add_l by lia.
      rewrite (Z.div_small (b mod 4096)) by (apply Z.mod_pos_bound; lia). lia.
    - pose proof (Z.div_mod a 4096 ltac:(lia)).
      pose proof (Z.div_mod b 4096 ltac:(lia)).
      pose proof (Z.div_mod c 4096 ltac:(lia)). lia. }
  destruct (aliases_cases L p HL Hp)
    as [[Hr E] | [[Hr E] | [[Hr E] | [Hr E]]]];
    rewrite E in Hin; simpl in Hin;
    destruct (aliases_cases L p' HL Hp')
      as [[Hr' E'] | [[Hr' E'] | [[Hr' E'] | [Hr' E']]]];
    try lia; rewrite E'; simpl;
    repeat (destruct Hin as [<- | Hin]); try contradiction;
    try (eexists; split; [left; reflexivity | rewrite !Hq by lia; lia]);
    try (eexists; split; [right; left; reflexivity | rewrite !Hq by lia; lia]).
Qed.

(** Aliases in the same virtual page come from the same physical page. *)
Lemma alias_page_inj L p p' v v' :
  layout_ok L = true -> 0 <= p < 2 ^ 32 -> 0 <= p' < 2 ^ 32 ->
  In v (aliases L p) -> In v' (aliases L p') ->
  v / 4096 = v' / 4096 -> p / 4096 = p' / 4096.
Proof.
  intros HL Hp Hp' Hin Hin' Hpage. layout HL.
  dm p. dm p'. dm v. dm v'.
  dm (VRAM_PADDR L). dm (FCRAM_PADDR L).
  dm (VRAM_VADDR L). dm (VRAM_VADDR_END L).
  dm (LINEAR_HEAP_VADDR L). dm (LINEAR_HEAP_VADDR_END L).
  dm (NEW_LINEAR_HEAP_VADDR L).
  destruct (aliases_cases L p HL Hp)
    as [[Hr E] | [[Hr E] | [[Hr E] | [Hr E]]]];
    rewrite E in Hin; simpl in Hin;
    destruct (aliases_cases L p' HL Hp')
      as [[Hr' E'] | [[Hr' E'] | [[Hr' E'] | [Hr' E']]]];
    rewrite E' in Hin'; simpl in Hin';
    repeat (destruct Hin as [Ev | Hin]); try contradiction;
    repeat (destruct Hin' as [Ev' | Hin']); try contradiction;
    lia.
Qed.

Lemma aliases_pages_NoDup L p :
  layout_ok L = true -> 0 <= p < 2 ^ 32 ->
  NoDup (map (fun v => v / 4096) (aliases L p)).
Proof.
  intros HL Hp. layout HL.
  destruct (aliases_cases L p HL Hp)
    as [[Hr E] | [[Hr E] | [[Hr E] | [Hr E]]]]; rewrite E; simpl;
    repeat constructor; simpl; try tauto.
  intros [Heq | []].
  set (a := p - FCRAM_PADDR L + LINEAR_HEAP_VADDR L) in *.
  set (b := p - FCRAM_PADDR L + NEW_LINEAR_HEAP_VADDR L) in *.
  dm a. dm b. dm (VRAM_VADDR L). dm (LINEAR_HEAP_VADDR_END L).
  unfold a, b in *. lia.
Qed.

Lemma At_same_page L v v' :
  layout_ok L = true -> 0 <= v -> 0 <= v' ->
  v / 4096 = v' / 4096 -> At L v = At L v'.
Proof.
  intros HL Hv Hv' Hpage. layout HL. unfold At. rewrite PAGE_SIZE_val.
  dm v. dm v'.
  dm (VRAM_VADDR L). dm (VRAM_VADDR_END L).
  dm (LINEAR_HEAP_VADDR L). dm (LINEAR_HEAP_VADDR_END L).
  dm (NEW_LINEAR_HEAP_VADDR L). dm (NEW_LINEAR_HEAP_VADDR_END L).
  assert (Hq : forall a b, a mod 4096 = 0 ->
                 (b - a) / 4096 = b / 4096 - a / 4096).
  { intros a b Ha.
    replace (b - a) with ((b / 4096 - a / 4096) * 4096 + b mod 4096).
    - rewrite Z.div_add_l by lia.
      rewrite (Z.div_small (b mod 4096)) by (apply Z.mod_pos_bound; lia). lia.
    - pose proof (Z.div_mod a 4096 ltac:(lia)).
      pose proof (Z.div_mod b 4096 ltac:(lia)). lia. }
  rewrite !Hq by lia. rewrite Hpage.
  destruct (Z.leb_spec (VRAM_VADDR L) v), (Z.leb_spec (VRAM_VADDR L) v'),
           (Z.ltb_spec v (VRAM_VADDR_END L)),
           (Z.ltb_spec v' (VRAM_VADDR_END L)); simpl; try lia;
    try reflexivity;
    destruct (Z.leb_spec (LINEAR_HEAP_VADDR L) v),
             (Z.leb_spec (LINEAR_HEAP_VADDR L) v'),
             (Z.ltb_spec v (LINEAR_HEAP_VADDR_END L)),
             (Z.ltb_spec v' (LINEAR_HEAP_VADDR_END L)); simpl; try lia;
    try reflexivity;
    destruct (Z.leb_spec (NEW_LINEAR_HEAP_VADDR L) v),
             (Z.leb_spec (NEW_LINEAR_HEAP_VADDR L) v'),
             (Z.ltb_spec v (NEW_LINEAR_HEAP_VADDR_END L)),
             (Z.ltb_spec v' (NEW_LINEAR_HEAP_VADDR_END L)); simpl; try lia;
    reflexivity.
Qed.

(** ** The visits of one call *)

Lemma alias_seq_in L :
  forall n q v,
    0 <= q -> q + 4096 * Z.of_nat n < 2 ^ 32 + 4096 ->
    (In v (alias_seq L n q)
     <-> exists k, 0 <= k < Z.of_nat n /\ In v (aliases L (q + 4096 * k))).
Proof.
  induction n as [| n IH]; intros q v Hq Hn; cbn [alias_seq].
  - split; [intros [] | intros (k & Hk & _); lia].
  - rewrite in_app_iff. rewrite PAGE_SIZE_val. split.
    + intros [Hin | Hin].
      * exists 0. split; [lia |]. now rewrite Z.mul_0_r, Z.add_0_r.
      * destruct n as [| n]; [contradiction |].
        rewrite u32_small in Hin by lia.
        apply IH in Hin; [| lia | lia].
        destruct Hin as (k & Hk & Hin). exists (k + 1). split; [lia |].
        now replace (q + 4096 * (k + 1)) with (q + 4096 + 4096 * k) by lia.
    + intros (k & Hk & Hin).
      destruct (Z.eq_dec k 0) as [-> | Hnz].
      * left. now rewrite Z.mul_0_r, Z.add_0_r in Hin.
      * right. destruct n as [| n]; [lia |].
        rewrite u32_small by lia. apply IH; [lia | lia |].
        exists (k - 1). split; [lia |].
        now replace (q + 4096 + 4096 * (k - 1)) with (q + 4096 * k) by lia.
Qed.

Lemma alias_seq_pages_NoDup L :
  layout_ok L = true ->
  forall n q,
    0 <= q -> q + 4096 * Z.of_nat n < 2 ^ 32 + 4096 ->
    NoDup (map (fun v => v / 4096) (alias_seq L n q)).
Proof.
  intros HL. induction n as [| n IH]; intros q Hq Hn; cbn [alias_seq].
  - constructor.
  - rewrite map_app. rewrite PAGE_SIZE_val.
    destruct n as [| n].
    { cbn [alias_seq map]. rewrite app_nil_r.
      apply aliases_pages_NoDup; auto. lia. }
    rewrite u32_small by lia.
    apply NoDup_app.
    + apply aliases_pages_NoDup; auto. lia.
    + apply IH; lia.
    + intros a Ha Ha'.
      apply in_map_iff in Ha. destruct Ha as (v & <- & Hv).
      apply in_map_iff in Ha'. destruct Ha' as (v' & Epage & Hv').
      apply alias_seq_in in Hv'; [| lia | lia].
      destruct Hv' as (k & Hk & Hv').
      assert (E : (q + 4096 + 4096 * k) / 4096 = q / 4096).
      { apply (alias_page_inj L _ _ v' v); auto; lia. }
      replace (q + 4096 + 4096 * k) with ((k + 1) * 4096 + q) in E by lia.
      rewrite Z.div_add_l in E by lia. lia.
Qed.

Lemma in_touches l vs t v : In (t, v) (touches l vs) <-> In t l /\ In v vs.
Proof.
  unfold touches. rewrite in_flat_map. split.
  - intros (v' & Hv' & Hin). apply in_map_iff in Hin.
    destruct Hin as (t' & E & Ht'). inversion E; subst. auto.
  - intros [Ht Hv]. exists v. split; [exact Hv |].
    apply in_map_iff. now exists t.
Qed.

Lemma touches_keys_NoDup l :
  NoDup l ->
  forall vs,
    NoDup (map (fun v => v / 4096) vs) ->
    NoDup (map (fun tv : nat * Z => (fst tv, Z.shiftr (snd tv) PAGE_BITS))
             (touches l vs)).
Proof.
  intros Hl. induction vs as [| v vs IH]; intros Hvs; [constructor |].
  unfold touches. cbn [flat_map]. fold (touches l vs).
  rewrite map_app, map_map. cbn [fst snd].
  inversion Hvs as [| a b Hnotin Hvs']; subst.
  apply NoDup_app.
  - clear -Hl. induction Hl as [| t l Ht Hl IHl]; simpl; constructor; auto.
    intros Hin. apply in_map_iff in Hin. destruct Hin as (t' & E & Ht').
    inversion E; subst. contradiction.
  - now apply IH.
  - intros [t i] Hin Hin'.
    apply in_map_iff in Hin. destruct Hin as (t1 & E1 & _).
    apply in_map_iff in Hin'. destruct Hin' as ([t2 v2] & E2 & Hin2).
    simpl in E2. inversion E1; subst. inversion E2; subst.
    apply in_touches in Hin2. destruct Hin2 as [_ Hv2].
    apply Hnotin. rewrite !shiftr_page in H1. rewrite <- H1.
    now apply (in_map (fun v => v / 4096)).
Qed.

(** ** The marker after a call *)

Lemma IsCached_Mark_keep L c v v' b :
  IsCached L c v = b -> IsCached L (Mark L c v' b) v = b.
Proof.
  unfold IsCached, Mark.
  destruct (At L v') as [[i' | i' | i'] |], (At L v) as [[i | i | i] |];
    simpl; auto; unfold upd; destruct (i =? i'); auto.
Qed.

Lemma IsCached_Mark_same L c v v' b :
  At L v = At L v' -> At L v <> None -> IsCached L (Mark L c v' b) v = b.
Proof.
  unfold IsCached, Mark. intros <- Hne.
  destruct (At L v) as [[i | i | i] |]; simpl; try contradiction;
    apply upd_same.
Qed.

Lemma mark_all_keep L b :
  forall vs c v, IsCached L c v = b -> IsCached L (mark_all L b vs c) v = b.
Proof.
  induction vs as [| v' vs IH]; intros c v H; simpl; [exact H |].
  apply IH. now apply IsCached_Mark_keep.
Qed.

Lemma mark_all_in L b :
  forall vs c v v',
    In v' vs -> At L v = At L v' -> At L v <> None ->
    IsCached L (mark_all L b vs c) v = b.
Proof.
  induction vs as [| a vs IH]; intros c v v' Hin Hat Hne; [contradiction |].
  simpl. destruct Hin as [-> | Hin].
  - apply mark_all_keep. now apply IsCached_Mark_same.
  - now apply (IH _ _ v').
Qed.

(** The number of turns is the number of pages the range overlaps. *)
Lemma num_pages_of_range start size :
  0 <= start -> 0 < size -> start + size <= 2 ^ 32 ->
  num_pages_of start size = (start + size - 1) / 4096 - start / 4096 + 1.
Proof.
  intros Hs Hsz Hend. unfold num_pages_of. rewrite !shiftr_page.
  assert (E : u32 (u32 (start + size) - 1) = start + size - 1).
  { destruct (Z.eq_dec (start + size) (2 ^ 32)) as [-> | Hne].
    - reflexivity.
    - rewrite (u32_small (start + size)) by lia. apply u32_small. lia. }
  rewrite E.
  assert (start / 4096 <= (start + size - 1) / 4096)
    by (apply Z.div_le_mono; lia).
  assert ((start + size - 1) / 4096 < 1048576)
    by (apply Z.div_lt_upper_bound; lia).
  assert (0 <= start / 4096) by (apply Z.div_pos; lia).
  rewrite (u32_small (_ - _)) by lia. apply u32_small. lia.
Qed.

(** The loop reaches, for every address of the range, an alias of its
    page. *)
Lemma range_alias_visited L start size q v :
  layout_ok L = true ->
  0 <= start -> start + size <= 2 ^ 32 -> start <= q < start + size ->
  In v (aliases L q) ->
  exists v',
    In v' (alias_seq L (Z.to_nat (num_pages_of start size)) start)
    /\ v' / 4096 = v / 4096.
Proof.
  intros HL Hs Hend Hq Hin.
  rewrite num_pages_of_range by lia.
  set (k := q / 4096 - start / 4096).
  assert (Hk0 : 0 <= k) by (unfold k; pose proof (Z.div_le_mono start q 4096); lia).
  assert (Hk1 : q / 4096 <= (start + size - 1) / 4096)
    by (apply Z.div_le_mono; lia).
  dm start. dm q.
  assert (Hpage : (start + 4096 * k) / 4096 = q / 4096).
  { replace (start + 4096 * k) with (k * 4096 + start) by lia.
    rewrite Z.div_add_l by lia. unfold k. lia. }
  assert (Hpk : 0 <= start + 4096 * k < 2 ^ 32).
  { split; [lia |].
    dm (start + 4096 * k). lia. }
  destruct (aliases_same_page L q (start + 4096 * k) v HL) as (v' & Hv' & E);
    auto; try lia.
  exists v'. split; [| exact E].
  assert (Hlast : (start + size - 1) / 4096 < 1048576)
    by (apply Z.div_lt_upper_bound; lia).
  apply alias_seq_in; [lia | | exists k; split; [unfold k; lia | exact Hv']].
  rewrite Z2Nat.id by lia.
  dm (start + size - 1). lia.
Qed.

Lemma visited_alias_in_range L start size v' :
  layout_ok L = true ->
  0 <= start -> 0 < size -> start + size <= 2 ^ 32 ->
  In v' (alias_seq L (Z.to_nat (num_pages_of start size)) start) ->
  0 <= v' < 2 ^ 32
  /\ cacheable L v'
  /\ exists q v,
       start <= q < start + size /\ In v (aliases L q)
       /\ v / 4096 = v' / 4096.
Proof.
  intros HL Hs Hsz Hend Hin.
  rewrite num_pages_of_range in Hin by lia.
  assert (Hmono : start / 4096 <= (start + size - 1) / 4096)
    by (apply Z.div_le_mono; lia).
  assert (Hlast : (start + size - 1) / 4096 < 1048576)
    by (apply Z.div_lt_upper_bound; lia).
  dm start. dm (start + size - 1).
  apply alias_seq_in in Hin; [| lia | rewrite Z2Nat.id by lia; lia].
  destruct Hin as (k & Hk & Hin). rewrite Z2Nat.id in Hk by lia.
  assert (Hpage : (start + 4096 * k) / 4096 = start / 4096 + k).
  { replace (start + 4096 * k) with (k * 4096 + start) by lia.
    rewrite Z.div_add_l by lia. lia. }
  assert (Hpk : 0 <= start + 4096 * k < 2 ^ 32).
  { split; [lia |]. dm (start + 4096 * k). lia. }
  destruct (aliases_in_window L _ _ HL Hpk Hin) as [Hc Hr].
  split; [exact Hr |]. split; [exact Hc |].
  set (q := if k =? 0 then start else 4096 * (start / 4096 + k)).
  assert (Hq : start <= q < start + size /\ q / 4096 = start / 4096 + k).
  { unfold q. destruct (Z.eqb_spec k 0) as [-> | Hnz].
    - split; [lia |]. lia.
    - split; [lia |].
      replace (4096 * (start / 4096 + k)) with ((start / 4096 + k) * 4096)
        by lia.
      apply Z.div_mul. lia. }
  destruct Hq as [Hq Hqp].
  destruct (aliases_same_page L (start + 4096 * k) q v' HL) as (v & Hv & E);
    auto; try lia.
  exists q, v. auto.
Qed.

(** C3: a call with [start = 0] returns the state as it is. For a call
    with [start <> 0] that returns, every virtual alias of every physical
    address of [start, start + size) is then marked with [cached], and in
    every registered page table its entry has followed the transition
    table: [Unmapped] stays as it is; with [cached] set, [Memory] has become
    [RasterizerCachedMemory] with a null pointer; with [cached] clear,
    [RasterizerCachedMemory] has become [Memory] with the pointer
    [GetPointerForRasterizerCache] gives for the page. The call returns
    whenever the registered tables are pairwise different and each entry
    it visits is in one of these three cases. *)
Theorem RasterizerMarkRegionCached_fan_out :
  forall (L : Layout) (s : MemorySystem) (start size : Z) (cached : bool),
    layout_ok L = true ->
    0 <= start < 2 ^ 32 -> 0 <= size -> start + size <= 2 ^ 32 ->
    (start = 0 -> RasterizerMarkRegionCached L start size cached s = Ok (tt, s))
    /\ (start <> 0 ->
        forall s',
          RasterizerMarkRegionCached L start size cached s = Ok (tt, s') ->
          page_table_list s' = page_table_list s
          /\ mem s' = mem s
          /\ forall q v,
            start <= q < start + size -> In v (aliases L q) ->
            IsCached L (cache_marker s') v = cached
            /\ forall t,
                 In t (page_table_list s) ->
                 let i := Z.shiftr v PAGE_BITS in
                 (attributes (tables s t) i = Unmapped ->
                  attributes (tables s' t) i = Unmapped
                  /\ pointers (tables s' t) i = pointers (tables s t) i)
                 /\ (cached = true -> attributes (tables s t) i = Memory ->
                     attributes (tables s' t) i = RasterizerCachedMemory
                     /\ pointers (tables s' t) i = None)
                 /\ (cached = false ->
                     attributes (tables s t) i = RasterizerCachedMemory ->
                     exists p,
                       GetPointerForRasterizerCache L (Z.land v NOT_PAGE_MASK)
                       = Ok p
                       /\ attributes (tables s' t) i = Memory
                       /\ pointers (tables s' t) i = Some p))
    /\ (start <> 0 -> 0 < size ->
        NoDup (page_table_list s) ->
        (forall q v t,
           start <= q < start + size -> In v (aliases L q) ->
           In t (page_table_list s) ->
           let a := attributes (tables s t) (Z.shiftr v PAGE_BITS) in
           a = Unmapped \/ (cached = true /\ a = Memory)
           \/ (cached = false /\ a = RasterizerCachedMemory)) ->
        exists s',
          RasterizerMarkRegionCached L start size cached s = Ok (tt, s')).
Proof.
  intros L s start size cached HL Hs Hsz Hend.
  destruct Hs as [Hs0 Hs1].
  unfold RasterizerMarkRegionCached. split; [| split].
  - intros ->. reflexivity.
  - intros Hnz s' Hrun.
    assert (Hframe : page_table_list s' = page_table_list s /\ mem s' = mem s).
    { destruct (Z.eqb_spec start 0) as [| _]; [contradiction |].
      rewrite mark_pages_eq in Hrun.
      set (n := Z.to_nat (num_pages_of start size)) in Hrun. clearbody n.
      destruct (apply_touches L cached _ (tables s)); try discriminate.
      cbn [map_result] in Hrun. injection Hrun as <-. split; reflexivity. }
    destruct Hframe as [Hf1 Hf2].
    split; [exact Hf1 |]. split; [exact Hf2 |]. clear Hf1 Hf2.
    intros q v Hq Hin.
    destruct (Z.eqb_spec start 0) as [| _]; [contradiction |].
    rewrite mark_pages_eq in Hrun.
    assert (Hsz' : 0 < size) by lia.
    pose proof (range_alias_visited L start size q v HL Hs0 Hend Hq Hin)
      as (v' & Hv' & Epage).
    pose proof (fun u => visited_alias_in_range L start size u HL Hs0 Hsz' Hend)
      as Hvisited.
    set (n := Z.to_nat (num_pages_of start size)) in *. clearbody n.
    destruct (apply_touches L cached
                (touches (page_table_list s) (alias_seq L n start)) (tables s))
      as [tb' | |] eqn:Etouch; try discriminate.
    cbn [map_result] in Hrun. inversion Hrun; subst s'; clear Hrun.
    cbn [cache_marker tables marked].
    assert (Hq' : 0 <= q < 2 ^ 32) by lia.
    destruct (aliases_in_window L q v HL Hq' Hin) as [Hc Hv].
    destruct (Hvisited v' Hv') as (Hr' & _ & _).
    split.
    + apply (mark_all_in L cached _ _ v v' Hv').
      * apply (At_same_page L v v' HL); [lia | lia | now symmetry].
      * now apply At_cacheable.
    + intros t Ht. set (i := Z.shiftr v PAGE_BITS).
      assert (Htr : transition L cached i (entry (tables s) t i)
                    = Some (entry tb' t i)).
      { apply (apply_touches_spec L cached _ _ _
                 (fun t0 v0 H0 =>
                    proj1 (Hvisited v0 (proj2 (proj1 (in_touches _ _ _ _) H0))))
                 Etouch t i).
        exists v'. split; [apply in_touches; split; assumption |].
        unfold i. now rewrite !shiftr_page. }
      unfold transition, entry in Htr. cbn [fst] in Htr.
      assert (Ei : i * PAGE_SIZE = Z.land v NOT_PAGE_MASK).
      { rewrite land_not_page_mask by lia. unfold i.
        rewrite shiftr_page, PAGE_SIZE_val. lia. }
      rewrite Ei in Htr.
      split; [| split].
      * intros Ha. rewrite Ha in Htr. inversion Htr. split; reflexivity.
      * intros -> Ha. rewrite Ha in Htr. inversion Htr. split; reflexivity.
      * intros -> Ha. rewrite Ha in Htr.
        destruct (GetPointerForRasterizerCache L (Z.land v NOT_PAGE_MASK))
          as [p | |]; try discriminate.
        exists p. inversion Htr. repeat split; reflexivity.
  - intros Hnz Hsz' Hnd Hcases.
    destruct (Z.eqb_spec start 0) as [| _]; [contradiction |].
    rewrite mark_pages_eq.
    pose proof (fun u => visited_alias_in_range L start size u HL Hs0 Hsz' Hend)
      as Hvisited.
    assert (Hbound : start + 4096 * Z.of_nat (Z.to_nat (num_pages_of start size))
                     < 2 ^ 32 + 4096).
    { rewrite num_pages_of_range by lia.
      assert (start / 4096 <= (start + size - 1) / 4096)
        by (apply Z.div_le_mono; lia).
      assert ((start + size - 1) / 4096 < 1048576)
        by (apply Z.div_lt_upper_bound; lia).
      rewrite Z2Nat.id by lia. dm start. dm (start + size - 1). lia. }
    set (n := Z.to_nat (num_pages_of start size)) in *. clearbody n.
    destruct (apply_touches_total L cached
                (touches (page_table_list s) (alias_seq L n start)) (tables s))
      as [tb' Htb'].
    + intros t v' Hin. apply in_touches in Hin. destruct Hin as [Ht Hv'].
      destruct (Hvisited v' Hv') as (Hr' & Hc' & q & v & Hq & Hv & Epage).
      split; [exact Hr' |].
      specialize (Hcases q v t Hq Hv Ht). cbn zeta in Hcases.
      replace (Z.shiftr v PAGE_BITS) with (Z.shiftr v' PAGE_BITS) in Hcases
        by (rewrite !shiftr_page; now symmetry).
      unfold transition, entry. cbn [fst].
      destruct Hcases as [-> | [[-> ->] | [-> ->]]]; try discriminate.
      rewrite shiftr_page, PAGE_SIZE_val.
      destruct (GetPointerForRasterizerCache_ok L (v' / 4096 * 4096)) as [p ->];
        [| discriminate].
      apply (cacheable_page L v' HL); [lia | exact Hc'].
    + apply (touches_keys_NoDup _ Hnd).
      apply (alias_seq_pages_NoDup L HL n start Hs0 Hbound).
    + rewrite Htb'. cbn [map_result]. eexists. reflexivity.
Qed.


Lemma RasterizerMarkRegionCached_fan_out_witness :
  IsCached ctr_layout
    (cache_marker (state_after ctr_layout idle_rasterizer vram_page_ops))
    0x1F000000 = true
  /\ attributes (tables (state_after ctr_layout idle_rasterizer vram_page_ops)
                   0%nat) 0x1F000 = RasterizerCachedMemory
  /\ pointers (tables (state_after ctr_layout idle_rasterizer vram_page_ops)
                 0%nat) 0x1F000 = None.
Proof.
  destruct (RasterizerMarkRegionCached_fan_out ctr_layout
              (state_after ctr_layout idle_rasterizer vram_map_ops)
              0x18000000 0x1000 true) as (_ & H & _);
    [reflexivity | simpl; lia | lia | simpl; lia |].
  destruct (H ltac:(lia)
              (state_after ctr_layout idle_rasterizer vram_page_ops))
    as (_ & _ & Hv); [vm_compute; reflexivity |].
  destruct (Hv 0x18000000 0x1F000000) as [Hm Ht];
    [lia | vm_compute; left; reflexivity |].
  split; [exact Hm |].
  destruct (Ht 0%nat) as (_ & Hmem & _); [vm_compute; left; reflexivity |].
  apply Hmem; [reflexivity | vm_compute; reflexivity].
Defined.

(** ** Marking and unmarking a page *)

Lemma alias_aligned L p v :
  layout_ok L = true -> 0 <= p < 2 ^ 32 -> p mod 4096 = 0 ->
  In v (aliases L p) -> v mod 4096 = 0.
Proof.
  intros HL Hp Hal Hin. layout HL.
  assert (Hq : forall a c, a mod 4096 = 0 -> c mod 4096 = 0 ->
                 (p - a + c) mod 4096 = 0).
  { intros a c Ha Hc.
    rewrite Zplus_mod, Zminus_mod, Hal, Ha, Hc. reflexivity. }
  destruct (aliases_cases L p HL Hp)
    as [[Hr E] | [[Hr E] | [[Hr E] | [Hr E]]]];
    rewrite E in Hin; simpl in Hin;
    repeat (destruct Hin as [<- | Hin]); try contradiction;
    apply Hq; assumption.
Qed.

(** C6 (as amended): marking the physical page behind a page that a
    registered table maps as [Memory], and then unmarking it, leaves the
    entry with attribute [Memory] and the pointer
    [GetPointerForRasterizerCache] computes for the page; that is the
    original pointer when the page had been mapped onto its own backing
    store. Both calls return when the registered tables are pairwise
    different and hold [Unmapped] or [Memory] at the aliases of the page. *)
Theorem mark_round_trip_restores_backing_pointer :
  forall (L : Layout) (s : MemorySystem) (t : nat) (paddr v : Z) (p : hptr),
    layout_ok L = true ->
    0 < paddr < 2 ^ 32 -> Z.land paddr PAGE_MASK = 0 ->
    In v (aliases L paddr) ->
    In t (page_table_list s) ->
    attributes (tables s t) (Z.shiftr v PAGE_BITS) = Memory ->
    pointers (tables s t) (Z.shiftr v PAGE_BITS) = Some p ->
    (forall s1 s2,
       RasterizerMarkRegionCached L paddr PAGE_SIZE true s = Ok (tt, s1) ->
       RasterizerMarkRegionCached L paddr PAGE_SIZE false s1 = Ok (tt, s2) ->
       exists p',
         GetPointerForRasterizerCache L v = Ok p'
         /\ attributes (tables s2 t) (Z.shiftr v PAGE_BITS) = Memory
         /\ pointers (tables s2 t) (Z.shiftr v PAGE_BITS) = Some p'
         /\ (p = p' ->
             pointers (tables s2 t) (Z.shiftr v PAGE_BITS)
             = pointers (tables s t) (Z.shiftr v PAGE_BITS)))
    /\ (NoDup (page_table_list s) ->
        (forall u w,
           In u (page_table_list s) -> In w (aliases L paddr) ->
           attributes (tables s u) (Z.shiftr w PAGE_BITS) = Unmapped
           \/ attributes (tables s u) (Z.shiftr w PAGE_BITS) = Memory) ->
        exists s1 s2,
          RasterizerMarkRegionCached L paddr PAGE_SIZE true s = Ok (tt, s1)
          /\ RasterizerMarkRegionCached L paddr PAGE_SIZE false s1
             = Ok (tt, s2)).
Proof.
  intros L s t paddr v p HL Hp Hal Hv Ht Ha Hptr.
  rewrite land_page_mask in Hal.
  assert (Hp0 : 0 <= paddr < 2 ^ 32) by lia.
  assert (Hwin : forall w, In w (aliases L paddr) ->
            0 <= w < 2 ^ 32 /\ cacheable L (Z.shiftr w PAGE_BITS * PAGE_SIZE)).
  { intros w Hw. destruct (aliases_in_window L paddr w HL Hp0 Hw) as [Hc Hr].
    split; [exact Hr |]. rewrite shiftr_page, PAGE_SIZE_val.
    apply (cacheable_page L w HL); [lia | exact Hc]. }
  assert (Hrange : forall (l : list nat) u w,
            In (u, w) (touches l (aliases L paddr)) -> 0 <= w < 2 ^ 32).
  { intros l u w H. apply in_touches in H. apply (Hwin w (proj2 H)). }
  (* each call is the visits of the aliases of the page *)
  assert (Hcall : forall cached s0,
            RasterizerMarkRegionCached L paddr PAGE_SIZE cached s0
            = map_result
                (fun tb =>
                   (tt, marked s0 tb
                          (mark_all L cached (aliases L paddr)
                             (cache_marker s0))
                          (trace s0 ++ alias_log L paddr)))
                (apply_touches L cached
                   (touches (page_table_list s0) (aliases L paddr))
                   (tables s0))).
  { intros cached s0. unfold RasterizerMarkRegionCached.
    destruct (Z.eqb_spec paddr 0) as [| _]; [lia |].
    rewrite PAGE_SIZE_val.
    assert (E1 : num_pages_of paddr 4096 = 1).
    { rewrite num_pages_of_range by (dm paddr; lia).
      replace (paddr + 4096 - 1) with (paddr / 4096 * 4096 + 4095)
        by (dm paddr; lia).
      rewrite Z.div_add_l by lia.
      change (4095 / 4096) with 0. lia. }
    rewrite E1. change (Z.to_nat 1) with 1%nat.
    rewrite mark_pages_eq. cbn [alias_seq alias_logs].
    now rewrite !app_nil_r. }
  split.
  - intros s1 s2 Hrun1 Hrun2.
    rewrite Hcall in Hrun1.
    destruct (apply_touches L true
                (touches (page_table_list s) (aliases L paddr)) (tables s))
      as [tb1 | |] eqn:Htb1; try discriminate.
    cbn [map_result] in Hrun1. injection Hrun1 as <-.
    rewrite Hcall in Hrun2. cbn [page_table_list tables marked] in Hrun2.
    destruct (apply_touches L false
                (touches (page_table_list s) (aliases L paddr)) tb1)
      as [tb2 | |] eqn:Htb2; try discriminate.
    cbn [map_result] in Hrun2. injection Hrun2 as <-.
    cbn [tables marked].
    assert (Hin : In (t, v) (touches (page_table_list s) (aliases L paddr)))
      by (apply in_touches; split; assumption).
    destruct (apply_touches_spec L true _ _ _ (Hrange _) Htb1
                t (Z.shiftr v PAGE_BITS)) as (_ & Ht1 & _).
    specialize (Ht1 (ex_intro _ v (conj Hin eq_refl))).
    destruct (apply_touches_spec L false _ _ _ (Hrange _) Htb2
                t (Z.shiftr v PAGE_BITS)) as (_ & Ht2 & _).
    specialize (Ht2 (ex_intro _ v (conj Hin eq_refl))).
    unfold transition, entry in Ht1, Ht2. cbn [fst] in Ht1, Ht2.
    rewrite Ha in Ht1. injection Ht1 as E1a E1p.
    rewrite <- E1a in Ht2.
    assert (Ev : Z.shiftr v PAGE_BITS * PAGE_SIZE = v).
    { pose proof (alias_aligned L paddr v HL Hp0 Hal Hv).
      rewrite shiftr_page, PAGE_SIZE_val.
      destruct (Hwin v Hv) as [Hr _]. dm v. lia. }
    rewrite Ev in Ht2.
    destruct (GetPointerForRasterizerCache L v) as [p' | |] eqn:Ep';
      try discriminate.
    injection Ht2 as E2a E2p.
    exists p'. repeat split; auto.
    intros ->. now rewrite <- E2p, Hptr.
  - intros Hnd Hattrs.
    assert (Hkeys : NoDup (map (fun tv : nat * Z =>
                                  (fst tv, Z.shiftr (snd tv) PAGE_BITS))
                             (touches (page_table_list s) (aliases L paddr)))).
    { apply (touches_keys_NoDup _ Hnd). now apply aliases_pages_NoDup. }
    destruct (apply_touches_total L true
                (touches (page_table_list s) (aliases L paddr)) (tables s))
      as [tb1 Htb1]; [| exact Hkeys |].
    { intros u w Hin. apply in_touches in Hin. destruct Hin as [Hu Hw].
      split; [apply (Hwin w Hw) |].
      unfold transition, entry. cbn [fst].
      destruct (Hattrs u w Hu Hw) as [-> | ->]; discriminate. }
    pose proof (apply_touches_spec L true _ _ _ (Hrange _) Htb1) as Hspec1.
    destruct (apply_touches_total L false
                (touches (page_table_list s) (aliases L paddr)) tb1)
      as [tb2 Htb2]; [| exact Hkeys |].
    { intros u w Hin. pose proof Hin as Hin'.
      apply in_touches in Hin. destruct Hin as [Hu Hw].
      split; [apply (Hwin w Hw) |].
      destruct (Hspec1 u (Z.shiftr w PAGE_BITS)) as (_ & Htouched & _).
      specialize (Htouched (ex_intro _ w (conj Hin' eq_refl))).
      unfold transition, entry in *. cbn [fst] in *.
      destruct (Hattrs u w Hu Hw) as [E | E]; rewrite E in Htouched;
        injection Htouched as Ea Ep; rewrite <- Ea; [discriminate |].
      destruct (GetPointerForRasterizerCache_ok L _ (proj2 (Hwin w Hw)))
        as [p1 ->].
      discriminate. }
    exists (marked s tb1 (mark_all L true (aliases L paddr) (cache_marker s))
              (trace s ++ alias_log L paddr)).
    eexists.
    split; [rewrite Hcall, Htb1; reflexivity |].
    rewrite Hcall. cbn [page_table_list tables marked]. rewrite Htb2.
    reflexivity.
Qed.

Lemma mark_round_trip_restores_backing_pointer_witness :
  exists s1 s2,
    RasterizerMarkRegionCached ctr_layout 0x18000000 PAGE_SIZE true
      (state_after ctr_layout idle_rasterizer vram_map_ops) = Ok (tt, s1)
    /\ RasterizerMarkRegionCached ctr_layout 0x18000000 PAGE_SIZE false s1
       = Ok (tt, s2)
    /\ attributes (tables s2 0%nat) (Z.shiftr 0x1F000000 PAGE_BITS) = Memory
    /\ pointers (tables s2 0%nat) (Z.shiftr 0x1F000000 PAGE_BITS)
       = Some {| blk := Vram; ofs := 0 |}.
Proof.
  destruct (mark_round_trip_restores_backing_pointer ctr_layout
              (state_after ctr_layout idle_rasterizer vram_map_ops) 0%nat
              0x18000000 0x1F000000 {| blk := Vram; ofs := 0 |})
    as [Hback Hret].
  - reflexivity.
  - simpl; lia.
  - reflexivity.
  - vm_compute. left. reflexivity.
  - vm_compute. left. reflexivity.
  - vm_compute. reflexivity.
  - vm_compute. reflexivity.
  - destruct Hret as (s1 & s2 & Hrun1 & Hrun2).
    + vm_compute. repeat constructor. simpl. tauto.
    + intros u w Hu Hw. vm_compute in Hu, Hw.
      destruct Hu as [<- | []]. destruct Hw as [<- | []].
      right. vm_compute. reflexivity.
    + destruct (Hback s1 s2 Hrun1 Hrun2) as (p' & Hp' & Hattr & Hptr & _).
      exists s1, s2. repeat split; auto.
      vm_compute in Hp'. injection Hp' as <-. exact Hptr.
Defined.

(** C6 as stated fails: a linear-heap page mapped onto a host buffer other
    than FCRAM comes back from the round trip pointing into FCRAM. *)
Lemma round_trip_loses_foreign_pointer :
  ~ (forall (s s1 s2 : MemorySystem) (t : nat) (i paddr : Z) (p : hptr),
       reachable ctr_layout idle_rasterizer s ->
       In t (page_table_list s) ->
       attributes (tables s t) i = Memory ->
       pointers (tables s t) i = Some p ->
       In (i * PAGE_SIZE) (aliases ctr_layout paddr) ->
       RasterizerMarkRegionCached ctr_layout paddr PAGE_SIZE true s
       = Ok (tt, s1) ->
       RasterizerMarkRegionCached ctr_layout paddr PAGE_SIZE false s1
       = Ok (tt, s2) ->
       attributes (tables s2 t) i = Memory
       /\ pointers (tables s2 t) i = Some p).
Proof.
  intros H.
  assert (Hrun : runs ctr_layout idle_rasterizer foreign_map_ops = true)
    by (vm_compute; reflexivity).
  destruct (H (state_after ctr_layout idle_rasterizer foreign_map_ops)
              (state_after ctr_layout idle_rasterizer
                 (foreign_map_ops
                  ++ [OpRasterizerMarkRegionCached 0x20000000 0x1000 true]))
              (state_after ctr_layout idle_rasterizer
                 (foreign_map_ops
                  ++ [OpRasterizerMarkRegionCached 0x20000000 0x1000 true;
                      OpRasterizerMarkRegionCached 0x20000000 0x1000 false]))
              0%nat 0x14000 0x20000000 {| blk := HostBuf 7; ofs := 0 |}
              (runs_reachable _ _ _ Hrun)) as [_ Hp];
    try (vm_compute; reflexivity).
  - vm_compute. left. reflexivity.
  - vm_compute. left. reflexivity.
  - vm_compute in Hp. discriminate.
Qed.

(** ** Block writes *)

Lemma write_bytes_app pt :
  forall xs ys m a,
    write_bytes pt m a (xs ++ ys)
    = write_bytes pt (write_bytes pt m a xs) (a + Z.of_nat (length xs)) ys.
Proof.
  induction xs as [| x xs IH]; intros ys m a.
  - simpl. now rewrite Z.add_0_r.
  - cbn [app write_bytes length]. rewrite IH. f_equal. lia.
Qed.

Lemma page_parts pi po :
  0 <= po < 4096 ->
  Z.shiftr (pi * 4096 + po) PAGE_BITS = pi
  /\ Z.land (pi * 4096 + po) PAGE_MASK = po.
Proof.
  intros Hpo. rewrite shiftr_page, land_page_mask. split.
  - rewrite Z.div_add_l by lia. rewrite Z.div_small by lia. lia.
  - rewrite Z.add_comm, Z.mod_add by lia. now apply Z.mod_small.
Qed.

(** Inside one page with a pointer, storing byte after byte is [memcpy]. *)
Lemma write_bytes_memory_page pt pi p :
  attributes pt pi = Memory -> pointers pt pi = Some p ->
  forall chunk m po,
    0 <= po -> po + Z.of_nat (length chunk) <= 4096 ->
    write_bytes pt m (pi * 4096 + po) chunk
    = memcpy_to m (ptr_add p po) chunk.
Proof.
  intros Ha Hp. induction chunk as [| b chunk IH]; intros m po Hpo Hlen;
    [reflexivity |].
  cbn [write_bytes memcpy_to]. cbn [length] in Hlen.
  unfold block_target.
  destruct (page_parts pi po ltac:(lia)) as [-> ->]. rewrite Ha, Hp.
  replace (pi * 4096 + po + 1) with (pi * 4096 + (po + 1)) by lia.
  rewrite IH by lia. now rewrite ptr_add_add.
Qed.

Lemma write_bytes_no_target pt :
  forall chunk m a,
    (forall j, 0 <= j < Z.of_nat (length chunk) ->
       block_target pt (a + j) = None) ->
    write_bytes pt m a chunk = m.
Proof.
  induction chunk as [| b chunk IH]; intros m a H; [reflexivity |].
  cbn [write_bytes]. cbn [length] in H.
  pose proof (H 0 ltac:(lia)) as H0. rewrite Z.add_0_r in H0. rewrite H0.
  apply IH. intros j Hj.
  replace (a + 1 + j) with (a + (j + 1)) by lia. apply H. lia.
Qed.

Lemma write_bytes_elsewhere pt q :
  forall bytes m a,
    (forall j, 0 <= j < Z.of_nat (length bytes) ->
       block_target pt (a + j) <> Some q) ->
    write_bytes pt m a bytes q = m q.
Proof.
  induction bytes as [| b bytes IH]; intros m a H; [reflexivity |].
  cbn [write_bytes]. cbn [length] in H.
  rewrite IH.
  - pose proof (H 0 ltac:(lia)) as H0. rewrite Z.add_0_r in H0.
    destruct (block_target pt a) as [q' |]; [| reflexivity].
    apply store_byte_other. congruence.
  - intros j Hj. replace (a + 1 + j) with (a + (j + 1)) by lia.
    apply H. lia.
Qed.

(** The byte stored for the guest address [a + k] is found at its host
    location, provided no other address of the block shares the location. *)
Lemma write_bytes_read pt q :
  forall bytes m a k,
    0 <= k < Z.of_nat (length bytes) ->
    block_target pt (a + k) = Some q ->
    (forall j, 0 <= j < Z.of_nat (length bytes) -> j <> k ->
       block_target pt (a + j) <> Some q) ->
    write_bytes pt m a bytes q = Z.land (nth (Z.to_nat k) bytes 0) 255.
Proof.
  induction bytes as [| b bytes IH]; intros m a k Hk Hq Hothers;
    cbn [length] in *; [lia |].
  cbn [write_bytes].
  destruct (Z.eq_dec k 0) as [-> | Hnz].
  - rewrite Z.add_0_r in Hq. rewrite Hq. simpl nth.
    rewrite write_bytes_elsewhere; [apply store_byte_same |].
    intros j Hj. replace (a + 1 + j) with (a + (j + 1)) by lia.
    apply Hothers; lia.
  - replace (Z.to_nat k) with (S (Z.to_nat (k - 1))) by lia. simpl nth.
    apply IH; [lia | |].
    + now replace (a + 1 + (k - 1)) with (a + k) by lia.
    + intros j Hj Hjk. replace (a + 1 + j) with (a + (j + 1)) by lia.
      apply Hothers; lia.
Qed.

(** One page of [WriteBlock], on an unmapped page or on a page with
    attribute [Memory] and a pointer. *)
Lemma WriteBlock_page_spec L R process dest_addr size pi po src ca s :
  let chunk := firstn (Z.to_nat ca) src in
  0 <= po -> po + Z.of_nat (length chunk) <= 4096 ->
  pi < PAGE_TABLE_NUM_ENTRIES ->
  attributes (tables s process) pi = Unmapped
  \/ (attributes (tables s process) pi = Memory
      /\ pointers (tables s process) pi <> None) ->
  exists s',
    WriteBlock_page L R process dest_addr size pi po (Bytes src) ca s
    = Ok (tt, s')
    /\ same_control s s'
    /\ mem s' = write_bytes (tables s process) (mem s) (pi * 4096 + po) chunk.
Proof.
  intros chunk Hpo Hlen Hpi Hattr. unfold WriteBlock_page, bind, get.
  cbn [buffer_read]. fold chunk.
  apply Z.ltb_lt in Hpi. rewrite Hpi.
  destruct Hattr as [Ha | [Ha Hp]]; rewrite Ha.
  - eexists. split; [reflexivity |]. split; [repeat split |].
    cbn [mem emit]. symmetry. apply write_bytes_no_target.
    intros j Hj. unfold block_target.
    replace (pi * 4096 + po + j) with (pi * 4096 + (po + j)) by lia.
    destruct (page_parts pi (po + j) ltac:(lia)) as [-> _].
    now rewrite Ha.
  - destruct (pointers (tables s process) pi) as [p |] eqn:Ep;
      [| contradiction].
    eexists. split; [reflexivity |]. split; [repeat split |].
    cbn [mem with_mem]. symmetry.
    now apply write_bytes_memory_page.
Qed.

Lemma WriteBlock_loop_spec L R process dest_addr size :
  forall fuel pi po src s,
    0 <= po < 4096 ->
    (length src <= fuel)%nat ->
    (forall j, 0 <= j < Z.of_nat (length src) ->
       let i := pi + (po + j) / 4096 in
       i < PAGE_TABLE_NUM_ENTRIES
       /\ (attributes (tables s process) i = Unmapped
           \/ (attributes (tables s process) i = Memory
               /\ pointers (tables s process) i <> None))) ->
    exists s',
      WriteBlock_loop L R fuel process dest_addr size pi po (Bytes src)
        (Z.of_nat (length src)) s = Ok (tt, s')
      /\ same_control s s'
      /\ mem s' = write_bytes (tables s process) (mem s) (pi * 4096 + po) src.
Proof.
  induction fuel as [| fuel IH]; intros pi po src s Hpo Hfuel Hpages;
    cbn [WriteBlock_loop].
  - destruct src; [| simpl in Hfuel; lia].
    exists s. repeat split.
  - destruct (Z.leb_spec (Z.of_nat (length src)) 0).
    + destruct src; [| simpl in *; lia]. exists s. repeat split.
    + rewrite PAGE_SIZE_val.
      set (ca := Z.min (4096 - po) (Z.of_nat (length src))).
      assert (Hca : 0 < ca <= Z.of_nat (length src) /\ ca <= 4096 - po)
        by (unfold ca; lia).
      assert (Hl1 : Z.of_nat (length (firstn (Z.to_nat ca) src)) = ca)
        by (rewrite length_firstn; lia).
      assert (Hl2 : Z.of_nat (length (skipn (Z.to_nat ca) src))
                    = Z.of_nat (length src) - ca)
        by (rewrite length_skipn; lia).
      destruct (Hpages 0 ltac:(lia)) as [Hpi Hattr]. cbn zeta in Hpi, Hattr.
      replace ((po + 0) / 4096) with 0 in Hpi, Hattr
        by (symmetry; apply Z.div_small; lia).
      rewrite Z.add_0_r in Hpi, Hattr.
      destruct (WriteBlock_page_spec L R process dest_addr size pi po
                  src ca s)
        as (s1 & Hrun1 & Hc1 & Hm1); auto; try lia.
      rewrite (bind_eq _ _ _ _ _ Hrun1). cbn [buffer_advance].
      rewrite <- Hl2.
      destruct (IH (pi + 1) 0 (skipn (Z.to_nat ca) src) s1)
        as (s2 & Hrun2 & Hc2 & Hm2).
      * lia.
      * rewrite length_skipn. lia.
      * intros j Hj. cbn zeta. destruct Hc1 as [-> _].
        rewrite Hl2 in Hj.
        assert (Eca : ca = 4096 - po) by lia.
        replace (pi + 1 + (0 + j) / 4096)
          with (pi + (po + (j + ca)) / 4096); [apply Hpages; lia |].
        replace (po + (j + ca)) with (1 * 4096 + j) by lia.
        rewrite Z.div_add_l by lia. rewrite Z.add_0_l. lia.
      * exists s2. split; [exact Hrun2 |].
        split; [eapply same_control_trans; eauto |].
        rewrite Hm2, Hm1. destruct Hc1 as [-> _].
        rewrite <- (firstn_skipn (Z.to_nat ca) src) at 3.
        rewrite write_bytes_app, Hl1.
        destruct (Z.eq_dec ca (4096 - po)) as [Eca | Hne].
        -- f_equal. lia.
        -- assert (Hnil : skipn (Z.to_nat ca) src = []).
           { apply length_zero_iff_nil. lia. }
           rewrite Hnil. reflexivity.
Qed.

(** C8: [WriteBlock] over a range that leaves its first page, on pages
    that are unmapped or have attribute [Memory] and a pointer, returns; it
    treats each page by its own attribute, and its effect on host memory
    is that of storing the source bytes one after the other at the guest
    addresses [v], [v + 1], ... across the page boundaries (bytes for an
    unmapped page are dropped). The byte [k] of the source is then found
    at the host location of [v + k], when no other address of the range
    has the same host location. *)
Theorem WriteBlock_straddles_pages :
  forall (L : Layout) (R : Rasterizer) (s : MemorySystem) (process : nat)
         (v : Z) (src_buffer : list Z),
    0 <= v ->
    Z.land v PAGE_MASK + Z.of_nat (length src_buffer) > PAGE_SIZE ->
    (forall k, 0 <= k < Z.of_nat (length src_buffer) ->
       let i := Z.shiftr (v + k) PAGE_BITS in
       i < PAGE_TABLE_NUM_ENTRIES
       /\ (attributes (tables s process) i = Unmapped
           \/ (attributes (tables s process) i = Memory
               /\ pointers (tables s process) i <> None))) ->
    exists s',
      WriteBlock L R process v (Bytes src_buffer)
        (Z.of_nat (length src_buffer)) s = Ok (tt, s')
      /\ same_control s s'
      /\ mem s' = write_bytes (tables s process) (mem s) v src_buffer
      /\ forall k q,
           0 <= k < Z.of_nat (length src_buffer) ->
           block_target (tables s process) (v + k) = Some q ->
           (forall j, 0 <= j < Z.of_nat (length src_buffer) -> j <> k ->
              block_target (tables s process) (v + j) <> Some q) ->
           mem s' q = Z.land (nth (Z.to_nat k) src_buffer 0) 255.
Proof.
  intros L R s process v src Hv Hstraddle Hpages.
  unfold WriteBlock. rewrite shiftr_page, land_page_mask, Nat2Z.id.
  pose proof (Z.mod_pos_bound v 4096 ltac:(lia)) as Hpo.
  destruct (WriteBlock_loop_spec L R process v (Z.of_nat (length src))
              (length src) (v / 4096) (v mod 4096) src s Hpo (le_n _))
    as (s' & Hrun & Hc & Hm).
  - intros j Hj. cbn zeta. rewrite page_of_sum by lia.
    rewrite <- shiftr_page. now apply Hpages.
  - replace (v / 4096 * 4096 + v mod 4096) with v in Hm
      by (pose proof (Z.div_mod v 4096 ltac:(lia)); lia).
    exists s'. split; [exact Hrun |]. split; [exact Hc |].
    split; [exact Hm |].
    intros k q Hk Hq Hothers. rewrite Hm.
    now apply write_bytes_read.
Qed.

Lemma WriteBlock_straddles_pages_witness :
  exists s',
    WriteBlock ctr_layout idle_rasterizer 0 0x00100FFC
      (Bytes [1; 2; 3; 4; 5; 6; 7; 8]) 8
      (state_after ctr_layout idle_rasterizer vram_map_ops) = Ok (tt, s')
    /\ memcpy_from (mem s') {| blk := HostBuf 0; ofs := 0xFFC |} 8
       = [1; 2; 3; 4; 5; 6; 7; 8].
Proof.
  destruct (WriteBlock_straddles_pages ctr_layout idle_rasterizer
              (state_after ctr_layout idle_rasterizer vram_map_ops) 0%nat
              0x00100FFC [1; 2; 3; 4; 5; 6; 7; 8])
    as (s' & Hrun & _ & Hm & _).
  - lia.
  - vm_compute. reflexivity.
  - intros k Hk. simpl length in Hk.
    assert (E : k = 0 \/ k = 1 \/ k = 2 \/ k = 3
                \/ k = 4 \/ k = 5 \/ k = 6 \/ k = 7) by lia.
    destruct E as [-> | [-> | [-> | [-> | [-> | [-> | [-> | ->]]]]]]];
      (split; [vm_compute; reflexivity |]);
      right; (split; [vm_compute; reflexivity | vm_compute; discriminate]).
  - exists s'. split; [exact Hrun |]. rewrite Hm. vm_compute. reflexivity.
Defined.

(** ** Windows of the address map *)

(** Decides the comparisons of the goal one after the other, dropping the
    cases that contradict the context. *)
Ltac cmp :=
  repeat match goal with
    | |- context [?a <=? ?b] => destruct (Z.leb_spec a b); try lia
    | |- context [?a <? ?b] => destruct (Z.ltb_spec a b); try lia
    | |- context [?a =? ?b] => destruct (Z.eqb_spec a b); try lia
    end;
  cbn [andb orb negb].

Lemma GetPhysicalPointer_window L paddr s :
  layout_ok L = true ->
  (VRAM_PADDR L <= paddr <= VRAM_PADDR_END L ->
   GetPhysicalPointer L paddr s
   = Ok (Some {| blk := Vram; ofs := paddr - VRAM_PADDR L |}, s))
  /\ (FCRAM_PADDR L <= paddr <= FCRAM_N3DS_PADDR_END L ->
      GetPhysicalPointer L paddr s
      = Ok (Some {| blk := Fcram; ofs := paddr - FCRAM_PADDR L |}, s)).
Proof.
  intros HL. layout HL. unfold GetPhysicalPointer.
  split; intros Hp; cmp; unfold ret; now rewrite u32_small by lia.
Qed.

Lemma GetPointerForRasterizerCache_window L v :
  layout_ok L = true ->
  (LINEAR_HEAP_VADDR L <= v < LINEAR_HEAP_VADDR_END L ->
   GetPointerForRasterizerCache L v
   = Ok {| blk := Fcram; ofs := v - LINEAR_HEAP_VADDR L |})
  /\ (NEW_LINEAR_HEAP_VADDR L <= v < NEW_LINEAR_HEAP_VADDR_END L ->
      GetPointerForRasterizerCache L v
      = Ok {| blk := Fcram; ofs := v - NEW_LINEAR_HEAP_VADDR L |})
  /\ (VRAM_VADDR L <= v < VRAM_VADDR_END L ->
      GetPointerForRasterizerCache L v
      = Ok {| blk := Vram; ofs := v - VRAM_VADDR L |}).
Proof.
  intros HL. layout HL. unfold GetPointerForRasterizerCache.
  repeat split; intros Hv; cmp; now rewrite u32_small by lia.
Qed.

(** ** FCRAM offsets *)

(** X1: [GetFCRAMPointer] and [GetFCRAMOffset] are inverse to each other on
    the offsets up to the size of FCRAM, and the offset of the pointer that
    [GetPhysicalPointer] gives for a physical address of the FCRAM window
    is the distance of the address from [FCRAM_PADDR]. *)
Theorem GetFCRAMOffset_GetFCRAMPointer_round_trip :
  forall (L : Layout) (size : Z),
    layout_ok L = true ->
    size = FCRAM_N3DS_PADDR_END L - FCRAM_PADDR L ->
    (forall offset, 0 <= offset <= size ->
       exists p, GetFCRAMPointer size offset = Ok p
                 /\ GetFCRAMOffset size p = Ok offset)
    /\ (forall p, blk p = Fcram -> 0 <= ofs p <= size ->
          GetFCRAMOffset size p = Ok (ofs p)
          /\ GetFCRAMPointer size (ofs p) = Ok p)
    /\ (forall paddr s,
          FCRAM_PADDR L <= paddr <= FCRAM_N3DS_PADDR_END L ->
          exists p,
            GetPhysicalPointer L paddr s = Ok (Some p, s)
            /\ GetFCRAMOffset size p = Ok (paddr - FCRAM_PADDR L)).
Proof.
  intros L size HL ->. layout HL. split; [| split].
  - intros offset Ho. unfold GetFCRAMPointer, GetFCRAMOffset.
    destruct (Z.leb_spec offset (FCRAM_N3DS_PADDR_END L - FCRAM_PADDR L));
      [| lia].
    eexists. split; [reflexivity |]. cbn [blk ofs block_eqb andb].
    destruct (Z.leb_spec 0 offset); [| lia].
    destruct (Z.leb_spec offset (FCRAM_N3DS_PADDR_END L - FCRAM_PADDR L));
      [| lia].
    now rewrite u32_small by lia.
  - intros [b o] Hb Ho. cbn [blk ofs] in *. subst b.
    unfold GetFCRAMOffset, GetFCRAMPointer. cbn [blk ofs block_eqb andb].
    destruct (Z.leb_spec 0 o); [| lia].
    destruct (Z.leb_spec o (FCRAM_N3DS_PADDR_END L - FCRAM_PADDR L));
      [| lia].
    now rewrite u32_small by lia.
  - intros paddr s Hp.
    destruct (GetPhysicalPointer_window L paddr s HL) as [_ ->]; [| exact Hp].
    eexists. split; [reflexivity |].
    unfold GetFCRAMOffset. cbn [blk ofs block_eqb andb].
    destruct (Z.leb_spec 0 (paddr - FCRAM_PADDR L)); [| lia].
    destruct (Z.leb_spec (paddr - FCRAM_PADDR L)
                (FCRAM_N3DS_PADDR_END L - FCRAM_PADDR L)); [| lia].
    now rewrite u32_small by lia.
Qed.

Lemma GetFCRAMOffset_GetFCRAMPointer_round_trip_witness :
  exists p,
    GetPhysicalPointer ctr_layout 0x20001234 initial = Ok (Some p, initial)
    /\ GetFCRAMOffset 0x10000000 p = Ok 0x1234.
Proof.
  destruct (GetFCRAMOffset_GetFCRAMPointer_round_trip ctr_layout 0x10000000
              eq_refl eq_refl) as (_ & _ & H).
  apply (H 0x20001234 initial). simpl. lia.
Defined.

(** ** The cache marker *)

Lemma window_page_index a b :
  a mod 4096 = 0 -> (b - a) / 4096 = b / 4096 - a / 4096.
Proof.
  intros Ha.
  replace (b - a) with ((b / 4096 - a / 4096) * 4096 + b mod 4096).
  - rewrite Z.div_add_l by lia.
    rewrite (Z.div_small (b mod 4096)) by (apply Z.mod_pos_bound; lia). lia.
  - pose proof (Z.div_mod a 4096 ltac:(lia)).
    pose proof (Z.div_mod b 4096 ltac:(lia)). lia.
Qed.

(** Two addresses with the same marker element lie in the same page. *)
Lemma At_page_inj L v v' :
  layout_ok L = true ->
  At L v = At L v' -> At L v <> None -> v / 4096 = v' / 4096.
Proof.
  intros HL. layout HL. unfold At. rewrite PAGE_SIZE_val.
  rewrite !window_page_index by assumption.
  destruct ((VRAM_VADDR L <=? v) && (v <? VRAM_VADDR_END L));
    [| destruct ((LINEAR_HEAP_VADDR L <=? v)
                 && (v <? LINEAR_HEAP_VADDR_END L));
       [| destruct ((NEW_LINEAR_HEAP_VADDR L <=? v)
                    && (v <? NEW_LINEAR_HEAP_VADDR_END L))]];
    (destruct ((VRAM_VADDR L <=? v') && (v' <? VRAM_VADDR_END L));
     [| destruct ((LINEAR_HEAP_VADDR L <=? v')
                  && (v' <? LINEAR_HEAP_VADDR_END L));
        [| destruct ((NEW_LINEAR_HEAP_VADDR L <=? v')
                     && (v' <? NEW_LINEAR_HEAP_VADDR_END L))]]);
    intros E Hne; try discriminate; try (now contradiction Hne);
    injection E as E; lia.
Qed.

(** Marking a page leaves the bits of the other pages alone. *)
Lemma IsCached_Mark_other L c v v' b :
  At L v <> At L v' -> IsCached L (Mark L c v' b) v = IsCached L c v.
Proof.
  unfold IsCached, Mark. intros Hne.
  destruct (At L v') as [[i' | i' | i'] |], (At L v) as [[i | i | i] |];
    simpl; auto; unfold upd; destruct (Z.eqb_spec i i'); auto;
    subst; now contradiction Hne.
Qed.

(** X2: the marker works page by page. After [Mark(a, b)] on an address of
    a cacheable window, [IsCached] answers [b] on every address of the page
    of [a], and what it answered before on the addresses of the other
    pages; outside the three windows [Mark] does nothing and [IsCached] is
    false. *)
Theorem Mark_IsCached_page_granular :
  forall (L : Layout) (c : RasterizerCacheMarker) (a a' : Z) (b : bool),
    layout_ok L = true -> 0 <= a -> 0 <= a' ->
    (cacheable L a -> a' / PAGE_SIZE = a / PAGE_SIZE ->
     IsCached L (Mark L c a b) a' = b)
    /\ (a' / PAGE_SIZE <> a / PAGE_SIZE ->
        IsCached L (Mark L c a b) a' = IsCached L c a')
    /\ (~ cacheable L a -> Mark L c a b = c /\ IsCached L c a = false).
Proof.
  intros L c a a' b HL Ha Ha'. rewrite PAGE_SIZE_val. split; [| split].
  - intros Hc Hpage.
    assert (Hat : At L a' = At L a) by now apply At_same_page.
    apply IsCached_Mark_same; [exact Hat |].
    rewrite Hat. now apply At_cacheable.
  - intros Hpage.
    destruct (At L a') as [slot |] eqn:Eat.
    + apply IsCached_Mark_other. rewrite Eat. intros E.
      apply Hpage. apply (At_page_inj L a' a HL); rewrite Eat; congruence.
    + unfold IsCached at 1. unfold IsCached. now rewrite Eat.
  - intros Hc.
    assert (Hat : At L a = None).
    { destruct (At L a) eqn:E; [| reflexivity].
      exfalso. apply Hc. apply At_cacheable. congruence. }
    unfold Mark, IsCached. now rewrite Hat.
Qed.

Lemma Mark_IsCached_page_granular_witness :
  IsCached ctr_layout (Mark ctr_layout empty_marker 0x1F000010 true) 0x1F000FFF
  = true
  /\ IsCached ctr_layout (Mark ctr_layout empty_marker 0x1F000010 true)
       0x1F001000
     = IsCached ctr_layout empty_marker 0x1F001000.
Proof.
  destruct (Mark_IsCached_page_granular ctr_layout empty_marker
              0x1F000010 0x1F000FFF true eq_refl) as (H1 & _ & _);
    [lia | lia |].
  destruct (Mark_IsCached_page_granular ctr_layout empty_marker
              0x1F000010 0x1F001000 true eq_refl) as (_ & H2 & _);
    [lia | lia |].
  split.
  - apply H1; [unfold cacheable; simpl; lia | reflexivity].
  - apply H2. vm_compute. discriminate.
Defined.

(** ** The list of registered page tables *)





(** ** Mapping and unmapping *)

(** A range of pages that runs past the last entry of the table stops
    [MapPages] at its assertion. *)
Lemma MapPages_loop_overrun L c type :
  forall count pt base memory,
    0 <= base <= PAGE_TABLE_NUM_ENTRIES ->
    base + Z.of_nat count > PAGE_TABLE_NUM_ENTRIES ->
    MapPages_loop L c count pt base memory type = Abort "out of range mapping".
Proof.
  induction count as [| count IH]; intros pt base memory Hb Hover;
    cbn [MapPages_loop].
  - lia.
  - rewrite PAGE_TABLE_NUM_ENTRIES_val in *.
    destruct (Z.ltb_spec base 1048576); [| reflexivity].
    rewrite (u32_small (base + 1)) by lia.
    apply IH; rewrite ?PAGE_TABLE_NUM_ENTRIES_val; lia.
Qed.

Lemma MapPages_overrun L R t base size memory type s :
  0 <= base <= PAGE_TABLE_NUM_ENTRIES -> 0 <= size <= PAGE_TABLE_NUM_ENTRIES ->
  base + size > PAGE_TABLE_NUM_ENTRIES ->
  MapPages L R t base size memory type s = Abort "out of range mapping".
Proof.
  intros Hb Hsz Hover. unfold MapPages.
  rewrite PAGE_TABLE_NUM_ENTRIES_val in *.
  set (e := LogDebug _ _).
  destruct (RasterizerFlushVirtualRegion_total L R
              (u32 (Z.shiftl base PAGE_BITS)) (u32 (size * PAGE_SIZE))
              FlushAndInvalidate (emit s e)) as (s1 & Hflush & _).
  unfold bind at 1. unfold log, modify.
  rewrite (bind_eq _ _ _ _ _ Hflush).
  unfold bind, get, lift.
  rewrite (u32_small (base + size)) by lia.
  replace (u32 (base + size - base)) with size by (rewrite u32_small; lia).
  rewrite MapPages_loop_overrun;
    rewrite ?PAGE_TABLE_NUM_ENTRIES_val; [reflexivity | lia | lia].
Qed.

Lemma aligned_sum_pages base size :
  0 <= base -> 0 <= size -> base mod 4096 = 0 -> size mod 4096 = 0 ->
  (base + size) / 4096 = base / 4096 + size / 4096.
Proof.
  intros Hb Hs Eb Es.
  pose proof (Z.div_mod base 4096 ltac:(lia)).
  pose proof (Z.div_mod size 4096 ltac:(lia)).
  replace (base + size) with ((base / 4096 + size / 4096) * 4096) by lia.
  now rewrite Z.div_mul by lia.
Qed.

(** X4: [MapMemoryRegion] and [UnmapRegion] return exactly when the base
    and the size are page aligned and the range ends inside the 32-bit
    address space; otherwise one of the assertions ends the run. *)
Theorem MapMemoryRegion_returns_iff_aligned_in_range :
  forall (L : Layout) (R : Rasterizer) (s : MemorySystem) (t : nat)
         (base size : Z) (target : option hptr),
    0 <= base < 2 ^ 32 -> 0 <= size < 2 ^ 32 ->
    ((exists s', MapMemoryRegion L R t base size target s = Ok (tt, s'))
     <-> (Z.land base PAGE_MASK = 0 /\ Z.land size PAGE_MASK = 0
          /\ base + size <= 2 ^ 32))
    /\ ((exists s', UnmapRegion L R t base size s = Ok (tt, s'))
        <-> (Z.land base PAGE_MASK = 0 /\ Z.land size PAGE_MASK = 0
             /\ base + size <= 2 ^ 32)).
Proof.
  intros L R s t base size target Hb Hs.
  assert (Hpages : forall memory type,
            (exists s', MapPages L R t (base / PAGE_SIZE) (size / PAGE_SIZE)
                          memory type s = Ok (tt, s'))
            <-> (base / 4096 + size / 4096 <= 1048576)).
  { intros memory type. rewrite PAGE_SIZE_val.
    assert (0 <= base / 4096 < 1048576)
      by (split; [apply Z.div_pos | apply Z.div_lt_upper_bound]; lia).
    assert (0 <= size / 4096 < 1048576)
      by (split; [apply Z.div_pos | apply Z.div_lt_upper_bound]; lia).
    split.
    - intros [s' Hrun].
      destruct (Z.le_gt_cases (base / 4096 + size / 4096) 1048576) as [| Hover];
        [assumption |].
      rewrite MapPages_overrun in Hrun
        by (rewrite ?PAGE_TABLE_NUM_ENTRIES_val; lia).
      discriminate.
    - intros Hin.
      destruct (MapPages_entries L R t (base / 4096) (size / 4096) memory
                  type s) as (s' & Hrun & _);
        rewrite ?PAGE_TABLE_NUM_ENTRIES_val; try lia.
      now exists s'. }
  assert (Hal : forall x, (negb (Z.land x PAGE_MASK =? 0) = false)
                          <-> Z.land x PAGE_MASK = 0).
  { intros x. destruct (Z.eqb_spec (Z.land x PAGE_MASK) 0); simpl;
      split; intros; congruence. }
  assert (Hend : Z.land base PAGE_MASK = 0 -> Z.land size PAGE_MASK = 0 ->
                 (base / 4096 + size / 4096 <= 1048576
                  <-> base + size <= 2 ^ 32)).
  { rewrite !land_page_mask. intros Eb Es.
    rewrite <- aligned_sum_pages by lia.
    pose proof (Z.div_mod (base + size) 4096 ltac:(lia)).
    assert ((base + size) mod 4096 = 0)
      by (rewrite Zplus_mod, Eb, Es; reflexivity).
    lia. }
  split.
  - unfold MapMemoryRegion.
    destruct (negb (Z.land size PAGE_MASK =? 0)) eqn:Es.
    { split; [intros [s' Hrun]; discriminate |].
      intros (_ & E & _). apply Hal in E. congruence. }
    destruct (negb (Z.land base PAGE_MASK =? 0)) eqn:Eb.
    { split; [intros [s' Hrun]; discriminate |].
      intros (E & _ & _). apply Hal in E. congruence. }
    apply Hal in Es, Eb. rewrite Hpages, (Hend Eb Es). tauto.
  - unfold UnmapRegion.
    destruct (negb (Z.land size PAGE_MASK =? 0)) eqn:Es.
    { split; [intros [s' Hrun]; discriminate |].
      intros (_ & E & _). apply Hal in E. congruence. }
    destruct (negb (Z.land base PAGE_MASK =? 0)) eqn:Eb.
    { split; [intros [s' Hrun]; discriminate |].
      intros (E & _ & _). apply Hal in E. congruence. }
    apply Hal in Es, Eb. rewrite Hpages, (Hend Eb Es). tauto.
Qed.

Lemma MapMemoryRegion_returns_iff_aligned_in_range_witness :
  (exists s', MapMemoryRegion ctr_layout idle_rasterizer 0 0xFFFFF000 0x1000
                (Some {| blk := HostBuf 1; ofs := 0 |}) initial = Ok (tt, s'))
  /\ ~ (exists s', UnmapRegion ctr_layout idle_rasterizer 0 0xFFFFF000 0x2000
                     initial = Ok (tt, s')).
Proof.
  split.
  - apply (MapMemoryRegion_returns_iff_aligned_in_range ctr_layout
             idle_rasterizer initial 0%nat 0xFFFFF000 0x1000
             (Some {| blk := HostBuf 1; ofs := 0 |}));
      [simpl; lia | simpl; lia |].
    repeat split; simpl; lia.
  - intros H.
    apply (MapMemoryRegion_returns_iff_aligned_in_range ctr_layout
             idle_rasterizer initial 0%nat 0xFFFFF000 0x2000 None) in H;
      [| simpl; lia | simpl; lia].
    simpl in H. lia.
Defined.

(** X5: [UnmapRegion] leaves every page of the range [Unmapped] with a
    null pointer, whether the marker has the page as cached or not, and
    touches neither the other pages, nor the other tables, nor the marker;
    afterwards no address of the range is valid. *)
Theorem UnmapRegion_clears_range :
  forall (L : Layout) (R : Rasterizer) (s : MemorySystem) (t : nat)
         (base size : Z),
    0 <= base -> 0 <= size ->
    Z.land base PAGE_MASK = 0 -> Z.land size PAGE_MASK = 0 ->
    base + size <= 2 ^ 32 ->
    exists s',
      UnmapRegion L R t base size s = Ok (tt, s')
      /\ cache_marker s' = cache_marker s
      /\ page_table_list s' = page_table_list s
      /\ current_page_table s' = current_page_table s
      /\ (forall u, u <> t -> tables s' u = tables s u)
      /\ (forall i,
            (base / PAGE_SIZE <= i < (base + size) / PAGE_SIZE ->
             attributes (tables s' t) i = Unmapped
             /\ pointers (tables s' t) i = None)
            /\ (~ base / PAGE_SIZE <= i < (base + size) / PAGE_SIZE ->
                attributes (tables s' t) i = attributes (tables s t) i
                /\ pointers (tables s' t) i = pointers (tables s t) i))
      /\ (forall v, base <= v < base + size ->
            IsValidVirtualAddress t v s' = Ok (false, s')).
Proof.
  intros L R s t base size Hb Hsz Hab Has Hend.
  unfold UnmapRegion. rewrite Hab, Has. cbn [Z.eqb negb].
  rewrite land_page_mask in Hab, Has. rewrite PAGE_SIZE_val.
  pose proof (aligned_sum_pages base size Hb Hsz Hab Has) as Esum.
  destruct (MapPages_entries L R t (base / 4096) (size / 4096) None Unmapped s)
    as (s' & Hrun & Hm & Hl & Hcur & Hother & Hent).
  { apply Z.div_pos; lia. }
  { apply Z.div_pos; lia. }
  { rewrite PAGE_TABLE_NUM_ENTRIES_val, <- Esum.
    apply Z.div_le_upper_bound; lia. }
  assert (Hin : forall i, base / 4096 <= i < (base + size) / 4096 ->
            attributes (tables s' t) i = Unmapped
            /\ pointers (tables s' t) i = None).
  { intros i Hi. rewrite Esum in Hi.
    destruct (Hent i) as [Hi' _]. specialize (Hi' Hi).
    unfold mapped_entry in Hi'. cbn [PageType_eqb andb option_map] in Hi'.
    injection Hi' as -> ->. split; reflexivity. }
  exists s'. split; [exact Hrun |]. split; [exact Hm |]. split; [exact Hl |].
  split; [exact Hcur |]. split; [exact Hother |]. split.
  - intros i. split; [apply Hin |].
    intros Hi. rewrite Esum in Hi. now apply Hent.
  - intros v Hv. unfold IsValidVirtualAddress, bind, get.
    rewrite shiftr_page.
    destruct (Hin (v / 4096)) as [-> ->]; [| reflexivity].
    split; [apply Z.div_le_mono; lia |].
    apply Z.div_lt_upper_bound; [lia |].
    rewrite Esum.
    pose proof (Z.div_mod base 4096 ltac:(lia)).
    pose proof (Z.div_mod size 4096 ltac:(lia)). lia.
Qed.

Lemma UnmapRegion_clears_range_witness :
  exists s',
    UnmapRegion ctr_layout idle_rasterizer 0 0x1F000000 0x1000
      (state_after ctr_layout idle_rasterizer vram_page_ops) = Ok (tt, s')
    /\ attributes (tables s' 0%nat) 0x1F000 = Unmapped
    /\ pointers (tables s' 0%nat) 0x1F000 = None
    /\ IsValidVirtualAddress 0 0x1F000800 s' = Ok (false, s').
Proof.
  destruct (UnmapRegion_clears_range ctr_layout idle_rasterizer
              (state_after ctr_layout idle_rasterizer vram_page_ops)
              0%nat 0x1F000000 0x1000)
    as (s' & Hrun & _ & _ & _ & _ & Hent & Hvalid);
    [lia | lia | reflexivity | reflexivity | simpl; lia |].
  exists s'. split; [exact Hrun |].
  destruct (Hent 0x1F000) as [[Ha Hp] _];
    [vm_compute; split; [discriminate | reflexivity] |].
  repeat split; [exact Ha | exact Hp |].
  apply Hvalid. lia.
Defined.

(** X6: after [MapMemoryRegion(table, base, size, target)] with a non-null
    target, the guest address [v] of the range, on a page that the marker
    does not have as cached, is backed by the host location
    [target + (v - base)]: with the table current, [GetPointer] returns that
    pointer, the address is valid, and a typed read takes its bytes from
    there. *)
Theorem MapMemoryRegion_backs_range_linearly :
  forall (L : Layout) (R : Rasterizer) (s : MemorySystem) (t : nat)
         (base size : Z) (target : hptr),
    0 <= base -> 0 <= size ->
    Z.land base PAGE_MASK = 0 -> Z.land size PAGE_MASK = 0 ->
    base + size <= 2 ^ 32 ->
    current_page_table s = Some t ->
    exists s',
      MapMemoryRegion L R t base size (Some target) s = Ok (tt, s')
      /\ forall v,
           base <= v < base + size ->
           IsCached L (cache_marker s) (Z.shiftr v PAGE_BITS * PAGE_SIZE)
           = false ->
           GetPointer L v s' = Ok (Some (ptr_add target (v - base)), s')
           /\ IsValidVirtualAddress t v s' = Ok (true, s')
           /\ forall n,
                Read L R n v s'
                = Ok (le_value
                        (memcpy_from (mem s') (ptr_add target (v - base)) n),
                      s').
Proof.
  intros L R s t base size target Hb Hsz Hab Has Hend Hcur.
  unfold MapMemoryRegion. rewrite Hab, Has. cbn [Z.eqb negb].
  rewrite land_page_mask in Hab, Has. rewrite PAGE_SIZE_val.
  pose proof (aligned_sum_pages base size Hb Hsz Hab Has) as Esum.
  destruct (MapPages_entries L R t (base / 4096) (size / 4096) (Some target)
              Memory s)
    as (s' & Hrun & _ & _ & Hcur' & _ & Hent).
  { apply Z.div_pos; lia. }
  { apply Z.div_pos; lia. }
  { rewrite PAGE_TABLE_NUM_ENTRIES_val, <- Esum.
    apply Z.div_le_upper_bound; lia. }
  exists s'. split; [exact Hrun |].
  intros v Hv Hnc. rewrite shiftr_page in Hnc.
  pose proof (Z.div_mod base 4096 ltac:(lia)) as Eb.
  pose proof (Z.div_mod size 4096 ltac:(lia)) as Es.
  pose proof (Z.div_mod v 4096 ltac:(lia)) as Ev.
  assert (Hi : base / 4096 <= v / 4096 < base / 4096 + size / 4096).
  { split; [apply Z.div_le_mono; lia |].
    apply Z.div_lt_upper_bound; lia. }
  destruct (Hent (v / 4096)) as [Hin _]. specialize (Hin Hi).
  unfold mapped_entry in Hin. rewrite PAGE_SIZE_val in Hin.
  rewrite Hnc in Hin. cbn [PageType_eqb andb option_map] in Hin.
  injection Hin as Ha Hp.
  assert (Eq : ptr_add (ptr_add target ((v / 4096 - base / 4096) * 4096))
                 (Z.land v PAGE_MASK)
               = ptr_add target (v - base)).
  { rewrite ptr_add_add, land_page_mask. f_equal. lia. }
  rewrite Hcur in Hcur'.
  repeat split.
  - unfold GetPointer, bind, get. rewrite Hcur', shiftr_page, Hp.
    unfold ret. now rewrite Eq.
  - unfold IsValidVirtualAddress, bind, get. now rewrite shiftr_page, Hp.
  - intros n. unfold Read, bind, get. rewrite Hcur', shiftr_page, Hp.
    unfold ret. now rewrite Eq.
Qed.

Lemma MapMemoryRegion_backs_range_linearly_witness :
  exists s',
    MapMemoryRegion ctr_layout idle_rasterizer 0 0x00200000 0x3000
      (Some {| blk := HostBuf 2; ofs := 0x40 |})
      (state_after ctr_layout idle_rasterizer vram_page_ops) = Ok (tt, s')
    /\ GetPointer ctr_layout 0x00202ABC s'
       = Ok (Some (ptr_add {| blk := HostBuf 2; ofs := 0x40 |}
                     (0x00202ABC - 0x00200000)), s').
Proof.
  destruct (MapMemoryRegion_backs_range_linearly ctr_layout idle_rasterizer
              (state_after ctr_layout idle_rasterizer vram_page_ops)
              0%nat 0x00200000 0x3000 {| blk := HostBuf 2; ofs := 0x40 |})
    as (s' & Hrun & Hv);
    [lia | lia | reflexivity | reflexivity | simpl; lia
    | vm_compute; reflexivity |].
  exists s'. split; [exact Hrun |].
  apply (Hv 0x00202ABC); [lia | vm_compute; reflexivity].
Defined.

(** ** The flush dispatcher on an arbitrary range *)

(** One window of the dispatcher: the rasterizer is called on the physical
    image of the part of the range that lies in the window, and not at all
    when there is no such part. *)
Lemma CheckRegion_window R start end_ mode rs re ps s :
  0 <= rs < re -> 0 <= ps -> ps + (re - rs) <= 2 ^ 32 ->
  0 <= start < end_ -> end_ < 2 ^ 32 ->
  exists s' calls,
    CheckRegion R start end_ mode rs re ps s = Ok (tt, s')
    /\ trace s' = trace s ++ calls
    /\ (calls = [] -> s' = s)
    /\ (forall e, In e calls ->
          exists p sz,
            e = RasterizerCall mode p sz /\ 0 < sz
            /\ forall k, 0 <= k < sz ->
                 exists a, start <= a < end_ /\ rs <= a < re
                           /\ ps + (a - rs) = p + k)
    /\ (forall a, start <= a < end_ -> rs <= a < re ->
          exists p sz, In (RasterizerCall mode p sz) calls
                       /\ p <= ps + (a - rs) < p + sz).
Proof.
  intros Hr Hps Hfit Hse Hend. unfold CheckRegion.
  destruct (Z.leb_spec re start) as [Hmiss | Hlo]; cbn [orb].
  { exists s, []. rewrite app_nil_r. repeat split; auto.
    - intros e [].
    - intros a Ha Hw. lia. }
  destruct (Z.leb_spec end_ rs) as [Hmiss | Hhi].
  { exists s, []. rewrite app_nil_r. repeat split; auto.
    - intros e [].
    - intros a Ha Hw. lia. }
  set (os := Z.max start rs). set (oe := Z.min end_ re).
  assert (Hos : os = Z.max start rs) by reflexivity.
  assert (Hoe : oe = Z.min end_ re) by reflexivity.
  clearbody os oe.
  rewrite (u32_small (os - rs)) by lia.
  rewrite (u32_small (ps + (os - rs))) by lia.
  rewrite (u32_small (oe - os)) by lia.
  eexists. exists [RasterizerCall mode (ps + (os - rs)) (oe - os)].
  split; [reflexivity |]. split; [reflexivity |].
  split; [discriminate |]. split.
  - intros e [<- | []]. exists (ps + (os - rs)), (oe - os).
    split; [reflexivity |]. split; [lia |].
    intros k Hk. exists (os + k). lia.
  - intros a Ha Hw. exists (ps + (os - rs)), (oe - os).
    split; [now left | lia].
Qed.

Lemma physical_image_window L a :
  layout_ok L = true ->
  (LINEAR_HEAP_VADDR L <= a < LINEAR_HEAP_VADDR_END L ->
   physical_image L a = FCRAM_PADDR L + (a - LINEAR_HEAP_VADDR L))
  /\ (NEW_LINEAR_HEAP_VADDR L <= a < NEW_LINEAR_HEAP_VADDR_END L ->
      physical_image L a = FCRAM_PADDR L + (a - NEW_LINEAR_HEAP_VADDR L))
  /\ (VRAM_VADDR L <= a < VRAM_VADDR_END L ->
      physical_image L a = VRAM_PADDR L + (a - VRAM_VADDR L)).
Proof.
  intros HL. layout HL. unfold physical_image.
  repeat split; intros Ha; cmp; reflexivity.
Qed.

(** X7: on a range that does not wrap around the address space,
    [RasterizerFlushVirtualRegion] calls the rasterizer, in the mode given,
    on exactly the physical image of the cacheable part of the range: every
    byte it passes is the image of a cacheable address of the range, every
    cacheable address of the range has its image in one of the calls, and
    a range without a cacheable address reaches the rasterizer not at
    all. *)
Theorem RasterizerFlushVirtualRegion_covers_cacheable_part :
  forall (L : Layout) (R : Rasterizer) (s : MemorySystem) (start size : Z)
         (mode : FlushMode),
    layout_ok L = true ->
    0 <= start -> 0 < size -> start + size < 2 ^ 32 ->
    exists s' calls,
      RasterizerFlushVirtualRegion L R start size mode s = Ok (tt, s')
      /\ trace s' = trace s ++ calls
      /\ (forall e, In e calls ->
            exists p sz,
              e = RasterizerCall mode p sz /\ 0 < sz
              /\ forall k, 0 <= k < sz ->
                   exists a, start <= a < start + size /\ cacheable L a
                             /\ physical_image L a = p + k)
      /\ (forall a, start <= a < start + size -> cacheable L a ->
            exists p sz, In (RasterizerCall mode p sz) calls
                         /\ p <= physical_image L a < p + sz)
      /\ ((forall a, start <= a < start + size -> ~ cacheable L a) -> s' = s).
Proof.
  intros L R s start size mode HL Hs Hsz Hend.
  pose proof (fun a => physical_image_window L a HL) as Himg.
  layout HL. unfold RasterizerFlushVirtualRegion.
  rewrite (u32_small (start + size)) by lia.
  destruct (CheckRegion_window R start (start + size) mode
              (LINEAR_HEAP_VADDR L) (LINEAR_HEAP_VADDR_END L) (FCRAM_PADDR L) s)
    as (s1 & c1 & Hrun1 & Ht1 & Hn1 & Hs1 & Hc1); try lia.
  destruct (CheckRegion_window R start (start + size) mode
              (NEW_LINEAR_HEAP_VADDR L) (NEW_LINEAR_HEAP_VADDR_END L)
              (FCRAM_PADDR L) s1)
    as (s2 & c2 & Hrun2 & Ht2 & Hn2 & Hs2 & Hc2); try lia.
  destruct (CheckRegion_window R start (start + size) mode
              (VRAM_VADDR L) (VRAM_VADDR_END L) (VRAM_PADDR L) s2)
    as (s3 & c3 & Hrun3 & Ht3 & Hn3 & Hs3 & Hc3); try lia.
  exists s3, (c1 ++ c2 ++ c3).
  rewrite (bind_eq _ _ _ _ _ Hrun1), (bind_eq _ _ _ _ _ Hrun2), Hrun3.
  split; [reflexivity |].
  split; [rewrite Ht3, Ht2, Ht1, <- !app_assoc; reflexivity |].
  assert (Hsound : forall e, In e (c1 ++ c2 ++ c3) ->
            exists p sz,
              e = RasterizerCall mode p sz /\ 0 < sz
              /\ forall k, 0 <= k < sz ->
                   exists a, start <= a < start + size /\ cacheable L a
                             /\ physical_image L a = p + k).
  { intros e Hin. rewrite !in_app_iff in Hin.
    destruct Hin as [Hin | [Hin | Hin]];
      [apply Hs1 in Hin | apply Hs2 in Hin | apply Hs3 in Hin];
      destruct Hin as (p & sz & -> & Hpos & Hk);
      exists p, sz; (split; [reflexivity |]); (split; [exact Hpos |]);
      intros k Hk'; destruct (Hk k Hk') as (a & Ha & Hw & Ea);
      exists a; (split; [exact Ha |]); unfold cacheable;
      (split; [tauto |]);
      destruct (Himg a) as (I1 & I2 & I3);
      rewrite ?(I1 Hw), ?(I2 Hw), ?(I3 Hw); exact Ea. }
  split; [exact Hsound |]. split.
  - intros a Ha Hc. destruct (Himg a) as (I1 & I2 & I3).
    destruct Hc as [Hw | [Hw | Hw]].
    + destruct (Hc1 a Ha Hw) as (p & sz & Hin & Hb).
      exists p, sz. rewrite (I1 Hw), !in_app_iff. auto.
    + destruct (Hc3 a Ha Hw) as (p & sz & Hin & Hb).
      exists p, sz. rewrite (I3 Hw), !in_app_iff. auto.
    + destruct (Hc2 a Ha Hw) as (p & sz & Hin & Hb).
      exists p, sz. rewrite (I2 Hw), !in_app_iff. auto.
  - intros Hnone.
    assert (Hempty : c1 ++ c2 ++ c3 = []).
    { destruct (c1 ++ c2 ++ c3) as [| e rest] eqn:E; [reflexivity |].
      destruct (Hsound e (or_introl eq_refl)) as (p & sz & _ & Hpos & Hk).
      destruct (Hk 0 ltac:(lia)) as (a & Ha & Hc & _).
      now contradiction (Hnone a Ha). }
    apply app_eq_nil in Hempty. destruct Hempty as [E1 E23].
    apply app_eq_nil in E23. destruct E23 as [E2 E3].
    rewrite (Hn3 E3), (Hn2 E2), (Hn1 E1). reflexivity.
Qed.

Lemma RasterizerFlushVirtualRegion_covers_cacheable_part_witness :
  exists s' calls,
    RasterizerFlushVirtualRegion ctr_layout idle_rasterizer 0x1EFFF000 0x2000
      Flush initial = Ok (tt, s')
    /\ trace s' = trace initial ++ calls
    /\ exists p sz, In (RasterizerCall Flush p sz) calls
                    /\ p <= physical_image ctr_layout 0x1F000010 < p + sz.
Proof.
  destruct (RasterizerFlushVirtualRegion_covers_cacheable_part ctr_layout
              idle_rasterizer initial 0x1EFFF000 0x2000 Flush eq_refl)
    as (s' & calls & Hrun & Ht & _ & Hcover & _);
    [lia | lia | simpl; lia |].
  exists s', calls. split; [exact Hrun |]. split; [exact Ht |].
  apply Hcover; [lia | unfold cacheable; simpl; lia].
Defined.

(** ** Agreement of the address translations *)

(** X8: the three translations agree. For each virtual address that
    [PhysicalToVirtualAddressForRasterizer] returns for a physical address,
    [GetPointerForRasterizerCache] gives the host pointer that
    [GetPhysicalPointer] gives for the physical address, and the flush
    dispatcher sends a flush of that virtual address to the rasterizer as
    a flush of the physical address. *)
Theorem virtual_aliases_share_the_physical_pointer :
  forall (L : Layout) (R : Rasterizer) (s s1 : MemorySystem)
         (paddr v : Z) (vs : list Z) (mode : FlushMode),
    layout_ok L = true ->
    0 <= paddr < 2 ^ 32 ->
    PhysicalToVirtualAddressForRasterizer L paddr s = Ok (vs, s1) ->
    In v vs ->
    exists p,
      GetPointerForRasterizerCache L v = Ok p
      /\ GetPhysicalPointer L paddr s = Ok (Some p, s)
      /\ RasterizerFlushVirtualRegion L R v 1 mode s
         = Ok (tt,
               emit (with_mem s (rasterizer_effect R mode paddr 1 (mem s)))
                 (RasterizerCall mode paddr 1)).
Proof.
  intros L R s s1 paddr v vs mode HL Hp Hrun Hin.
  rewrite PhysicalToVirtualAddressForRasterizer_eq in Hrun.
  injection Hrun as <- _.
  destruct (aliases_in_window L paddr v HL Hp Hin) as [Hc Hv].
  pose proof (physical_image_window L v HL) as (I1 & I2 & I3).
  assert (Hflush : physical_image L v = paddr ->
            RasterizerFlushVirtualRegion L R v 1 mode s
            = Ok (tt,
                  emit (with_mem s (rasterizer_effect R mode paddr 1 (mem s)))
                    (RasterizerCall mode paddr 1))).
  { intros <-. apply RasterizerFlushVirtualRegion_in_page; auto; try lia.
    pose proof (Z.mod_pos_bound v 4096 ltac:(lia)). lia. }
  pose proof (GetPhysicalPointer_window L paddr s HL) as (G1 & G2).
  layout HL.
  destruct (aliases_cases L paddr HL Hp)
    as [[Hr E] | [[Hr E] | [[Hr E] | [Hr E]]]];
    rewrite E in Hin; simpl in Hin;
    repeat (destruct Hin as [<- | Hin]); try contradiction.
  - destruct (GetPointerForRasterizerCache_window
                L (paddr - VRAM_PADDR L + VRAM_VADDR L) HL) as (_ & _ & ->);
      [| lia].
    eexists. split; [reflexivity |]. split.
    + rewrite G1 by lia. do 4 f_equal. lia.
    + apply Hflush. rewrite I3 by lia. lia.
  - destruct (GetPointerForRasterizerCache_window
                L (paddr - FCRAM_PADDR L + LINEAR_HEAP_VADDR L) HL)
      as (-> & _ & _); [| lia].
    eexists. split; [reflexivity |]. split.
    + rewrite G2 by lia. do 4 f_equal. lia.
    + apply Hflush. rewrite I1 by lia. lia.
  - destruct (GetPointerForRasterizerCache_window
                L (paddr - FCRAM_PADDR L + NEW_LINEAR_HEAP_VADDR L) HL)
      as (_ & -> & _); [| lia].
    eexists. split; [reflexivity |]. split.
    + rewrite G2 by lia. do 4 f_equal. lia.
    + apply Hflush. rewrite I2 by lia. lia.
  - destruct (GetPointerForRasterizerCache_window
                L (paddr - FCRAM_PADDR L + NEW_LINEAR_HEAP_VADDR L) HL)
      as (_ & -> & _); [| lia].
    eexists. split; [reflexivity |]. split.
    + rewrite G2 by lia. do 4 f_equal. lia.
    + apply Hflush. rewrite I2 by lia. lia.
Qed.

Lemma virtual_aliases_share_the_physical_pointer_witness :
  exists p,
    GetPointerForRasterizerCache ctr_layout 0x30001234 = Ok p
    /\ GetPhysicalPointer ctr_layout 0x20001234 initial = Ok (Some p, initial)
    /\ RasterizerFlushVirtualRegion ctr_layout idle_rasterizer 0x30001234 1
         Invalidate initial
       = Ok (tt,
             emit (with_mem initial
                     (rasterizer_effect idle_rasterizer Invalidate 0x20001234
                        1 (mem initial)))
               (RasterizerCall Invalidate 0x20001234 1)).
Proof.
  apply (virtual_aliases_share_the_physical_pointer ctr_layout
           idle_rasterizer initial initial 0x20001234 0x30001234
           [0x14001234; 0x30001234] Invalidate eq_refl).
  - simpl; lia.
  - vm_compute. reflexivity.
  - right. left. reflexivity.
Defined.

(** ** Typed access and block access *)

Lemma ReadBlock_loop_done L R process src_addr size fuel pi po rem dest s :
  rem <= 0 ->
  ReadBlock_loop L R fuel process src_addr size pi po rem dest s
  = Ok (dest, s).
Proof.
  intros H. destruct fuel; cbn [ReadBlock_loop];
    destruct (Z.leb_spec rem 0); try lia; reflexivity.
Qed.

Lemma WriteBlock_loop_done L R process dest_addr size fuel pi po src rem s :
  rem <= 0 ->
  WriteBlock_loop L R fuel process dest_addr size pi po src rem s
  = Ok (tt, s).
Proof.
  intros H. destruct fuel; cbn [WriteBlock_loop];
    destruct (Z.leb_spec rem 0); try lia; reflexivity.
Qed.

Lemma page_address v :
  0 <= v < 2 ^ 32 ->
  u32 (Z.shiftl (Z.shiftr v PAGE_BITS) PAGE_BITS + Z.land v PAGE_MASK) = v
  /\ Z.shiftr v PAGE_BITS < PAGE_TABLE_NUM_ENTRIES.
Proof.
  intros Hv. rewrite shiftr_page, shiftl_page, land_page_mask.
  rewrite PAGE_TABLE_NUM_ENTRIES_val.
  pose proof (Z.div_mod v 4096 ltac:(lia)). split.
  - rewrite u32_small by lia. lia.
  - apply Z.div_lt_upper_bound; lia.
Qed.

(** A block access that stays inside one page is one turn of the loop. *)
Lemma ReadBlock_one_page L R process v n s :
  0 < n -> Z.land v PAGE_MASK + n <= PAGE_SIZE ->
  ReadBlock L R process v n s
  = ReadBlock_page L R process v n (Z.shiftr v PAGE_BITS)
      (Z.land v PAGE_MASK) n s.
Proof.
  intros Hn Hpage. unfold ReadBlock.
  destruct (Z.to_nat n) as [| fuel] eqn:En; [lia |].
  cbn [ReadBlock_loop]. destruct (Z.leb_spec n 0); [lia |].
  rewrite Z.min_r by lia. unfold bind.
  destruct (ReadBlock_page L R process v n (Z.shiftr v PAGE_BITS)
              (Z.land v PAGE_MASK) n s) as [[chunk s1] | |];
    [| reflexivity | reflexivity].
  rewrite ReadBlock_loop_done by lia. reflexivity.
Qed.

Lemma WriteBlock_one_page L R process v src n s :
  0 < n -> Z.land v PAGE_MASK + n <= PAGE_SIZE ->
  WriteBlock L R process v src n s
  = WriteBlock_page L R process v n (Z.shiftr v PAGE_BITS)
      (Z.land v PAGE_MASK) src n s.
Proof.
  intros Hn Hpage. unfold WriteBlock.
  destruct (Z.to_nat n) as [| fuel] eqn:En; [lia |].
  cbn [WriteBlock_loop]. destruct (Z.leb_spec n 0); [lia |].
  rewrite Z.min_r by lia. unfold bind.
  destruct (WriteBlock_page L R process v n (Z.shiftr v PAGE_BITS)
              (Z.land v PAGE_MASK) src n s) as [[[] s1] | |];
    [| reflexivity | reflexivity].
  rewrite WriteBlock_loop_done by lia. reflexivity.
Qed.

(** X9: in a state reached without a null mapping, a typed access that
    stays inside a mapped page is the block access of the same bytes:
    [Read<T>] returns the little-endian value of what [ReadBlock] of
    [sizeof(T)] bytes puts into its buffer, and [Write<T>] is [WriteBlock]
    of the little-endian bytes of the value, with the same host memory,
    the same rasterizer calls and the same state afterwards. *)
Theorem typed_access_is_block_access_inside_a_page :
  forall (L : Layout) (R : Rasterizer) (ops : list Op) (s : MemorySystem)
         (t n : nat) (v data : Z),
    run L R ops initial = Ok (tt, s) ->
    forallb op_strict ops = true ->
    current_page_table s = Some t ->
    0 <= v < 2 ^ 32 ->
    (0 < n)%nat ->
    Z.land v PAGE_MASK + Z.of_nat n <= PAGE_SIZE ->
    attributes (tables s t) (Z.shiftr v PAGE_BITS) <> Unmapped ->
    Read L R n v s
    = (buf <- ReadBlock L R t v (Z.of_nat n) ;; ret (le_value buf)) s
    /\ Write L R n v data s
       = WriteBlock L R t v (Bytes (le_bytes n data)) (Z.of_nat n) s.
Proof.
  intros L R ops s t n v data Hrun Hstrict Hcur Hv Hn Hpage Hmapped.
  assert (Hinv : state_inv L true s).
  { eapply run_inv_from; [| apply state_inv_initial | exact Hrun]. auto. }
  destruct (Hinv t (Z.shiftr v PAGE_BITS)) as (H2 & H3 & Hsp & H1 & _).
  specialize (H1 eq_refl). unfold P1, P2 in *.
  destruct (page_address v Hv) as [Eaddr Hpi].
  apply Z.ltb_lt in Hpi.
  unfold bind at 1.
  rewrite ReadBlock_one_page, WriteBlock_one_page by (try assumption; lia).
  rewrite PAGE_SIZE_val, land_page_mask in Hpage.
  pose proof (Z.mod_pos_bound v 4096 ltac:(lia)) as Hpo.
  assert (Ebytes : firstn n (le_bytes n data) = le_bytes n data)
    by (apply firstn_all2; rewrite le_bytes_length; lia).
  destruct (attributes (tables s t) (Z.shiftr v PAGE_BITS)) eqn:Ea.
  - contradiction.
  - destruct (pointers (tables s t) (Z.shiftr v PAGE_BITS)) as [p |] eqn:Ep;
      [| now contradiction H1].
    unfold Read, Write, ReadBlock_page, WriteBlock_page, bind, get.
    rewrite Hcur, Hpi, Ea, Ep. cbn [buffer_read].
    rewrite Nat2Z.id, Ebytes. split; reflexivity.
  - pose proof (H2 eq_refl) as Ep.
    destruct (RasterizerFlushVirtualRegion_total L R v (Z.of_nat n) Flush s)
      as (sf & Hf & _).
    destruct (RasterizerFlushVirtualRegion_total L R v (Z.of_nat n)
                Invalidate s) as (si & Hi & _).
    unfold Read, Write, ReadBlock_page, WriteBlock_page, bind, get.
    rewrite Hcur, Hpi, Ea, Ep, Eaddr. cbn [buffer_read].
    rewrite (u32_small (Z.of_nat n)) by lia.
    rewrite Nat2Z.id, Ebytes, Hf, Hi.
    unfold lift, ret, modify.
    destruct (GetPointerForRasterizerCache L v) as [p | |];
      split; reflexivity.
  - contradiction.
Qed.

Lemma typed_access_is_block_access_inside_a_page_witness :
  Read ctr_layout stamping_rasterizer 4 0x1F000000
    (state_after ctr_layout stamping_rasterizer vram_page_ops)
  = (buf <- ReadBlock ctr_layout stamping_rasterizer 0 0x1F000000 4 ;;
     ret (le_value buf))
      (state_after ctr_layout stamping_rasterizer vram_page_ops).
Proof.
  apply (typed_access_is_block_access_inside_a_page ctr_layout
           stamping_rasterizer vram_page_ops
           (state_after ctr_layout stamping_rasterizer vram_page_ops)
           0%nat 4%nat 0x1F000000 0).
  - apply runs_state_after. vm_compute. reflexivity.
  - reflexivity.
  - vm_compute. reflexivity.
  - simpl; lia.
  - lia.
  - vm_compute. discriminate.
  - vm_compute. discriminate.
Defined.

(** ** Block reads of guest bytes *)

Lemma read_bytes_length pt m : forall n a, length (read_bytes pt m a n) = n.
Proof. induction n as [| n IH]; intros a; simpl; [| rewrite IH]; reflexivity. Qed.

Lemma read_bytes_app pt m :
  forall n1 n2 a,
    read_bytes pt m a (n1 + n2)
    = read_bytes pt m a n1 ++ read_bytes pt m (a + Z.of_nat n1) n2.
Proof.
  induction n1 as [| n1 IH]; intros n2 a.
  - simpl. now rewrite Z.add_0_r.
  - cbn [Nat.add read_bytes app]. rewrite IH. do 3 f_equal. lia.
Qed.

Lemma read_bytes_nth pt m :
  forall n a k, (k < n)%nat ->
    nth k (read_bytes pt m a n) 0
    = match block_target pt (a + Z.of_nat k) with
      | Some q => m q
      | None => 0
      end.
Proof.
  induction n as [| n IH]; intros a k Hk; [lia |].
  destruct k as [| k]; cbn [read_bytes nth].
  - now rewrite Z.add_0_r.
  - rewrite IH by lia. replace (a + 1 + Z.of_nat k) with (a + Z.of_nat (S k))
      by lia. reflexivity.
Qed.

Lemma read_bytes_ext pt m m' :
  forall n a,
    (forall k q, 0 <= k < Z.of_nat n -> block_target pt (a + k) = Some q ->
       m q = m' q) ->
    read_bytes pt m a n = read_bytes pt m' a n.
Proof.
  induction n as [| n IH]; intros a H; [reflexivity |].
  cbn [read_bytes]. f_equal.
  - destruct (block_target pt a) as [q |] eqn:E; [| reflexivity].
    apply (H 0); [lia | now rewrite Z.add_0_r].
  - apply IH. intros k q Hk Hq. apply (H (k + 1)); [lia |].
    now replace (a + (k + 1)) with (a + 1 + k) by lia.
Qed.

Lemma read_bytes_memory_page pt pi p m :
  attributes pt pi = Memory -> pointers pt pi = Some p ->
  forall n po,
    0 <= po -> po + Z.of_nat n <= 4096 ->
    read_bytes pt m (pi * 4096 + po) n = memcpy_from m (ptr_add p po) n.
Proof.
  intros Ha Hp. induction n as [| n IH]; intros po Hpo Hlen; [reflexivity |].
  cbn [read_bytes memcpy_from]. unfold block_target.
  destruct (page_parts pi po ltac:(lia)) as [-> ->]. rewrite Ha, Hp.
  replace (pi * 4096 + po + 1) with (pi * 4096 + (po + 1)) by lia.
  rewrite IH by lia. now rewrite ptr_add_add.
Qed.

Lemma read_bytes_no_target pt m :
  forall n a,
    (forall j, 0 <= j < Z.of_nat n -> block_target pt (a + j) = None) ->
    read_bytes pt m a n = repeat 0 n.
Proof.
  induction n as [| n IH]; intros a H; [reflexivity |].
  cbn [read_bytes repeat].
  pose proof (H 0 ltac:(lia)) as H0. rewrite Z.add_0_r in H0. rewrite H0.
  f_equal. apply IH. intros j Hj.
  replace (a + 1 + j) with (a + (j + 1)) by lia. apply H. lia.
Qed.

(** One page of [ReadBlock], on an unmapped page or on a page with
    attribute [Memory] and a pointer. *)
Lemma ReadBlock_page_guest L R process src_addr size pi po ca s :
  0 <= po -> 0 <= ca -> po + ca <= 4096 ->
  pi < PAGE_TABLE_NUM_ENTRIES ->
  attributes (tables s process) pi = Unmapped
  \/ (attributes (tables s process) pi = Memory
      /\ pointers (tables s process) pi <> None) ->
  exists s',
    ReadBlock_page L R process src_addr size pi po ca s
    = Ok (read_bytes (tables s process) (mem s) (pi * 4096 + po)
            (Z.to_nat ca), s')
    /\ same_control s s' /\ mem s' = mem s
    /\ (attributes (tables s process) pi = Memory -> s' = s).
Proof.
  intros Hpo Hca Hlen Hpi Hattr. unfold ReadBlock_page, bind, get.
  apply Z.ltb_lt in Hpi. rewrite Hpi.
  destruct Hattr as [Ha | [Ha Hp]]; rewrite Ha.
  - exists (emit s (LogError "unmapped ReadBlock"
                     [u32 (Z.shiftl pi PAGE_BITS + po); src_addr; size])).
    split; [| split; [repeat split | split; [reflexivity | discriminate]]].
    rewrite read_bytes_no_target; [reflexivity |].
    intros j Hj. unfold block_target.
    replace (pi * 4096 + po + j) with (pi * 4096 + (po + j)) by lia.
    destruct (page_parts pi (po + j) ltac:(lia)) as [-> _].
    now rewrite Ha.
  - destruct (pointers (tables s process) pi) as [p |] eqn:Ep;
      [| contradiction].
    exists s. split; [| split; [apply same_control_refl | auto]].
    unfold ret. do 2 f_equal. symmetry.
    apply read_bytes_memory_page; auto. lia.
Qed.

Lemma ReadBlock_loop_guest L R process src_addr size :
  forall fuel pi po rem dest s,
    0 <= po < 4096 -> 0 <= rem <= Z.of_nat fuel ->
    (forall j, 0 <= j < rem ->
       let i := pi + (po + j) / 4096 in
       i < PAGE_TABLE_NUM_ENTRIES
       /\ (attributes (tables s process) i = Unmapped
           \/ (attributes (tables s process) i = Memory
               /\ pointers (tables s process) i <> None))) ->
    exists s',
      ReadBlock_loop L R fuel process src_addr size pi po rem dest s
      = Ok (dest ++ read_bytes (tables s process) (mem s) (pi * 4096 + po)
                      (Z.to_nat rem), s')
      /\ same_control s s' /\ mem s' = mem s
      /\ ((forall j, 0 <= j < rem ->
             attributes (tables s process) (pi + (po + j) / 4096) = Memory) ->
          s' = s).
Proof.
  induction fuel as [| fuel IH]; intros pi po rem dest s Hpo Hrem Hpages.
  - rewrite ReadBlock_loop_done by lia. replace rem with 0 by lia.
    exists s. cbn [Z.to_nat read_bytes]. rewrite app_nil_r.
    repeat split.
  - destruct (Z.eq_dec rem 0) as [-> | Hnz].
    { rewrite ReadBlock_loop_done by lia.
      exists s. cbn [Z.to_nat read_bytes]. rewrite app_nil_r.
      repeat split. }
    cbn [ReadBlock_loop]. destruct (Z.leb_spec rem 0); [lia |].
    rewrite PAGE_SIZE_val. set (ca := Z.min (4096 - po) rem).
    assert (Hca : 0 < ca <= rem /\ ca <= 4096 - po) by (unfold ca; lia).
    destruct (Hpages 0 ltac:(lia)) as [Hpi Hattr]. cbn zeta in Hpi, Hattr.
    replace ((po + 0) / 4096) with 0 in Hpi, Hattr
      by (symmetry; apply Z.div_small; lia).
    rewrite Z.add_0_r in Hpi, Hattr.
    destruct (ReadBlock_page_guest L R process src_addr size pi po ca s)
      as (s1 & Hrun1 & Hc1 & Hm1 & Hs1); auto; try lia.
    rewrite (bind_eq _ _ _ _ _ Hrun1).
    assert (Hshift : forall j, 0 <= j < rem - ca ->
              pi + 1 + (0 + j) / 4096 = pi + (po + (j + ca)) / 4096).
    { intros j Hj. assert (Eca : ca = 4096 - po) by lia.
      replace (po + (j + ca)) with (1 * 4096 + j) by lia.
      rewrite Z.div_add_l by lia. rewrite Z.add_0_l. lia. }
    destruct (IH (pi + 1) 0 (rem - ca)
                (dest ++ read_bytes (tables s process) (mem s)
                           (pi * 4096 + po) (Z.to_nat ca)) s1)
      as (s2 & Hrun2 & Hc2 & Hm2 & Hs2).
    + lia.
    + lia.
    + intros j Hj. cbn zeta. destruct Hc1 as [-> _].
      rewrite Hshift by lia. apply Hpages. lia.
    + exists s2. split; [| split; [| split]].
      * rewrite Hrun2. do 2 f_equal. rewrite <- app_assoc. f_equal.
        destruct Hc1 as [-> _]. rewrite Hm1.
        replace (Z.to_nat rem) with (Z.to_nat ca + Z.to_nat (rem - ca))%nat
          by lia.
        rewrite read_bytes_app. f_equal.
        destruct (Z.eq_dec ca (4096 - po)) as [Eca | Hne].
        -- f_equal. lia.
        -- replace (Z.to_nat (rem - ca)) with 0%nat by lia. reflexivity.
      * eapply same_control_trans; eauto.
      * now rewrite Hm2.
      * intros Hall.
        assert (E1 : s1 = s).
        { apply Hs1. specialize (Hall 0 ltac:(lia)).
          replace ((po + 0) / 4096) with 0 in Hall
            by (symmetry; apply Z.div_small; lia).
          now rewrite Z.add_0_r in Hall. }
        rewrite <- E1. apply Hs2. intros j Hj. rewrite E1.
        rewrite Hshift by lia. apply Hall. lia.
Qed.

(** X10: [ReadBlock] over pages that are unmapped or have attribute
    [Memory] and a pointer returns, for each guest address [v + k] of the
    range, the byte at the host location of that address, across the page
    boundaries, and zero for an address of an unmapped page; it leaves host
    memory as it is, and the whole state when no page of the range is
    unmapped. *)
Theorem ReadBlock_gathers_guest_bytes :
  forall (L : Layout) (R : Rasterizer) (s : MemorySystem) (process : nat)
         (v size : Z),
    0 <= v -> 0 <= size ->
    (forall k, 0 <= k < size ->
       let i := Z.shiftr (v + k) PAGE_BITS in
       i < PAGE_TABLE_NUM_ENTRIES
       /\ (attributes (tables s process) i = Unmapped
           \/ (attributes (tables s process) i = Memory
               /\ pointers (tables s process) i <> None))) ->
    exists buf s',
      ReadBlock L R process v size s = Ok (buf, s')
      /\ length buf = Z.to_nat size
      /\ same_control s s' /\ mem s' = mem s
      /\ (forall k q, 0 <= k < size ->
            block_target (tables s process) (v + k) = Some q ->
            nth (Z.to_nat k) buf 0 = mem s q)
      /\ (forall k, 0 <= k < size ->
            attributes (tables s process) (Z.shiftr (v + k) PAGE_BITS)
            = Unmapped ->
            nth (Z.to_nat k) buf 0 = 0)
      /\ ((forall k, 0 <= k < size ->
             attributes (tables s process) (Z.shiftr (v + k) PAGE_BITS)
             = Memory) ->
          s' = s).
Proof.
  intros L R s process v size Hv Hsize Hpages.
  unfold ReadBlock. rewrite shiftr_page, land_page_mask.
  pose proof (Z.mod_pos_bound v 4096 ltac:(lia)) as Hpo.
  destruct (ReadBlock_loop_guest L R process v size (Z.to_nat size)
              (v / 4096) (v mod 4096) size [] s Hpo ltac:(lia))
    as (s' & Hrun & Hc & Hm & Hsame).
  { intros j Hj. cbn zeta. rewrite page_of_sum by lia.
    rewrite <- shiftr_page. now apply Hpages. }
  replace (v / 4096 * 4096 + v mod 4096) with v in Hrun
    by (pose proof (Z.div_mod v 4096 ltac:(lia)); lia).
  cbn [app] in Hrun.
  exists (read_bytes (tables s process) (mem s) v (Z.to_nat size)), s'.
  split; [exact Hrun |]. split; [apply read_bytes_length |].
  split; [exact Hc |]. split; [exact Hm |]. split; [| split].
  - intros k q Hk Hq. rewrite read_bytes_nth by lia.
    rewrite Z2Nat.id by lia. now rewrite Hq.
  - intros k Hk Ha. rewrite read_bytes_nth by lia.
    rewrite Z2Nat.id by lia. unfold block_target. now rewrite Ha.
  - intros Hall. apply Hsame. intros j Hj.
    rewrite page_of_sum by lia. rewrite <- shiftr_page. now apply Hall.
Qed.

Lemma ReadBlock_gathers_guest_bytes_witness :
  exists buf s',
    ReadBlock ctr_layout idle_rasterizer 0 0x00100FFE 4
      (state_after ctr_layout idle_rasterizer vram_map_ops) = Ok (buf, s')
    /\ length buf = 4%nat
    /\ s' = state_after ctr_layout idle_rasterizer vram_map_ops.
Proof.
  destruct (ReadBlock_gathers_guest_bytes ctr_layout idle_rasterizer
              (state_after ctr_layout idle_rasterizer vram_map_ops)
              0%nat 0x00100FFE 4)
    as (buf & s' & Hrun & Hlen & _ & _ & _ & _ & Hsame); [lia | lia | |].
  - intros k Hk.
    assert (E : k = 0 \/ k = 1 \/ k = 2 \/ k = 3) by lia.
    destruct E as [-> | [-> | [-> | ->]]];
      (split; [vm_compute; reflexivity |]);
      right; (split; [vm_compute; reflexivity | vm_compute; discriminate]).
  - exists buf, s'. split; [exact Hrun |]. split; [exact Hlen |].
    apply Hsame. intros k Hk.
    assert (E : k = 0 \/ k = 1 \/ k = 2 \/ k = 3) by lia.
    destruct E as [-> | [-> | [-> | ->]]]; vm_compute; reflexivity.
Defined.

(** X11: on pages with attribute [Memory] and a pointer, whose guest
    addresses have pairwise different host locations, [ReadBlock] returns
    what [WriteBlock] has just stored at the same address, each byte
    reduced to eight bits, and leaves the state as [WriteBlock] left it. *)
Theorem ReadBlock_returns_what_WriteBlock_stored :
  forall (L : Layout) (R : Rasterizer) (s : MemorySystem) (process : nat)
         (v : Z) (src_buffer : list Z),
    0 <= v ->
    (forall k, 0 <= k < Z.of_nat (length src_buffer) ->
       let i := Z.shiftr (v + k) PAGE_BITS in
       i < PAGE_TABLE_NUM_ENTRIES
       /\ attributes (tables s process) i = Memory
       /\ pointers (tables s process) i <> None) ->
    (forall j k,
       0 <= j < Z.of_nat (length src_buffer) ->
       0 <= k < Z.of_nat (length src_buffer) -> j <> k ->
       block_target (tables s process) (v + j)
       <> block_target (tables s process) (v + k)) ->
    exists s1,
      WriteBlock L R process v (Bytes src_buffer)
        (Z.of_nat (length src_buffer)) s = Ok (tt, s1)
      /\ ReadBlock L R process v (Z.of_nat (length src_buffer)) s1
         = Ok (map (fun b => Z.land b 255) src_buffer, s1).
Proof.
  intros L R s process v src Hv Hpages Hinj.
  pose proof (Z.mod_pos_bound v 4096 ltac:(lia)) as Hpo.
  pose proof (Z.div_mod v 4096 ltac:(lia)) as Ev.
  assert (Hpage : forall j, 0 <= j < Z.of_nat (length src) ->
            v / 4096 + (v mod 4096 + j) / 4096 = Z.shiftr (v + j) PAGE_BITS).
  { intros j Hj. rewrite page_of_sum by lia. now rewrite shiftr_page. }
  unfold WriteBlock, ReadBlock.
  rewrite shiftr_page, land_page_mask, Nat2Z.id.
  destruct (WriteBlock_loop_spec L R process v (Z.of_nat (length src))
              (length src) (v / 4096) (v mod 4096) src s Hpo (le_n _))
    as (s1 & Hrun1 & Hc1 & Hm1).
  { intros j Hj. cbn zeta. rewrite Hpage by lia.
    destruct (Hpages j Hj) as (Hi & Ha & Hp). auto. }
  exists s1. split; [exact Hrun1 |].
  destruct (ReadBlock_loop_guest L R process v (Z.of_nat (length src))
              (length src) (v / 4096) (v mod 4096) (Z.of_nat (length src))
              [] s1 Hpo ltac:(lia))
    as (s2 & Hrun2 & _ & _ & Hsame).
  { intros j Hj. cbn zeta. rewrite Hpage by lia.
    destruct Hc1 as [-> _].
    destruct (Hpages j Hj) as (Hi & Ha & Hp). auto. }
  rewrite Hrun2. cbn [app]. rewrite Nat2Z.id.
  replace (v / 4096 * 4096 + v mod 4096) with v in * by lia.
  rewrite Hsame.
  2:{ intros j Hj. rewrite Hpage by lia. destruct Hc1 as [-> _].
      now destruct (Hpages j Hj) as (_ & Ha & _). }
  do 2 f_equal.
  destruct Hc1 as [Et _]. rewrite Et, Hm1.
  apply nth_ext with (d := 0) (d' := Z.land 0 255).
  { now rewrite read_bytes_length, length_map. }
  intros k Hk. rewrite read_bytes_length in Hk.
  rewrite read_bytes_nth by lia.
  rewrite (map_nth (fun b => Z.land b 255)).
  destruct (Hpages (Z.of_nat k) ltac:(lia)) as (_ & Ha & Hp).
  cbn zeta in Ha, Hp.
  destruct (block_target (tables s process) (v + Z.of_nat k)) as [q |] eqn:Eq.
  - rewrite (write_bytes_read _ q src (mem s) v (Z.of_nat k));
      [now rewrite Nat2Z.id | lia | exact Eq |].
    intros j Hj Hjk E. apply (Hinj j (Z.of_nat k)); try lia. congruence.
  - exfalso. unfold block_target in Eq. rewrite Ha in Eq.
    destruct (pointers (tables s process) (Z.shiftr (v + Z.of_nat k) PAGE_BITS));
      [discriminate | contradiction].
Qed.

Lemma ReadBlock_returns_what_WriteBlock_stored_witness :
  exists s1,
    WriteBlock ctr_layout idle_rasterizer 0 0x00100FFE (Bytes [1; 2; 3; 4])
      (Z.of_nat (length [1; 2; 3; 4]))
      (state_after ctr_layout idle_rasterizer vram_map_ops) = Ok (tt, s1)
    /\ ReadBlock ctr_layout idle_rasterizer 0 0x00100FFE
         (Z.of_nat (length [1; 2; 3; 4])) s1
       = Ok (map (fun b => Z.land b 255) [1; 2; 3; 4], s1).
Proof.
  apply (ReadBlock_returns_what_WriteBlock_stored ctr_layout idle_rasterizer
           (state_after ctr_layout idle_rasterizer vram_map_ops) 0%nat
           0x00100FFE [1; 2; 3; 4]).
  - lia.
  - intros k Hk. simpl length in Hk.
    assert (E : k = 0 \/ k = 1 \/ k = 2 \/ k = 3) by lia.
    destruct E as [-> | [-> | [-> | ->]]];
      (split; [vm_compute; reflexivity |]);
      (split; [vm_compute; reflexivity | vm_compute; discriminate]).
  - intros j k Hj Hk Hjk. simpl length in Hj, Hk.
    assert (Ej : j = 0 \/ j = 1 \/ j = 2 \/ j = 3) by lia.
    assert (Ek : k = 0 \/ k = 1 \/ k = 2 \/ k = 3) by lia.
    destruct Ej as [-> | [-> | [-> | ->]]];
      destruct Ek as [-> | [-> | [-> | ->]]];
      try (now contradiction Hjk); vm_compute; discriminate.
Defined.

(** ** Zero fill *)

Lemma ZeroBlock_loop_done L R process dest_addr size fuel pi po rem s :
  rem <= 0 ->
  ZeroBlock_loop L R fuel process dest_addr size pi po rem s = Ok (tt, s).
Proof.
  intros H. destruct fuel; cbn [ZeroBlock_loop];
    destruct (Z.leb_spec rem 0); try lia; reflexivity.
Qed.

Lemma firstn_repeat {A : Type} (x : A) :
  forall n m, (n <= m)%nat -> firstn n (repeat x m) = repeat x n.
Proof.
  induction n as [| n IH]; intros m H; [reflexivity |].
  destruct m as [| m]; [lia |]. cbn [repeat firstn]. f_equal. apply IH. lia.
Qed.

Lemma skipn_repeat {A : Type} (x : A) :
  forall n m, skipn n (repeat x m) = repeat x (m - n).
Proof.
  induction n as [| n IH]; intros m.
  - now rewrite Nat.sub_0_r.
  - destruct m as [| m]; [reflexivity |]. cbn [repeat skipn]. apply IH.
Qed.

(** One page of [ZeroBlock], on an unmapped page or on a page with
    attribute [Memory] and a pointer. *)
Lemma ZeroBlock_page_spec L R process dest_addr size pi po ca s :
  0 <= po -> 0 <= ca -> po + ca <= 4096 ->
  pi < PAGE_TABLE_NUM_ENTRIES ->
  attributes (tables s process) pi = Unmapped
  \/ (attributes (tables s process) pi = Memory
      /\ pointers (tables s process) pi <> None) ->
  exists s',
    ZeroBlock_page L R process dest_addr size pi po ca s = Ok (tt, s')
    /\ same_control s s'
    /\ mem s' = write_bytes (tables s process) (mem s) (pi * 4096 + po)
                  (repeat 0 (Z.to_nat ca)).
Proof.
  intros Hpo Hca Hlen Hpi Hattr. unfold ZeroBlock_page, bind, get.
  apply Z.ltb_lt in Hpi. rewrite Hpi.
  destruct Hattr as [Ha | [Ha Hp]]; rewrite Ha.
  - eexists. split; [reflexivity |]. split; [repeat split |].
    cbn [mem emit]. symmetry. apply write_bytes_no_target.
    intros j Hj. rewrite repeat_length in Hj. unfold block_target.
    replace (pi * 4096 + po + j) with (pi * 4096 + (po + j)) by lia.
    destruct (page_parts pi (po + j) ltac:(lia)) as [-> _].
    now rewrite Ha.
  - destruct (pointers (tables s process) pi) as [p |] eqn:Ep;
      [| contradiction].
    eexists. split; [reflexivity |]. split; [repeat split |].
    cbn [mem with_mem]. symmetry.
    apply write_bytes_memory_page; auto. rewrite repeat_length. lia.
Qed.

Lemma ZeroBlock_loop_spec L R process dest_addr size :
  forall fuel pi po rem s,
    0 <= po < 4096 -> 0 <= rem <= Z.of_nat fuel ->
    (forall j, 0 <= j < rem ->
       let i := pi + (po + j) / 4096 in
       i < PAGE_TABLE_NUM_ENTRIES
       /\ (attributes (tables s process) i = Unmapped
           \/ (attributes (tables s process) i = Memory
               /\ pointers (tables s process) i <> None))) ->
    exists s',
      ZeroBlock_loop L R fuel process dest_addr size pi po rem s = Ok (tt, s')
      /\ same_control s s'
      /\ mem s' = write_bytes (tables s process) (mem s) (pi * 4096 + po)
                    (repeat 0 (Z.to_nat rem)).
Proof.
  induction fuel as [| fuel IH]; intros pi po rem s Hpo Hrem Hpages.
  - rewrite ZeroBlock_loop_done by lia. replace rem with 0 by lia.
    exists s. repeat split.
  - destruct (Z.eq_dec rem 0) as [-> | Hnz].
    { rewrite ZeroBlock_loop_done by lia. exists s. repeat split. }
    cbn [ZeroBlock_loop]. destruct (Z.leb_spec rem 0); [lia |].
    rewrite PAGE_SIZE_val. set (ca := Z.min (4096 - po) rem).
    assert (Hca : 0 < ca <= rem /\ ca <= 4096 - po) by (unfold ca; lia).
    destruct (Hpages 0 ltac:(lia)) as [Hpi Hattr]. cbn zeta in Hpi, Hattr.
    replace ((po + 0) / 4096) with 0 in Hpi, Hattr
      by (symmetry; apply Z.div_small; lia).
    rewrite Z.add_0_r in Hpi, Hattr.
    destruct (ZeroBlock_page_spec L R process dest_addr size pi po ca s)
      as (s1 & Hrun1 & Hc1 & Hm1); auto; try lia.
    rewrite (bind_eq _ _ _ _ _ Hrun1).
    destruct (IH (pi + 1) 0 (rem - ca) s1) as (s2 & Hrun2 & Hc2 & Hm2).
    + lia.
    + lia.
    + intros j Hj. cbn zeta. destruct Hc1 as [-> _].
      assert (Eca : ca = 4096 - po) by lia.
      replace (pi + 1 + (0 + j) / 4096)
        with (pi + (po + (j + ca)) / 4096); [apply Hpages; lia |].
      replace (po + (j + ca)) with (1 * 4096 + j) by lia.
      rewrite Z.div_add_l by lia. rewrite Z.add_0_l. lia.
    + exists s2. split; [exact Hrun2 |].
      split; [eapply same_control_trans; eauto |].
      rewrite Hm2, Hm1. destruct Hc1 as [-> _].
      replace (Z.to_nat rem) with (Z.to_nat ca + Z.to_nat (rem - ca))%nat
        by lia.
      rewrite repeat_app, write_bytes_app, repeat_length.
      rewrite Z2Nat.id by lia.
      destruct (Z.eq_dec ca (4096 - po)) as [Eca | Hne].
      * f_equal. lia.
      * replace (Z.to_nat (rem - ca)) with 0%nat by lia. reflexivity.
Qed.

(** Where no page is unmapped, the turns of [ZeroBlock] are those of
    [WriteBlock] from a buffer of zeros. *)
Lemma ZeroBlock_loop_is_WriteBlock_loop L R process dest_addr size :
  forall fuel pi po rem s,
    0 <= po < 4096 -> 0 <= rem ->
    (forall j, 0 <= j < rem ->
       attributes (tables s process) (pi + (po + j) / 4096) <> Unmapped) ->
    ZeroBlock_loop L R fuel process dest_addr size pi po rem s
    = WriteBlock_loop L R fuel process dest_addr size pi po
        (Bytes (repeat 0 (Z.to_nat rem))) rem s.
Proof.
  induction fuel as [| fuel IH]; intros pi po rem s Hpo Hrem Hpages;
    cbn [ZeroBlock_loop WriteBlock_loop].
  - reflexivity.
  - destruct (Z.leb_spec rem 0); [reflexivity |].
    rewrite PAGE_SIZE_val. set (ca := Z.min (4096 - po) rem).
    assert (Hca : 0 < ca <= rem /\ ca <= 4096 - po) by (unfold ca; lia).
    pose proof (Hpages 0 ltac:(lia)) as Hattr.
    replace ((po + 0) / 4096) with 0 in Hattr
      by (symmetry; apply Z.div_small; lia).
    rewrite Z.add_0_r in Hattr.
    assert (Hpage : ZeroBlock_page L R process dest_addr size pi po ca s
                    = WriteBlock_page L R process dest_addr size pi po
                        (Bytes (repeat 0 (Z.to_nat rem))) ca s).
    { unfold ZeroBlock_page, WriteBlock_page, bind, get. cbn [buffer_read].
      rewrite firstn_repeat by lia.
      destruct (attributes (tables s process) pi);
        [contradiction | reflexivity | reflexivity | reflexivity]. }
    unfold bind. rewrite <- Hpage.
    destruct (ZeroBlock_page L R process dest_addr size pi po ca s)
      as [[[] s1] | |] eqn:Hrun1; [| reflexivity | reflexivity].
    cbn [buffer_advance]. rewrite skipn_repeat.
    replace (Z.to_nat rem - Z.to_nat ca)%nat with (Z.to_nat (rem - ca)) by lia.
    apply IH; [lia | lia |].
    intros j Hj.
    destruct (data_only_ZeroBlock_page _ _ _ _ _ _ _ _ _ _ _ Hrun1) as [-> _].
    assert (Eca : ca = 4096 - po) by lia.
    replace (pi + 1 + (0 + j) / 4096)
      with (pi + (po + (j + ca)) / 4096); [apply Hpages; lia |].
    replace (po + (j + ca)) with (1 * 4096 + j) by lia.
    rewrite Z.div_add_l by lia. rewrite Z.add_0_l. lia.
Qed.

(** X12: [ZeroBlock] over pages that are unmapped or have attribute
    [Memory] and a pointer returns and stores a zero at the host location
    of each guest address of the range, across the page boundaries; and on
    a range without an unmapped page, whatever its pages are, it is
    [WriteBlock] from a buffer of zeros, with the same rasterizer calls and
    the same result. *)
Theorem ZeroBlock_is_WriteBlock_of_zeros :
  forall (L : Layout) (R : Rasterizer) (s : MemorySystem) (process : nat)
         (v size : Z),
    0 <= v -> 0 <= size ->
    ((forall k, 0 <= k < size ->
        let i := Z.shiftr (v + k) PAGE_BITS in
        i < PAGE_TABLE_NUM_ENTRIES
        /\ (attributes (tables s process) i = Unmapped
            \/ (attributes (tables s process) i = Memory
                /\ pointers (tables s process) i <> None))) ->
     exists s',
       ZeroBlock L R process v size s = Ok (tt, s')
       /\ same_control s s'
       /\ mem s' = write_bytes (tables s process) (mem s) v
                     (repeat 0 (Z.to_nat size))
       /\ forall k q, 0 <= k < size ->
            block_target (tables s process) (v + k) = Some q ->
            mem s' q = 0)
    /\ ((forall k, 0 <= k < size ->
           attributes (tables s process) (Z.shiftr (v + k) PAGE_BITS)
           <> Unmapped) ->
        ZeroBlock L R process v size s
        = WriteBlock L R process v (Bytes (repeat 0 (Z.to_nat size))) size s).
Proof.
  intros L R s process v size Hv Hsize.
  pose proof (Z.mod_pos_bound v 4096 ltac:(lia)) as Hpo.
  pose proof (Z.div_mod v 4096 ltac:(lia)) as Ev.
  unfold ZeroBlock, WriteBlock. rewrite shiftr_page, land_page_mask.
  split.
  - intros Hpages.
    destruct (ZeroBlock_loop_spec L R process v size (Z.to_nat size)
                (v / 4096) (v mod 4096) size s Hpo ltac:(lia))
      as (s' & Hrun & Hc & Hm).
    { intros j Hj. cbn zeta. rewrite page_of_sum by lia.
      rewrite <- shiftr_page. now apply Hpages. }
    replace (v / 4096 * 4096 + v mod 4096) with v in Hm by lia.
    exists s'. split; [exact Hrun |]. split; [exact Hc |].
    split; [exact Hm |].
    intros k q Hk Hq. rewrite Hm. clear Hm Hrun Hc.
    assert (Hgen : forall n m a,
              m q = 0
              \/ (exists j, 0 <= j < Z.of_nat n
                            /\ block_target (tables s process) (a + j)
                               = Some q) ->
              write_bytes (tables s process) m a (repeat 0 n) q = 0).
    { induction n as [| n IHn]; intros m a Hcase.
      { destruct Hcase as [H0 | (j & Hj & _)]; [exact H0 | lia]. }
      cbn [repeat write_bytes]. apply IHn.
      destruct (block_target (tables s process) a) as [q0 |] eqn:E0.
      - destruct (hptr_eqb q0 q) eqn:Eq.
        + apply hptr_eqb_eq in Eq. subst q0. left. apply store_byte_same.
        + assert (Hne : q <> q0)
            by (intros ->; rewrite hptr_eqb_refl in Eq; discriminate).
          rewrite store_byte_other by exact Hne.
          destruct Hcase as [H0 | (j & Hj & Hjq)]; [now left |].
          right. exists (j - 1).
          destruct (Z.eq_dec j 0) as [-> | Hj0].
          * rewrite Z.add_0_r in Hjq. congruence.
          * split; [lia |].
            now replace (a + 1 + (j - 1)) with (a + j) by lia.
      - destruct Hcase as [H0 | (j & Hj & Hjq)]; [now left |].
        right. exists (j - 1).
        destruct (Z.eq_dec j 0) as [-> | Hj0].
        * rewrite Z.add_0_r in Hjq. congruence.
        * split; [lia |].
          now replace (a + 1 + (j - 1)) with (a + j) by lia. }
    apply Hgen. right. exists k. split; [lia | exact Hq].
  - intros Hpages.
    apply ZeroBlock_loop_is_WriteBlock_loop; [exact Hpo | exact Hsize |].
    intros j Hj. rewrite page_of_sum by lia. rewrite <- shiftr_page.
    now apply Hpages.
Qed.

Lemma ZeroBlock_is_WriteBlock_of_zeros_witness :
  exists s',
    ZeroBlock ctr_layout idle_rasterizer 0 0x00100FFE 4
      (state_after ctr_layout idle_rasterizer vram_map_ops) = Ok (tt, s')
    /\ mem s' {| blk := HostBuf 0; ofs := 0x1000 |} = 0.
Proof.
  destruct (ZeroBlock_is_WriteBlock_of_zeros ctr_layout idle_rasterizer
              (state_after ctr_layout idle_rasterizer vram_map_ops)
              0%nat 0x00100FFE 4) as [H _]; [lia | lia |].
  destruct H as (s' & Hrun & _ & _ & Hz).
  - intros k Hk.
    assert (E : k = 0 \/ k = 1 \/ k = 2 \/ k = 3) by lia.
    destruct E as [-> | [-> | [-> | ->]]];
      (split; [vm_compute; reflexivity |]);
      right; (split; [vm_compute; reflexivity | vm_compute; discriminate]).
  - exists s'. split; [exact Hrun |].
    apply (Hz 2); [lia | vm_compute; reflexivity].
Defined.

(** ** Copies between guest ranges *)

Lemma memcpy_from_app m :
  forall n1 n2 p,
    memcpy_from m p (n1 + n2)
    = memcpy_from m p n1 ++ memcpy_from m (ptr_add p (Z.of_nat n1)) n2.
Proof.
  induction n1 as [| n1 IH]; intros n2 p.
  - simpl. now rewrite ptr_add_0.
  - cbn [Nat.add memcpy_from app]. rewrite IH, ptr_add_add.
    replace (Z.of_nat (S n1)) with (1 + Z.of_nat n1) by lia. reflexivity.
Qed.

(** One page of [WriteBlock], whatever the source buffer is. *)
Lemma WriteBlock_page_buffer L R process dest_addr size pi po src ca s :
  let chunk := buffer_read (mem s) src (Z.to_nat ca) in
  0 <= po -> po + Z.of_nat (length chunk) <= 4096 ->
  pi < PAGE_TABLE_NUM_ENTRIES ->
  attributes (tables s process) pi = Unmapped
  \/ (attributes (tables s process) pi = Memory
      /\ pointers (tables s process) pi <> None) ->
  exists s',
    WriteBlock_page L R process dest_addr size pi po src ca s = Ok (tt, s')
    /\ same_control s s'
    /\ mem s' = write_bytes (tables s process) (mem s) (pi * 4096 + po) chunk.
Proof.
  intros chunk Hpo Hlen Hpi Hattr. unfold WriteBlock_page, bind, get.
  fold chunk. apply Z.ltb_lt in Hpi. rewrite Hpi.
  destruct Hattr as [Ha | [Ha Hp]]; rewrite Ha.
  - eexists. split; [reflexivity |]. split; [repeat split |].
    cbn [mem emit]. symmetry. apply write_bytes_no_target.
    intros j Hj. unfold block_target.
    replace (pi * 4096 + po + j) with (pi * 4096 + (po + j)) by lia.
    destruct (page_parts pi (po + j) ltac:(lia)) as [-> _].
    now rewrite Ha.
  - destruct (pointers (tables s process) pi) as [p |] eqn:Ep;
      [| contradiction].
    eexists. split; [reflexivity |]. split; [repeat split |].
    cbn [mem with_mem]. symmetry.
    now apply write_bytes_memory_page.
Qed.

(** [WriteBlock] from a pointer into host memory, when the bytes it reads
    are not among the locations it writes. *)
Lemma WriteBlock_loop_hostptr L R process dest_addr size :
  forall fuel pi po q rem s,
    0 <= po < 4096 -> 0 <= rem <= Z.of_nat fuel ->
    (forall j, 0 <= j < rem ->
       let i := pi + (po + j) / 4096 in
       i < PAGE_TABLE_NUM_ENTRIES
       /\ (attributes (tables s process) i = Unmapped
           \/ (attributes (tables s process) i = Memory
               /\ pointers (tables s process) i <> None))) ->
    (forall j k, 0 <= j < rem -> 0 <= k < rem ->
       block_target (tables s process) (pi * 4096 + po + j)
       <> Some (ptr_add q k)) ->
    exists s',
      WriteBlock_loop L R fuel process dest_addr size pi po (HostPtr q) rem s
      = Ok (tt, s')
      /\ same_control s s'
      /\ mem s' = write_bytes (tables s process) (mem s) (pi * 4096 + po)
                    (memcpy_from (mem s) q (Z.to_nat rem)).
Proof.
  induction fuel as [| fuel IH]; intros pi po q rem s Hpo Hrem Hpages Hdis.
  - rewrite WriteBlock_loop_done by lia. replace rem with 0 by lia.
    exists s. repeat split.
  - destruct (Z.eq_dec rem 0) as [-> | Hnz].
    { rewrite WriteBlock_loop_done by lia. exists s. repeat split. }
    cbn [WriteBlock_loop]. destruct (Z.leb_spec rem 0); [lia |].
    rewrite PAGE_SIZE_val. set (ca := Z.min (4096 - po) rem).
    assert (Hca : 0 < ca <= rem /\ ca <= 4096 - po) by (unfold ca; lia).
    destruct (Hpages 0 ltac:(lia)) as [Hpi Hattr]. cbn zeta in Hpi, Hattr.
    replace ((po + 0) / 4096) with 0 in Hpi, Hattr
      by (symmetry; apply Z.div_small; lia).
    rewrite Z.add_0_r in Hpi, Hattr.
    destruct (WriteBlock_page_buffer L R process dest_addr size pi po
                (HostPtr q) ca s) as (s1 & Hrun1 & Hc1 & Hm1); auto.
    { lia. }
    { cbn [buffer_read]. rewrite memcpy_from_length. lia. }
    cbn [buffer_read] in Hm1.
    rewrite (bind_eq _ _ _ _ _ Hrun1). cbn [buffer_advance].
    assert (Hkeep : forall k, 0 <= k < rem - ca ->
              mem s1 (ptr_add (ptr_add q ca) k) = mem s (ptr_add (ptr_add q ca) k)).
    { intros k Hk. rewrite Hm1. apply write_bytes_elsewhere.
      intros j Hj. rewrite memcpy_from_length in Hj.
      rewrite ptr_add_add. apply Hdis; lia. }
    destruct (IH (pi + 1) 0 (ptr_add q ca) (rem - ca) s1)
      as (s2 & Hrun2 & Hc2 & Hm2).
    + lia.
    + lia.
    + intros j Hj. cbn zeta. destruct Hc1 as [-> _].
      assert (Eca : ca = 4096 - po) by lia.
      replace (pi + 1 + (0 + j) / 4096)
        with (pi + (po + (j + ca)) / 4096); [apply Hpages; lia |].
      replace (po + (j + ca)) with (1 * 4096 + j) by lia.
      rewrite Z.div_add_l by lia. rewrite Z.add_0_l. lia.
    + intros j k Hj Hk. destruct Hc1 as [-> _].
      assert (Eca : ca = 4096 - po) by lia.
      rewrite ptr_add_add.
      replace ((pi + 1) * 4096 + 0 + j) with (pi * 4096 + po + (ca + j))
        by lia.
      apply Hdis; lia.
    + exists s2. split; [exact Hrun2 |].
      split; [eapply same_control_trans; eauto |].
      rewrite Hm2. destruct Hc1 as [-> _].
      rewrite (memcpy_from_ext (mem s1) (mem s) _ _)
        by (intros k Hk; apply Hkeep; lia).
      rewrite Hm1.
      replace (Z.to_nat rem) with (Z.to_nat ca + Z.to_nat (rem - ca))%nat
        by lia.
      rewrite memcpy_from_app, write_bytes_app, memcpy_from_length.
      rewrite Z2Nat.id by lia.
      destruct (Z.eq_dec ca (4096 - po)) as [Eca | Hne].
      * f_equal. lia.
      * replace (Z.to_nat (rem - ca)) with 0%nat by lia. reflexivity.
Qed.

Lemma CopyBlock_loop_done L R dp sp da sa size fuel pi po rem s :
  rem <= 0 ->
  CopyBlock_loop L R fuel dp sp da sa size pi po rem s = Ok (tt, s).
Proof.
  intros H. destruct fuel; cbn [CopyBlock_loop];
    destruct (Z.leb_spec rem 0); try lia; reflexivity.
Qed.

Lemma CopyBlock_loop_memory L R dp sp size :
  forall fuel da sa pi po rem s,
    0 <= po < 4096 -> 0 <= rem <= Z.of_nat fuel ->
    0 <= da -> da + rem <= 2 ^ 32 ->
    (forall j, 0 <= j < rem ->
       let i := pi + (po + j) / 4096 in
       i < PAGE_TABLE_NUM_ENTRIES
       /\ (attributes (tables s sp) i = Unmapped
           \/ (attributes (tables s sp) i = Memory
               /\ pointers (tables s sp) i <> None))) ->
    (forall j, 0 <= j < rem ->
       let i := Z.shiftr (da + j) PAGE_BITS in
       attributes (tables s dp) i = Unmapped
       \/ (attributes (tables s dp) i = Memory
           /\ pointers (tables s dp) i <> None)) ->
    (forall j k q, 0 <= j < rem -> 0 <= k < rem ->
       block_target (tables s dp) (da + j) = Some q ->
       block_target (tables s sp) (pi * 4096 + po + k) <> Some q) ->
    exists s',
      CopyBlock_loop L R fuel dp sp da sa size pi po rem s = Ok (tt, s')
      /\ same_control s s'
      /\ mem s' = write_bytes (tables s dp) (mem s) da
                    (read_bytes (tables s sp) (mem s) (pi * 4096 + po)
                       (Z.to_nat rem)).
Proof.
  induction fuel as [| fuel IH];
    intros da sa pi po rem s Hpo Hrem Hda Hend Hsrc Hdst Hdis.
  - rewrite CopyBlock_loop_done by lia. replace rem with 0 by lia.
    exists s. repeat split.
  - destruct (Z.eq_dec rem 0) as [-> | Hnz].
    { rewrite CopyBlock_loop_done by lia. exists s. repeat split. }
    cbn [CopyBlock_loop]. destruct (Z.leb_spec rem 0); [lia |].
    rewrite PAGE_SIZE_val. set (ca := Z.min (4096 - po) rem).
    assert (Hca : 0 < ca <= rem /\ ca <= 4096 - po) by (unfold ca; lia).
    destruct (Hsrc 0 ltac:(lia)) as (Hpi & Hattr). cbn zeta in Hpi, Hattr.
    replace ((po + 0) / 4096) with 0 in Hpi, Hattr
      by (symmetry; apply Z.div_small; lia).
    rewrite Z.add_0_r in Hpi, Hattr.
    pose proof (Z.mod_pos_bound da 4096 ltac:(lia)) as Hdo.
    pose proof (Z.div_mod da 4096 ltac:(lia)) as Eda.
    assert (Hdpages : forall j, 0 <= j < ca ->
              let i := da / 4096 + (da mod 4096 + j) / 4096 in
              i < PAGE_TABLE_NUM_ENTRIES
              /\ (attributes (tables s dp) i = Unmapped
                  \/ (attributes (tables s dp) i = Memory
                      /\ pointers (tables s dp) i <> None))).
    { intros j Hj. cbn zeta. rewrite page_of_sum by lia.
      rewrite <- shiftr_page. split; [| apply Hdst; lia].
      rewrite shiftr_page, PAGE_TABLE_NUM_ENTRIES_val.
      apply Z.div_lt_upper_bound; lia. }
    assert (Hwrite : exists s1,
              CopyBlock_page L R dp sp da sa size pi po ca s = Ok (tt, s1)
              /\ same_control s s1
              /\ mem s1 = write_bytes (tables s dp) (mem s) da
                            (read_bytes (tables s sp) (mem s)
                               (pi * 4096 + po) (Z.to_nat ca))).
    { unfold CopyBlock_page, bind, get.
      apply Z.ltb_lt in Hpi. rewrite Hpi.
      destruct Hattr as [Ha | [Ha Hp]]; rewrite Ha.
      - unfold log, modify, ZeroBlock. rewrite shiftr_page, land_page_mask.
        set (e := LogError _ _).
        destruct (ZeroBlock_loop_spec L R dp da ca (Z.to_nat ca)
                    (da / 4096) (da mod 4096) ca (emit s e))
          as (s1 & Hrun1 & Hc1 & Hm1); try lia.
        { exact Hdpages. }
        exists s1. split; [exact Hrun1 |]. split.
        { eapply same_control_trans; [| exact Hc1]. repeat split. }
        rewrite Hm1. cbn [tables mem emit].
        replace (da / 4096 * 4096 + da mod 4096) with da by lia.
        f_equal. symmetry. apply read_bytes_no_target.
        intros j Hj. unfold block_target.
        replace (pi * 4096 + po + j) with (pi * 4096 + (po + j)) by lia.
        destruct (page_parts pi (po + j) ltac:(lia)) as [-> _].
        now rewrite Ha.
      - destruct (pointers (tables s sp) pi) as [p |] eqn:Ep;
          [| contradiction].
        assert (Hsrc_target : forall k, 0 <= k < ca ->
                  block_target (tables s sp) (pi * 4096 + po + k)
                  = Some (ptr_add (ptr_add p po) k)).
        { intros k Hk. unfold block_target.
          replace (pi * 4096 + po + k) with (pi * 4096 + (po + k)) by lia.
          destruct (page_parts pi (po + k) ltac:(lia)) as [-> ->].
          now rewrite Ha, Ep, ptr_add_add. }
        unfold WriteBlock. rewrite shiftr_page, land_page_mask.
        destruct (WriteBlock_loop_hostptr L R dp da ca (Z.to_nat ca)
                    (da / 4096) (da mod 4096) (ptr_add p po) ca s)
          as (s1 & Hrun1 & Hc1 & Hm1); try lia.
        + exact Hdpages.
        + intros j k Hj Hk E.
          replace (da / 4096 * 4096 + da mod 4096 + j) with (da + j) in E
            by lia.
          apply (Hdis j k _ ltac:(lia) ltac:(lia) E).
          now apply Hsrc_target.
        + exists s1. split; [exact Hrun1 |]. split; [exact Hc1 |].
          rewrite Hm1.
          replace (da / 4096 * 4096 + da mod 4096) with da by lia.
          f_equal. symmetry. apply read_bytes_memory_page; auto; lia. }
    destruct Hwrite as (s1 & Hrun1 & Hc1 & Hm1).
    rewrite (bind_eq _ _ _ _ _ Hrun1).
    destruct (Z.eq_dec rem ca) as [Erem | Hmore].
    { rewrite CopyBlock_loop_done by lia.
      exists s1. split; [reflexivity |]. split; [exact Hc1 |].
      now rewrite Hm1, Erem. }
    assert (Eca : ca = 4096 - po) by lia.
    rewrite (u32_small (da + ca)) by lia.
    pose proof Hc1 as (Et & _).
    assert (Hkeep : forall k q, 0 <= k < rem - ca ->
              block_target (tables s sp) ((pi + 1) * 4096 + 0 + k) = Some q ->
              mem s1 q = mem s q).
    { intros k q Hk Hq. rewrite Hm1. apply write_bytes_elsewhere.
      intros j Hj E. rewrite read_bytes_length in Hj.
      apply (Hdis j (ca + k) q ltac:(lia) ltac:(lia) E).
      now replace (pi * 4096 + po + (ca + k)) with ((pi + 1) * 4096 + 0 + k)
        by lia. }
    destruct (IH (da + ca) (u32 (sa + ca)) (pi + 1) 0 (rem - ca) s1)
      as (s2 & Hrun2 & Hc2 & Hm2); try lia.
    + intros j Hj. cbn zeta. rewrite Et.
      replace (pi + 1 + (0 + j) / 4096)
        with (pi + (po + (j + ca)) / 4096); [apply Hsrc; lia |].
      replace (po + (j + ca)) with (1 * 4096 + j) by lia.
      rewrite Z.div_add_l by lia. rewrite Z.add_0_l. lia.
    + intros j Hj. cbn zeta. rewrite Et.
      replace (da + ca + j) with (da + (ca + j)) by lia. apply Hdst. lia.
    + intros j k q Hj Hk. rewrite Et. intros E.
      replace (da + ca + j) with (da + (ca + j)) in E by lia.
      replace ((pi + 1) * 4096 + 0 + k) with (pi * 4096 + po + (ca + k))
        by lia.
      apply (Hdis (ca + j) (ca + k) q); auto; lia.
    + exists s2. split; [exact Hrun2 |].
      split; [eapply same_control_trans; eauto |].
      rewrite Hm2, Et.
      rewrite (read_bytes_ext _ (mem s1) (mem s))
        by (intros k q Hk Hq; apply (Hkeep k q); [lia | exact Hq]).
      rewrite Hm1.
      replace (Z.to_nat rem) with (Z.to_nat ca + Z.to_nat (rem - ca))%nat
        by lia.
      rewrite read_bytes_app, write_bytes_app, read_bytes_length.
      rewrite Z2Nat.id by lia. do 2 f_equal. lia.
Qed.

(** X13: [CopyBlock] between pages that are unmapped or have attribute
    [Memory] and a pointer, when no location it writes is one it reads,
    returns, and its effect on host memory is that of storing at the guest
    addresses [dest], [dest + 1], ... of the destination process the bytes
    found at the guest addresses [src], [src + 1], ... of the source
    process, across the page boundaries of both; an unmapped source page
    counts as zeros, bytes for an unmapped destination page are dropped. *)
Theorem CopyBlock_copies_guest_bytes :
  forall (L : Layout) (R : Rasterizer) (s : MemorySystem)
         (dest_process src_process : nat) (dest_addr src_addr size : Z),
    0 <= src_addr -> 0 <= dest_addr -> 0 <= size ->
    src_addr + size <= 2 ^ 32 -> dest_addr + size <= 2 ^ 32 ->
    (forall k, 0 <= k < size ->
       let i := Z.shiftr (src_addr + k) PAGE_BITS in
       attributes (tables s src_process) i = Unmapped
       \/ (attributes (tables s src_process) i = Memory
           /\ pointers (tables s src_process) i <> None)) ->
    (forall k, 0 <= k < size ->
       let i := Z.shiftr (dest_addr + k) PAGE_BITS in
       attributes (tables s dest_process) i = Unmapped
       \/ (attributes (tables s dest_process) i = Memory
           /\ pointers (tables s dest_process) i <> None)) ->
    (forall j k q, 0 <= j < size -> 0 <= k < size ->
       block_target (tables s dest_process) (dest_addr + j) = Some q ->
       block_target (tables s src_process) (src_addr + k) <> Some q) ->
    exists s',
      CopyBlock L R dest_process src_process dest_addr src_addr size s
      = Ok (tt, s')
      /\ same_control s s'
      /\ mem s' = write_bytes (tables s dest_process) (mem s) dest_addr
                    (read_bytes (tables s src_process) (mem s) src_addr
                       (Z.to_nat size))
      /\ forall k q,
           0 <= k < size ->
           block_target (tables s dest_process) (dest_addr + k) = Some q ->
           (forall j, 0 <= j < size -> j <> k ->
              block_target (tables s dest_process) (dest_addr + j)
              <> Some q) ->
           mem s' q
           = match block_target (tables s src_process) (src_addr + k) with
             | Some q' => Z.land (mem s q') 255
             | None => 0
             end.
Proof.
  intros L R s dp sp da sa size Hsa Hda Hsize Hsend Hdend Hsrc Hdst Hdis.
  unfold CopyBlock. rewrite shiftr_page, land_page_mask.
  pose proof (Z.mod_pos_bound sa 4096 ltac:(lia)) as Hpo.
  pose proof (Z.div_mod sa 4096 ltac:(lia)) as Esa.
  destruct (CopyBlock_loop_memory L R dp sp size (Z.to_nat size) da sa
              (sa / 4096) (sa mod 4096) size s)
    as (s' & Hrun & Hc & Hm); try lia.
  - intros j Hj. cbn zeta. rewrite page_of_sum by lia.
    rewrite <- shiftr_page. split; [| apply Hsrc; lia].
    rewrite shiftr_page, PAGE_TABLE_NUM_ENTRIES_val.
    apply Z.div_lt_upper_bound; lia.
  - exact Hdst.
  - intros j k q Hj Hk E.
    replace (sa / 4096 * 4096 + sa mod 4096 + k) with (sa + k) by lia.
    now apply (Hdis j k q).
  - replace (sa / 4096 * 4096 + sa mod 4096) with sa in Hm by lia.
    exists s'. split; [exact Hrun |]. split; [exact Hc |].
    split; [exact Hm |].
    intros k q Hk Hq Hothers. rewrite Hm.
    rewrite (write_bytes_read _ q _ (mem s) da k);
      rewrite ?read_bytes_length; try lia; auto.
    + rewrite read_bytes_nth by lia. rewrite Z2Nat.id by lia.
      destruct (block_target (tables s sp) (sa + k)); reflexivity.
    + intros j Hj. apply Hothers. lia.
Qed.

Lemma CopyBlock_copies_guest_bytes_witness :
  exists s',
    CopyBlock ctr_layout idle_rasterizer 0 0 0x00101800 0x00100FFE 4
      (state_after ctr_layout idle_rasterizer vram_map_ops) = Ok (tt, s')
    /\ same_control (state_after ctr_layout idle_rasterizer vram_map_ops) s'.
Proof.
  destruct (CopyBlock_copies_guest_bytes ctr_layout idle_rasterizer
              (state_after ctr_layout idle_rasterizer vram_map_ops)
              0%nat 0%nat 0x00101800 0x00100FFE 4)
    as (s' & Hrun & Hc & _).
  - lia.
  - lia.
  - lia.
  - vm_compute. discriminate.
  - vm_compute. discriminate.
  - intros k Hk.
    assert (E : k = 0 \/ k = 1 \/ k = 2 \/ k = 3) by lia.
    destruct E as [-> | [-> | [-> | ->]]];
      right; (split; [vm_compute; reflexivity | vm_compute; discriminate]).
  - intros k Hk.
    assert (E : k = 0 \/ k = 1 \/ k = 2 \/ k = 3) by lia.
    destruct E as [-> | [-> | [-> | ->]]];
      right; (split; [vm_compute; reflexivity | vm_compute; discriminate]).
  - intros j k q Hj Hk.
    assert (Ej : j = 0 \/ j = 1 \/ j = 2 \/ j = 3) by lia.
    assert (Ek : k = 0 \/ k = 1 \/ k = 2 \/ k = 3) by lia.
    destruct Ej as [-> | [-> | [-> | ->]]];
      destruct Ek as [-> | [-> | [-> | ->]]];
      vm_compute; intros E E'; rewrite <- E in E'; discriminate E'.
  - exists s'. split; [exact Hrun | exact Hc].
Defined.

(** ** C strings *)

Lemma u32_add_l x y : u32 (u32 x + y) = u32 (x + y).
Proof. unfold u32. now rewrite Zplus_mod_idemp_l. Qed.

(** What the loop of [ReadCString] returns from address [a]: at most [n]
    bytes, each of them non-zero and read through the pointer of its page,
    and, when fewer than [n], stopped by a zero byte or by a page without
    a pointer. *)
Lemma ReadCString_loop_spec pt m :
  forall n a,
    0 <= a < 2 ^ 32 ->
    let str := ReadCString_loop n pt m a in
    (length str <= n)%nat
    /\ (forall k, (k < length str)%nat ->
          exists p,
            pointers pt (Z.shiftr (u32 (a + Z.of_nat k)) PAGE_BITS) = Some p
            /\ nth k str 0
               = m (ptr_add p (Z.land (u32 (a + Z.of_nat k)) PAGE_MASK))
            /\ nth k str 0 <> 0)
    /\ ((length str < n)%nat ->
        match pointers pt
                (Z.shiftr (u32 (a + Z.of_nat (length str))) PAGE_BITS) with
        | Some p =>
            m (ptr_add p
                 (Z.land (u32 (a + Z.of_nat (length str))) PAGE_MASK)) = 0
        | None => True
        end).
Proof.
  induction n as [| n IH]; intros a Ha; cbn zeta; cbn [ReadCString_loop].
  - cbn [length]. split; [lia |]. split; [intros k Hk; lia | lia].
  - destruct (pointers pt (Z.shiftr a PAGE_BITS)) as [p |] eqn:Ep.
    + destruct (Z.eqb_spec (m (ptr_add p (Z.land a PAGE_MASK))) 0)
        as [Ez | Hnz].
      * cbn [length]. split; [lia |]. split; [intros k Hk; lia |].
        intros _. rewrite Z.add_0_r, u32_small by lia. now rewrite Ep.
      * destruct (IH (u32 (a + 1)) (u32_range _)) as (Hlen & Hbytes & Hstop).
        cbn [length]. split; [lia |]. split.
        -- intros [| k] Hk.
           ++ exists p. rewrite Z.add_0_r, u32_small by lia.
              cbn [nth]. auto.
           ++ destruct (Hbytes k ltac:(lia)) as (p' & Hp' & Hv & Hne).
              rewrite u32_add_l in Hp', Hv.
              replace (a + Z.of_nat (S k)) with (a + 1 + Z.of_nat k) by lia.
              exists p'. cbn [nth]. auto.
        -- intros Hlt. specialize (Hstop ltac:(lia)).
           rewrite u32_add_l in Hstop.
           now replace (a + Z.of_nat (S (length (ReadCString_loop n pt m
                                                   (u32 (a + 1))))))
             with (a + 1 + Z.of_nat (length (ReadCString_loop n pt m
                                               (u32 (a + 1))))) by lia.
    + cbn [length]. split; [lia |]. split; [intros k Hk; lia |].
      intros _. rewrite Z.add_0_r, u32_small by lia. now rewrite Ep.
Qed.

(** X14: [ReadCString] returns at most [max_length] bytes, none of them
    zero, each read through the direct pointer of its page at the
    addresses [vaddr], [vaddr + 1], ... (modulo 2^32); when it returns
    fewer, the next address holds a zero byte or lies on a page without a
    pointer, so that an unmapped or rasterizer-cached page ends the string
    without a flush and without an error; and the memory system is left
    untouched. *)
Theorem ReadCString_stops_at_terminator_or_pointerless_page :
  forall (s : MemorySystem) (t : nat) (vaddr max_length : Z),
    current_page_table s = Some t ->
    0 <= vaddr < 2 ^ 32 -> 0 <= max_length ->
    exists str,
      ReadCString vaddr max_length s = Ok (str, s)
      /\ Z.of_nat (length str) <= max_length
      /\ (forall k, (k < length str)%nat ->
            exists p,
              pointers (tables s t)
                (Z.shiftr (u32 (vaddr + Z.of_nat k)) PAGE_BITS) = Some p
              /\ nth k str 0
                 = mem s (ptr_add p
                            (Z.land (u32 (vaddr + Z.of_nat k)) PAGE_MASK))
              /\ nth k str 0 <> 0)
      /\ (Z.of_nat (length str) < max_length ->
          match pointers (tables s t)
                  (Z.shiftr (u32 (vaddr + Z.of_nat (length str))) PAGE_BITS)
          with
          | Some p =>
              mem s (ptr_add p
                       (Z.land (u32 (vaddr + Z.of_nat (length str)))
                          PAGE_MASK)) = 0
          | None => True
          end)
      /\ (pointers (tables s t) (Z.shiftr vaddr PAGE_BITS) = None ->
          str = []).
Proof.
  intros s t vaddr max_length Hcur Hv Hmax. unfold ReadCString.
  destruct (Z.leb_spec max_length 0) as [Hzero | Hpos].
  - exists []. cbn [length]. split; [reflexivity |]. split; [lia |].
    split; [intros k Hk; lia |]. split; [lia | reflexivity].
  - unfold bind, get. rewrite Hcur.
    destruct (ReadCString_loop_spec (tables s t) (mem s)
                (Z.to_nat max_length) vaddr Hv) as (Hlen & Hbytes & Hstop).
    eexists. split; [reflexivity |]. split; [lia |].
    split; [exact Hbytes |]. split; [intros Hlt; apply Hstop; lia |].
    intros Hnull.
    destruct (ReadCString_loop (Z.to_nat max_length) (tables s t) (mem s)
                vaddr) as [| b rest] eqn:E; [reflexivity |].
    destruct (Hbytes 0%nat) as (p & Hp & _); [cbn [length]; lia |].
    rewrite Z.add_0_r, u32_small in Hp by lia. congruence.
Qed.

Lemma ReadCString_stops_at_terminator_or_pointerless_page_witness :
  exists str,
    ReadCString 0x1F000000 16
      (state_after ctr_layout idle_rasterizer vram_page_ops)
    = Ok (str, state_after ctr_layout idle_rasterizer vram_page_ops)
    /\ str = [].
Proof.
  destruct (ReadCString_stops_at_terminator_or_pointerless_page
              (state_after ctr_layout idle_rasterizer vram_page_ops)
              0%nat 0x1F000000 16)
    as (str & Hrun & _ & _ & _ & Hnull).
  - vm_compute. reflexivity.
  - split; [lia | reflexivity].
  - lia.
  - exists str. split; [exact Hrun |]. apply Hnull. vm_compute. reflexivity.
Defined.

(** ** Valid addresses and pointers *)

(** X15: in a reachable state [GetPointer] returns, and its result is null
    exactly on the addresses that [IsValidVirtualAddress] rejects for the
    current table; on those it logs one error, on the others it leaves the
    state as it is. *)
Theorem GetPointer_is_null_exactly_on_invalid_addresses :
  forall (L : Layout) (R : Rasterizer) (s : MemorySystem) (t : nat) (v : Z),
    layout_ok L = true ->
    reachable L R s ->
    current_page_table s = Some t ->
    0 <= v < 2 ^ 32 ->
    exists valid r s',
      IsValidVirtualAddress t v s = Ok (valid, s)
      /\ GetPointer L v s = Ok (r, s')
      /\ (valid = true <-> r <> None)
      /\ (valid = true -> s' = s)
      /\ (valid = false ->
          s' = emit s (LogError "unknown GetPointer" [v])).
Proof.
  intros L R s t v HL Hreach Hcur Hv.
  destruct (reachable_inv _ _ _ Hreach t (Z.shiftr v PAGE_BITS))
    as (_ & _ & _ & _ & Hw).
  unfold IsValidVirtualAddress, GetPointer, bind, get. rewrite Hcur.
  destruct (pointers (tables s t) (Z.shiftr v PAGE_BITS)) as [p |] eqn:Ep.
  - exists true, (Some (ptr_add p (Z.land v PAGE_MASK))), s.
    repeat split; auto; discriminate.
  - destruct (attributes (tables s t) (Z.shiftr v PAGE_BITS)) eqn:Ea;
      cbn [PageType_eqb];
      try (exists false, None, (emit s (LogError "unknown GetPointer" [v]));
           repeat split; auto; intros; congruence).
    destruct (Hw HL eq_refl) as [_ Hat].
    apply At_cacheable in Hat. rewrite shiftr_page, PAGE_SIZE_val in Hat.
    apply (cacheable_page L v HL) in Hat; [| lia].
    destruct (GetPointerForRasterizerCache_ok L v Hat) as [p Hp].
    exists true, (Some p), s. unfold lift, ret. rewrite Hp.
    repeat split; auto; discriminate.
Qed.

Lemma GetPointer_is_null_exactly_on_invalid_addresses_witness :
  exists valid r s',
    IsValidVirtualAddress 0 0x1F000004
      (state_after ctr_layout idle_rasterizer vram_page_ops)
    = Ok (valid, state_after ctr_layout idle_rasterizer vram_page_ops)
    /\ GetPointer ctr_layout 0x1F000004
         (state_after ctr_layout idle_rasterizer vram_page_ops) = Ok (r, s')
    /\ (valid = true <-> r <> None).
Proof.
  destruct (GetPointer_is_null_exactly_on_invalid_addresses ctr_layout
              idle_rasterizer
              (state_after ctr_layout idle_rasterizer vram_page_ops)
              0%nat 0x1F000004)
    as (valid & r & s' & H1 & H2 & H3 & _).
  - reflexivity.
  - apply runs_reachable. vm_compute. reflexivity.
  - vm_compute. reflexivity.
  - split; [lia | reflexivity].
  - exists valid, r, s'. auto.
Defined.

(** ** Marking outside the transition table *)

Lemma mark_page_table_abort L cached v pt :
  (exists pt', mark_page_table L cached v pt = Ok pt')
  \/ mark_page_table L cached v pt = Abort "unreachable".
Proof.
  unfold mark_page_table, GetPointerForRasterizerCache.
  destruct cached, (attributes pt (Z.shiftr v PAGE_BITS)); eauto.
  repeat match goal with
    | |- context [if ?b then _ else _] => destruct b
    end; eauto.
Qed.

Lemma apply_touches_abort L cached :
  forall ts tb,
    (exists tb', apply_touches L cached ts tb = Ok tb')
    \/ apply_touches L cached ts tb = Abort "unreachable".
Proof.
  induction ts as [| [t v] ts IH]; intros tb; cbn [apply_touches]; eauto.
  destruct (mark_page_table_abort L cached v (tb t)) as [[pt ->] | ->];
    [apply IH | now right].
Qed.

Lemma off_transition_table_none L cached i a p :
  off_transition_table cached a = true -> transition L cached i (a, p) = None.
Proof. unfold transition. destruct cached, a; simpl; congruence. Qed.

(** A visit of an entry that is off the transition table is never
    reached with the entry repaired: the visits abort. *)
Lemma apply_touches_stuck L cached :
  forall ts tb t v,
    (forall t' v', In (t', v') ts -> 0 <= v' < 2 ^ 32) ->
    In (t, v) ts ->
    off_transition_table cached (attributes (tb t) (Z.shiftr v PAGE_BITS))
    = true ->
    apply_touches L cached ts tb = Abort "unreachable".
Proof.
  induction ts as [| [t0 v0] ts IH]; intros tb t v Hr Hin Hoff;
    [contradiction |].
  cbn [apply_touches].
  pose proof (mark_page_table_transition L cached v0 (tb t0)
                (Hr t0 v0 (or_introl eq_refl))) as Hstep.
  cbn zeta in Hstep.
  destruct (mark_page_table_abort L cached v0 (tb t0)) as [[pt E] | E];
    rewrite E in *; [| reflexivity].
  destruct Hstep as [Htr Hframe].
  assert (Hkey : t = t0 /\ Z.shiftr v PAGE_BITS = Z.shiftr v0 PAGE_BITS
                 \/ (t <> t0 \/ Z.shiftr v PAGE_BITS <> Z.shiftr v0 PAGE_BITS)).
  { destruct (Nat.eq_dec t t0);
      destruct (Z.eq_dec (Z.shiftr v PAGE_BITS) (Z.shiftr v0 PAGE_BITS));
      auto. }
  destruct Hkey as [[-> Ei] | Hne].
  - rewrite Ei in Hoff.
    rewrite (off_transition_table_none L cached _ _ _ Hoff) in Htr.
    discriminate.
  - apply (IH (updn tb t0 pt) t v).
    + intros t' v' H'. apply (Hr t'). now right.
    + destruct Hin as [E' | Hin]; [| exact Hin].
      injection E' as -> ->. destruct Hne as [Hne | Hne]; now contradiction Hne.
    + destruct (Nat.eq_dec t t0) as [-> | Ht].
      * rewrite updn_same.
        destruct Hne as [Hne | Hne]; [now contradiction Hne |].
        destruct (Hframe _ Hne) as [-> _]. exact Hoff.
      * now rewrite updn_other.
Qed.

(** X16: [RasterizerMarkRegionCached] reaches [UNREACHABLE] whenever a
    registered page table holds, at a virtual alias of the range, a page
    type that the transition table does not list: a page that is already
    rasterizer cached when marking, a page with attribute [Memory] when
    unmarking. In particular the marking is not idempotent: after a call
    that has marked a page mapped as [Memory], the same call again
    aborts. *)
Theorem RasterizerMarkRegionCached_aborts_off_the_transition_table :
  forall (L : Layout) (s : MemorySystem) (start size : Z) (cached : bool)
         (q v : Z) (t : nat),
    layout_ok L = true ->
    0 < start -> 0 < size -> start + size <= 2 ^ 32 ->
    start <= q < start + size -> In v (aliases L q) ->
    In t (page_table_list s) ->
    (off_transition_table cached
       (attributes (tables s t) (Z.shiftr v PAGE_BITS)) = true ->
     RasterizerMarkRegionCached L start size cached s = Abort "unreachable")
    /\ (attributes (tables s t) (Z.shiftr v PAGE_BITS) = Memory ->
        forall s1,
          RasterizerMarkRegionCached L start size true s = Ok (tt, s1) ->
          RasterizerMarkRegionCached L start size true s1
          = Abort "unreachable").
Proof.
  intros L s start size cached q v t HL Hs Hsz Hend Hq Hv Ht.
  pose proof (range_alias_visited L start size q v HL ltac:(lia) Hend Hq Hv)
    as (v' & Hv' & Epage).
  pose proof (fun u => visited_alias_in_range L start size u HL
                         ltac:(lia) Hsz Hend) as Hvisited.
  assert (Ei : Z.shiftr v' PAGE_BITS = Z.shiftr v PAGE_BITS)
    by (rewrite !shiftr_page; exact Epage).
  assert (Hstuck : forall c s0,
            page_table_list s0 = page_table_list s ->
            off_transition_table c
              (attributes (tables s0 t) (Z.shiftr v PAGE_BITS)) = true ->
            RasterizerMarkRegionCached L start size c s0
            = Abort "unreachable").
  { intros c s0 El Hoff. unfold RasterizerMarkRegionCached.
    destruct (Z.eqb_spec start 0) as [| _]; [lia |].
    rewrite mark_pages_eq, El.
    set (n := Z.to_nat (num_pages_of start size)) in *. clearbody n.
    rewrite (apply_touches_stuck L c _ _ t v'); [reflexivity | | |].
    - intros t' u H'. apply in_touches in H'. apply (Hvisited u (proj2 H')).
    - apply in_touches. split; [exact Ht | exact Hv'].
    - rewrite Ei. exact Hoff. }
  split.
  - intros Hoff. apply Hstuck; [reflexivity | exact Hoff].
  - intros Ha s1 Hrun. apply Hstuck.
    + unfold RasterizerMarkRegionCached in Hrun.
      destruct (Z.eqb_spec start 0) as [| _]; [lia |].
      rewrite mark_pages_eq in Hrun.
      set (n := Z.to_nat (num_pages_of start size)) in *. clearbody n.
      destruct (apply_touches L true _ (tables s)); try discriminate.
      cbn [map_result] in Hrun. injection Hrun as <-. reflexivity.
    + unfold RasterizerMarkRegionCached in Hrun.
      destruct (Z.eqb_spec start 0) as [| _]; [lia |].
      rewrite mark_pages_eq in Hrun.
      set (n := Z.to_nat (num_pages_of start size)) in *. clearbody n.
      destruct (apply_touches L true
                  (touches (page_table_list s) (alias_seq L n start))
                  (tables s)) as [tb' | |] eqn:Etouch; try discriminate.
      cbn [map_result] in Hrun. injection Hrun as <-.
      cbn [tables marked].
      assert (Htr : transition L true (Z.shiftr v PAGE_BITS)
                      (entry (tables s) t (Z.shiftr v PAGE_BITS))
                    = Some (entry tb' t (Z.shiftr v PAGE_BITS))).
      { apply (apply_touches_spec L true _ _ _
                 (fun t0 v0 H0 =>
                    proj1 (Hvisited v0 (proj2 (proj1 (in_touches _ _ _ _) H0))))
                 Etouch t (Z.shiftr v PAGE_BITS)).
        exists v'. split; [| exact Ei].
        apply in_touches. split; [exact Ht | exact Hv']. }
      unfold transition, entry in Htr. cbn [fst] in Htr. rewrite Ha in Htr.
      injection Htr as <- _. reflexivity.
Qed.

Lemma RasterizerMarkRegionCached_aborts_off_the_transition_table_witness :
  RasterizerMarkRegionCached ctr_layout 0x18000000 0x1000 true
    (state_after ctr_layout idle_rasterizer vram_page_ops)
  = Abort "unreachable".
Proof.
  destruct (RasterizerMarkRegionCached_aborts_off_the_transition_table
              ctr_layout
              (state_after ctr_layout idle_rasterizer vram_page_ops)
              0x18000000 0x1000 true 0x18000000 0x1F000000 0%nat)
    as [Hoff _].
  - reflexivity.
  - lia.
  - lia.
  - vm_compute. discriminate.
  - lia.
  - vm_compute. left. reflexivity.
  - vm_compute. left. reflexivity.
  - apply Hoff. vm_compute. reflexivity.
Defined.

(** A second visit of an entry that is not unmapped aborts. *)
Lemma apply_touches_twice L cached :
  forall ts1 ts2 tb t v,
    (forall t' v', In (t', v') (ts1 ++ (t, v) :: ts2) -> 0 <= v' < 2 ^ 32) ->
    In (t, v) ts2 ->
    attributes (tb t) (Z.shiftr v PAGE_BITS) <> Unmapped ->
    apply_touches L cached (ts1 ++ (t, v) :: ts2) tb = Abort "unreachable".
Proof.
  intros ts1 ts2 tb t v Hr Hin Hmapped.
  rewrite apply_touches_app.
  destruct (apply_touches_abort L cached ts1 tb) as [[tb1 E1] | E1];
    rewrite E1; [| reflexivity].
  assert (Hmapped1 : attributes (tb1 t) (Z.shiftr v PAGE_BITS) <> Unmapped).
  { destruct (apply_touches_spec L cached ts1 tb tb1
                (fun t' v' H' => Hr t' v' (in_or_app _ _ _ (or_introl H')))
                E1 t (Z.shiftr v PAGE_BITS)) as (Hweak & _ & _).
    unfold entry, transition in Hweak. cbn [fst] in Hweak.
    destruct Hweak as [E | E].
    - injection E as -> _. exact Hmapped.
    - destruct (attributes (tb t) (Z.shiftr v PAGE_BITS)), cached;
        try discriminate; try (now contradiction Hmapped);
        try (injection E as <- _; discriminate).
      destruct (GetPointerForRasterizerCache L _); try discriminate.
      injection E as <- _. discriminate. }
  assert (Hv : 0 <= v < 2 ^ 32).
  { apply (Hr t v). apply in_or_app. right. now left. }
  cbn [apply_touches].
  pose proof (mark_page_table_transition L cached v (tb1 t) Hv) as Hstep.
  cbn zeta in Hstep.
  destruct (mark_page_table_abort L cached v (tb1 t)) as [[pt E] | E];
    rewrite E in *; [| reflexivity].
  destruct Hstep as [Htr _].
  apply (apply_touches_stuck L cached ts2 _ t v).
  - intros t' v' H'. apply (Hr t'). apply in_or_app. right. now right.
  - exact Hin.
  - rewrite updn_same. unfold transition in Htr. cbn [fst] in Htr.
    destruct (attributes (tb1 t) (Z.shiftr v PAGE_BITS)), cached;
      try discriminate; try (now contradiction Hmapped1);
      try (injection Htr as <- _; reflexivity).
    destruct (GetPointerForRasterizerCache L _); try discriminate.
    injection Htr as <- _. reflexivity.
Qed.

(** X17: with a page table registered twice, [RasterizerMarkRegionCached]
    aborts on every range that has a virtual alias on a page the table
    maps, whether it marks or unmarks: the first visit of the entry moves
    it along the transition table, and the second visit finds it in a case
    that the table does not list. *)
Theorem RasterizerMarkRegionCached_aborts_on_double_registration :
  forall (L : Layout) (s : MemorySystem) (start size : Z) (cached : bool)
         (q v : Z) (t : nat) (l1 l2 l3 : list nat),
    layout_ok L = true ->
    0 < start -> 0 < size -> start + size <= 2 ^ 32 ->
    start <= q < start + size -> In v (aliases L q) ->
    page_table_list s = l1 ++ t :: l2 ++ t :: l3 ->
    attributes (tables s t) (Z.shiftr v PAGE_BITS) <> Unmapped ->
    RasterizerMarkRegionCached L start size cached s = Abort "unreachable".
Proof.
  intros L s start size cached q v t l1 l2 l3 HL Hs Hsz Hend Hq Hv El Ha.
  pose proof (range_alias_visited L start size q v HL ltac:(lia) Hend Hq Hv)
    as (v' & Hv' & Epage).
  pose proof (fun u => visited_alias_in_range L start size u HL
                         ltac:(lia) Hsz Hend) as Hvisited.
  assert (Ei : Z.shiftr v' PAGE_BITS = Z.shiftr v PAGE_BITS)
    by (rewrite !shiftr_page; exact Epage).
  unfold RasterizerMarkRegionCached.
  destruct (Z.eqb_spec start 0) as [| _]; [lia |].
  rewrite mark_pages_eq.
  set (n := Z.to_nat (num_pages_of start size)) in *. clearbody n.
  destruct (in_split _ _ Hv') as (vs1 & vs2 & Evs).
  assert (Hr : forall t' u,
            In (t', u) (touches (page_table_list s) (alias_seq L n start)) ->
            0 <= u < 2 ^ 32).
  { intros t' u H'. apply in_touches in H'. apply (Hvisited u (proj2 H')). }
  assert (Esplit :
    touches (page_table_list s) (alias_seq L n start)
    = (touches (page_table_list s) vs1 ++ map (fun u => (u, v')) l1)
        ++ (t, v')
        :: (map (fun u => (u, v')) l2 ++ (t, v')
              :: map (fun u => (u, v')) l3
              ++ touches (page_table_list s) vs2)).
  { rewrite Evs, touches_app. unfold touches at 2. cbn [flat_map].
    fold (touches (page_table_list s) vs2). rewrite El.
    rewrite !map_app. cbn [map]. rewrite !map_app. cbn [map].
    rewrite <- !app_assoc. cbn [app]. rewrite <- !app_assoc. reflexivity. }
  rewrite Esplit in *.
  rewrite (apply_touches_twice L cached); [reflexivity | exact Hr | |].
  - apply in_or_app. right. left. reflexivity.
  - rewrite Ei. exact Ha.
Qed.

Lemma RasterizerMarkRegionCached_aborts_on_double_registration_witness :
  RasterizerMarkRegionCached ctr_layout 0x18000000 0x1000 true
    (state_after ctr_layout idle_rasterizer
       (vram_map_ops ++ [OpRegisterPageTable 0]))
  = Abort "unreachable".
Proof.
  apply (RasterizerMarkRegionCached_aborts_on_double_registration
           ctr_layout
           (state_after ctr_layout idle_rasterizer
              (vram_map_ops ++ [OpRegisterPageTable 0]))
           0x18000000 0x1000 true 0x18000000 0x1F000000 0%nat [] [] []).
  - reflexivity.
  - lia.
  - lia.
  - vm_compute. discriminate.
  - lia.
  - vm_compute. left. reflexivity.
  - vm_compute. reflexivity.
  - vm_compute. discriminate.
Defined.

(** ** Empty and overlong ranges *)

(** X18: a marking of an empty range is not always empty. With [size = 0]
    and a page-aligned [start], [RasterizerMarkRegionCached] does nothing;
    with [size = 0] and a [start] inside a page it marks that page, as it
    does for [size = 1]. *)
Theorem RasterizerMarkRegionCached_empty_range :
  forall (L : Layout) (s : MemorySystem) (start : Z) (cached : bool),
    0 < start < 2 ^ 32 ->
    RasterizerMarkRegionCached L start 0 cached s
    = if Z.land start PAGE_MASK =? 0 then Ok (tt, s)
      else RasterizerMarkRegionCached L start 1 cached s.
Proof.
  intros L s start cached Hs. unfold RasterizerMarkRegionCached.
  destruct (Z.eqb_spec start 0) as [| _]; [lia |].
  rewrite land_page_mask.
  pose proof (Z.div_mod start 4096 ltac:(lia)) as Ediv.
  pose proof (Z.mod_pos_bound start 4096 ltac:(lia)) as Hmod.
  assert (Hpage : 0 <= start / 4096 < 1048576).
  { split; [apply Z.div_pos; lia | apply Z.div_lt_upper_bound; lia]. }
  assert (E1 : num_pages_of start 1 = 1).
  { rewrite num_pages_of_range by lia.
    replace (start + 1 - 1) with start by lia. lia. }
  destruct (Z.eqb_spec (start mod 4096) 0) as [Hal | Hun].
  - assert (E0 : num_pages_of start 0 = 0).
    { unfold num_pages_of. rewrite !shiftr_page, Z.add_0_r.
      rewrite (u32_small start) by lia.
      rewrite (u32_small (start - 1)) by lia.
      replace ((start - 1) / 4096) with (start / 4096 - 1).
      - replace (start / 4096 - 1 - start / 4096) with (-1) by lia.
        reflexivity.
      - apply (Z.div_unique _ _ _ 4095); lia. }
    rewrite E0. reflexivity.
  - assert (E0 : num_pages_of start 0 = 1).
    { unfold num_pages_of. rewrite !shiftr_page, Z.add_0_r.
      rewrite (u32_small start) by lia.
      rewrite (u32_small (start - 1)) by lia.
      replace ((start - 1) / 4096) with (start / 4096).
      - replace (start / 4096 - start / 4096) with 0 by lia. reflexivity.
      - apply (Z.div_unique _ _ _ (start mod 4096 - 1)); lia. }
    rewrite E0, E1. reflexivity.
Qed.

Lemma RasterizerMarkRegionCached_empty_range_witness :
  RasterizerMarkRegionCached ctr_layout 0x18000010 0 true initial
  = if Z.land 0x18000010 PAGE_MASK =? 0 then Ok (tt, initial)
    else RasterizerMarkRegionCached ctr_layout 0x18000010 1 true initial.
Proof.
  apply (RasterizerMarkRegionCached_empty_range ctr_layout initial
           0x18000010 true).
  split; [lia | reflexivity].
Defined.











(** ** Agreement of the marker and the registered page tables *)

Lemma exec_access_same_control L R o s s' :
  is_access o = true -> exec L R o s = Ok (tt, s') -> same_control s s'.
Proof.
  intros Hacc Hrun. destruct o; try discriminate; cbn [exec] in Hrun.
  - eapply data_only_RasterizerFlushVirtualRegion; eauto.
  - eapply data_only_bind; [apply data_only_Read | | exact Hrun].
    intros ?; apply data_only_ret.
  - eapply data_only_Write; eauto.
  - eapply data_only_bind; [apply data_only_ReadBlock_loop | | exact Hrun].
    intros ?; apply data_only_ret.
  - eapply data_only_WriteBlock_loop; eauto.
  - eapply data_only_ZeroBlock_loop; eauto.
  - eapply data_only_CopyBlock_loop; eauto.
  - eapply data_only_bind; [apply data_only_ReadCString | | exact Hrun].
    intros ?; apply data_only_ret.
  - eapply data_only_bind; [apply data_only_GetPointer | | exact Hrun].
    intros ?; apply data_only_ret.
  - eapply data_only_bind; [apply data_only_GetPhysicalPointer | | exact Hrun].
    intros ?; apply data_only_ret.
  - eapply data_only_rasterizer_call; eauto.
Qed.

Lemma marker_agrees_same_control L s s' :
  same_control s s' -> marker_agrees L s -> marker_agrees L s'.
Proof.
  intros (Et & Ec & El & _) H t. unfold marker_agrees in *.
  rewrite Et, Ec, El. apply H.
Qed.

(** What a returning [MapPages] has done. *)
Lemma MapPages_returned L R t base size memory type s s' :
  0 <= base <= PAGE_TABLE_NUM_ENTRIES -> 0 <= size <= PAGE_TABLE_NUM_ENTRIES ->
  MapPages L R t base size memory type s = Ok (tt, s') ->
  cache_marker s' = cache_marker s
  /\ page_table_list s' = page_table_list s
  /\ (forall u, u <> t -> tables s' u = tables s u)
  /\ forall i,
       (base <= i < base + size ->
        (attributes (tables s' t) i, pointers (tables s' t) i)
        = mapped_entry L (cache_marker s) type memory base i)
       /\ (~ base <= i < base + size ->
           attributes (tables s' t) i = attributes (tables s t) i
           /\ pointers (tables s' t) i = pointers (tables s t) i).
Proof.
  intros Hb Hsz Hrun.
  destruct (Z.le_gt_cases (base + size) PAGE_TABLE_NUM_ENTRIES) as [Hin | Hover].
  - destruct (MapPages_entries L R t base size memory type s)
      as (s'' & Hrun' & Hm & Hl & _ & Hother & Hent); try lia.
    rewrite Hrun' in Hrun. injection Hrun as <-. auto.
  - rewrite MapPages_overrun in Hrun by lia. discriminate.
Qed.

Lemma marker_agrees_MapPages L R t base size memory type s s' :
  0 <= base <= PAGE_TABLE_NUM_ENTRIES -> 0 <= size <= PAGE_TABLE_NUM_ENTRIES ->
  type = Unmapped \/ (type = Memory /\ In t (page_table_list s)) ->
  MapPages L R t base size memory type s = Ok (tt, s') ->
  marker_agrees L s -> marker_agrees L s'.
Proof.
  intros Hb Hsz Hty Hrun Hagree.
  destruct (MapPages_returned L R t base size memory type s s' Hb Hsz Hrun)
    as (Hm & Hl & Hother & Hent).
  intros u. rewrite Hm, Hl.
  destruct (Nat.eq_dec u t) as [-> | Hu];
    [| rewrite (Hother u Hu); apply Hagree].
  assert (Hentry : forall i,
            (attributes (tables s' t) i = attributes (tables s t) i)
            \/ (attributes (tables s' t) i
                = fst (mapped_entry L (cache_marker s) type memory base i))).
  { intros i. destruct (Hent i) as [Hin Hout].
    destruct (Z.le_gt_cases base i), (Z.lt_ge_cases i (base + size));
      try (left; apply Hout; lia).
    right. rewrite <- Hin by lia. reflexivity. }
  split.
  - intros Ht i. destruct (Hentry i) as [-> | ->];
      [apply (proj1 (Hagree t) Ht) |].
    unfold mapped_entry.
    destruct Hty as [-> | [-> _]]; cbn [PageType_eqb andb fst].
    + split; intros E; discriminate.
    + destruct (IsCached L (cache_marker s) (i * PAGE_SIZE)) eqn:Ec;
        cbn [fst]; split; intros E; try reflexivity; discriminate.
  - intros Hnot i. destruct (Hentry i) as [-> | ->];
      [apply (proj2 (Hagree t) Hnot) |].
    destruct Hty as [-> | [_ Hreg]]; [reflexivity | contradiction].
Qed.

Lemma alias_seq_window L :
  layout_ok L = true ->
  forall n q v,
    0 <= q < 2 ^ 32 -> In v (alias_seq L n q) ->
    cacheable L v /\ 0 <= v < 2 ^ 32.
Proof.
  intros HL. induction n as [| n IH]; intros q v Hq Hin;
    cbn [alias_seq] in Hin; [contradiction |].
  apply in_app_or in Hin. destruct Hin as [Hin | Hin].
  - now apply (aliases_in_window L q).
  - apply (IH (u32 (q + PAGE_SIZE))); [apply u32_range | exact Hin].
Qed.

Lemma mark_all_other L b :
  forall vs c a,
    (forall v, In v vs -> At L a <> At L v) ->
    IsCached L (mark_all L b vs c) a = IsCached L c a.
Proof.
  induction vs as [| v vs IH]; intros c a Hne; [reflexivity |].
  cbn [mark_all fold_left]. fold (mark_all L b vs (Mark L c v b)).
  rewrite IH by (intros u Hu; apply Hne; now right).
  apply IsCached_Mark_other. apply Hne. now left.
Qed.

Lemma marker_agrees_mark L start size cached s s' :
  layout_ok L = true -> 0 <= start < 2 ^ 32 ->
  RasterizerMarkRegionCached L start size cached s = Ok (tt, s') ->
  marker_agrees L s -> marker_agrees L s'.
Proof.
  intros HL Hs Hrun Hagree. unfold RasterizerMarkRegionCached in Hrun.
  destruct (start =? 0); [injection Hrun as <-; exact Hagree |].
  rewrite mark_pages_eq in Hrun.
  set (n := Z.to_nat (num_pages_of start size)) in *. clearbody n.
  pose proof (fun v => alias_seq_window L HL n start v Hs) as Hwin.
  set (vs := alias_seq L n start) in *. clearbody vs.
  destruct (apply_touches L cached (touches (page_table_list s) vs) (tables s))
    as [tb' | |] eqn:Etouch; try discriminate.
  cbn [map_result] in Hrun. injection Hrun as <-.
  pose proof (apply_touches_spec L cached _ _ _
                (fun t0 v0 H0 =>
                   proj2 (Hwin v0 (proj2 (proj1 (in_touches _ _ _ _) H0))))
                Etouch) as Hspec.
  intros t. cbn [page_table_list cache_marker tables marked]. split.
  - intros Ht i. destruct (Hspec t i) as (_ & Hvisit & Hrest).
    destruct (existsb (fun v => Z.shiftr v PAGE_BITS =? i) vs) eqn:Ev.
    + apply existsb_exists in Ev. destruct Ev as (v & Hv & Evi).
      apply Z.eqb_eq in Evi.
      destruct (Hwin v Hv) as [Hc Hr].
      assert (Htr : transition L cached i (entry (tables s) t i)
                    = Some (entry tb' t i)).
      { apply Hvisit. exists v. split; [| exact Evi].
        apply in_touches. split; assumption. }
      assert (Hmark : IsCached L (mark_all L cached vs (cache_marker s))
                        (i * PAGE_SIZE) = cached).
      { assert (Hat : At L (i * PAGE_SIZE) = At L v).
        { rewrite shiftr_page in Evi. rewrite PAGE_SIZE_val.
          apply At_same_page; auto; try lia.
          - subst i. assert (0 <= v / 4096) by (apply Z.div_pos; lia). lia.
          - rewrite Z.div_mul by lia. now symmetry. }
        apply (mark_all_in L cached vs _ _ v Hv Hat).
        rewrite Hat. now apply At_cacheable. }
      rewrite Hmark. unfold transition, entry in Htr. cbn [fst] in Htr.
      destruct (attributes (tables s t) i), cached; try discriminate;
        try (injection Htr as <- _; split; intros E;
             try reflexivity; discriminate).
      destruct (GetPointerForRasterizerCache L (i * PAGE_SIZE));
        try discriminate.
      injection Htr as <- _. split; intros E; try reflexivity; discriminate.
    + assert (Hno : forall v, In v vs -> Z.shiftr v PAGE_BITS <> i).
      { intros v Hv E.
        assert (Hex : existsb (fun v => Z.shiftr v PAGE_BITS =? i) vs = true).
        { apply existsb_exists. exists v. split; [exact Hv |].
          now apply Z.eqb_eq. }
        congruence. }
      assert (Eentry : entry tb' t i = entry (tables s) t i).
      { apply Hrest. intros v Hin. apply in_touches in Hin.
        apply Hno. apply Hin. }
      unfold entry in Eentry. injection Eentry as -> _.
      rewrite mark_all_other; [apply (proj1 (Hagree t) Ht) |].
      intros v Hv Hat. destruct (Hwin v Hv) as [Hc Hr].
      apply (Hno v Hv). rewrite shiftr_page.
      assert (Hne : At L (i * PAGE_SIZE) <> None).
      { rewrite Hat. now apply At_cacheable. }
      pose proof (At_page_inj L _ _ HL Hat Hne) as Epage.
      rewrite PAGE_SIZE_val, Z.div_mul in Epage by lia. now symmetry.
  - intros Hnot i. destruct (Hspec t i) as (_ & _ & Hrest).
    assert (Eentry : entry tb' t i = entry (tables s) t i).
    { apply Hrest. intros v Hin. apply in_touches in Hin.
      now contradiction Hnot. }
    unfold entry in Eentry. injection Eentry as -> _.
    now apply (proj2 (Hagree t)).
Qed.

Lemma marker_agrees_exec L R o s s' l :
  layout_ok L = true ->
  page_table_list s = l ->
  disciplined l [o] = true ->
  exec L R o s = Ok (tt, s') ->
  marker_agrees L s -> marker_agrees L s'.
Proof.
  intros HL El Hdisc Hrun Hagree.
  assert (Hpages : forall x, 0 <= u32 x / PAGE_SIZE <= PAGE_TABLE_NUM_ENTRIES).
  { intros x. pose proof (u32_range x).
    rewrite PAGE_SIZE_val, PAGE_TABLE_NUM_ENTRIES_val. split.
    - apply Z.div_pos; lia.
    - apply Z.lt_le_incl. apply Z.div_lt_upper_bound; lia. }
  destruct o;
    try (apply (marker_agrees_same_control L s s'); [| exact Hagree];
         eapply (exec_access_same_control L R _ s s'); [| exact Hrun];
         reflexivity);
    cbn [exec] in Hrun; cbn [disciplined] in Hdisc.
  - injection Hrun as <-. exact Hagree.
  - injection Hrun as <-. intros u.
    cbn [page_table_list cache_marker tables set_page_table_list].
    split.
    + intros Hu. apply in_app_or in Hu.
      destruct (in_dec Nat.eq_dec u (page_table_list s)) as [Hreg | Hnew];
        [now apply (proj1 (Hagree u)) |].
      intros i. rewrite (proj2 (Hagree u) Hnew i).
      split; intros E; discriminate.
    + intros Hu. apply (proj2 (Hagree u)). intros Hin. apply Hu.
      apply in_or_app. now left.
  - discriminate.
  - injection Hrun as <-. exact Hagree.
  - apply andb_prop in Hdisc. destruct Hdisc as [Hreg _].
    apply existsb_exists in Hreg. destruct Hreg as (u & Hu & Eu).
    apply Nat.eqb_eq in Eu. subst u l.
    unfold MapMemoryRegion in Hrun.
    destruct (negb (Z.land (u32 size) PAGE_MASK =? 0)); [discriminate |].
    destruct (negb (Z.land (u32 base) PAGE_MASK =? 0)); [discriminate |].
    eapply marker_agrees_MapPages; [| | | exact Hrun | exact Hagree]; auto.
  - unfold UnmapRegion in Hrun.
    destruct (negb (Z.land (u32 size) PAGE_MASK =? 0)); [discriminate |].
    destruct (negb (Z.land (u32 base) PAGE_MASK =? 0)); [discriminate |].
    eapply marker_agrees_MapPages; [| | | exact Hrun | exact Hagree]; auto.
  - eapply marker_agrees_mark; [exact HL | apply u32_range | exact Hrun
                               | exact Hagree].
Qed.

Lemma MapPages_page_table_list L R t base size memory type s s' :
  MapPages L R t base size memory type s = Ok (tt, s') ->
  page_table_list s' = page_table_list s.
Proof.
  intros Hrun. unfold MapPages in Hrun. run_inv Hrun.
  assert (Hc : same_control s s2).
  { eapply same_control_trans.
    - eapply data_only_log; eauto.
    - eapply data_only_RasterizerFlushVirtualRegion; eauto. }
  injection Hrun as <-. cbn [page_table_list with_tables].
  now destruct Hc as (_ & _ & -> & _).
Qed.

Lemma disciplined_step L R o ops s s' :
  disciplined (page_table_list s) (o :: ops) = true ->
  exec L R o s = Ok (tt, s') ->
  disciplined (page_table_list s) [o] = true
  /\ disciplined (page_table_list s') ops = true.
Proof.
  intros Hdisc Hrun.
  assert (Hkeep : is_access o = true ->
                  page_table_list s' = page_table_list s).
  { intros Hacc.
    now destruct (exec_access_same_control L R o s s' Hacc Hrun)
      as (_ & _ & -> & _). }
  destruct o; cbn [disciplined] in *;
    try (rewrite (Hkeep eq_refl); split; [reflexivity | exact Hdisc]);
    cbn [exec] in Hrun.
  - injection Hrun as <-. split; [reflexivity | exact Hdisc].
  - injection Hrun as <-. split; [reflexivity | exact Hdisc].
  - discriminate.
  - injection Hrun as <-. split; [reflexivity | exact Hdisc].
  - apply andb_prop in Hdisc. destruct Hdisc as [Hreg Hrest].
    rewrite Hreg. split; [reflexivity |].
    unfold MapMemoryRegion in Hrun.
    destruct (negb (Z.land (u32 size) PAGE_MASK =? 0)); [discriminate |].
    destruct (negb (Z.land (u32 base) PAGE_MASK =? 0)); [discriminate |].
    now rewrite (MapPages_page_table_list _ _ _ _ _ _ _ _ _ Hrun).
  - split; [reflexivity |].
    unfold UnmapRegion in Hrun.
    destruct (negb (Z.land (u32 size) PAGE_MASK =? 0)); [discriminate |].
    destruct (negb (Z.land (u32 base) PAGE_MASK =? 0)); [discriminate |].
    now rewrite (MapPages_page_table_list _ _ _ _ _ _ _ _ _ Hrun).
  - split; [reflexivity |].
    unfold RasterizerMarkRegionCached in Hrun.
    destruct (u32 start =? 0); [injection Hrun as <-; exact Hdisc |].
    rewrite mark_pages_eq in Hrun.
    set (n := Z.to_nat (num_pages_of (u32 start) (u32 size))) in *.
    clearbody n.
    destruct (apply_touches L cached _ (tables s)); try discriminate.
    cbn [map_result] in Hrun. injection Hrun as <-. exact Hdisc.
Qed.

Lemma marker_agrees_run L R :
  layout_ok L = true ->
  forall ops s s',
    disciplined (page_table_list s) ops = true ->
    run L R ops s = Ok (tt, s') ->
    marker_agrees L s -> marker_agrees L s'.
Proof.
  intros HL. induction ops as [| o ops IH]; intros s s' Hdisc Hrun Hagree;
    unfold run in *; cbn [for_each] in Hrun.
  - injection Hrun as <-. exact Hagree.
  - apply bind_ok in Hrun. destruct Hrun as ([] & s1 & H1 & H2).
    destruct (disciplined_step L R _ _ _ _ Hdisc H1) as [Hone Hrest].
    apply (IH s1 s'); [exact Hrest | exact H2 |].
    apply (marker_agrees_exec L R o s s1 _ HL eq_refl Hone H1 Hagree).
Qed.

(** X20: in a run in which every page table is registered before it is
    mapped and no table is unregistered, the marker and the registered
    tables agree at every page: an entry is [RasterizerCachedMemory]
    exactly when the page is mapped and the marker has it as cached, and
    an entry with attribute [Memory] is a page that the marker does not
    have as cached. *)
Theorem marker_agrees_with_registered_tables :
  forall (L : Layout) (R : Rasterizer) (ops : list Op) (s : MemorySystem)
         (t : nat) (i : Z),
    layout_ok L = true ->
    disciplined [] ops = true ->
    run L R ops initial = Ok (tt, s) ->
    In t (page_table_list s) ->
    (attributes (tables s t) i = RasterizerCachedMemory
     <-> (attributes (tables s t) i <> Unmapped
          /\ IsCached L (cache_marker s) (i * PAGE_SIZE) = true))
    /\ (attributes (tables s t) i = Memory ->
        IsCached L (cache_marker s) (i * PAGE_SIZE) = false).
Proof.
  intros L R ops s t i HL Hdisc Hrun Ht.
  assert (Hagree : marker_agrees L s).
  { apply (marker_agrees_run L R HL ops initial s Hdisc Hrun).
    intros u. split; [intros [] | intros _ j; reflexivity]. }
  assert (Hinv : state_inv L false s).
  { eapply run_inv_from; [| apply state_inv_initial | exact Hrun].
    discriminate. }
  destruct (Hinv t i) as (_ & _ & Hsp & _).
  destruct (proj1 (Hagree t) Ht i) as [Hcached Hmem].
  split; [split |].
  - intros Ha. split; [rewrite Ha; discriminate | now apply Hcached].
  - intros [Hmapped Hc].
    destruct (attributes (tables s t) i) eqn:Ea;
      try reflexivity; try (now contradiction Hmapped);
      try (now contradiction Hsp).
    rewrite (Hmem eq_refl) in Hc. discriminate.
  - exact Hmem.
Qed.

Lemma marker_agrees_with_registered_tables_witness :
  attributes (tables (state_after ctr_layout idle_rasterizer vram_page_ops)
                0%nat) 0x1F000 = RasterizerCachedMemory
  <-> (attributes (tables (state_after ctr_layout idle_rasterizer
                             vram_page_ops) 0%nat) 0x1F000 <> Unmapped
       /\ IsCached ctr_layout
            (cache_marker (state_after ctr_layout idle_rasterizer
                             vram_page_ops)) (0x1F000 * PAGE_SIZE) = true).
Proof.
  apply (marker_agrees_with_registered_tables ctr_layout idle_rasterizer
           vram_page_ops
           (state_after ctr_layout idle_rasterizer vram_page_ops) 0%nat
           0x1F000).
  - reflexivity.
  - reflexivity.
  - apply runs_state_after. vm_compute. reflexivity.
  - vm_compute. left. reflexivity.
Defined.

(** ** Accesses that cannot fail *)

(** In a state that satisfies the invariant, a rasterizer-cached page has
    a backing store. *)
Lemma cached_page_has_backing L s t pi po :
  layout_ok L = true -> state_inv L true s ->
  attributes (tables s t) pi = RasterizerCachedMemory ->
  0 <= po < 4096 ->
  exists p,
    GetPointerForRasterizerCache L (u32 (Z.shiftl pi PAGE_BITS + po)) = Ok p.
Proof.
  intros HL Hinv Ha Hpo.
  destruct (Hinv t pi) as (_ & _ & _ & _ & Hw).
  destruct (Hw HL Ha) as [Hpi Hat].
  rewrite PAGE_TABLE_NUM_ENTRIES_val in Hpi. rewrite PAGE_SIZE_val in Hat.
  apply At_cacheable in Hat. rewrite shiftl_page.
  rewrite u32_small by lia.
  apply GetPointerForRasterizerCache_ok.
  apply (cacheable_page L (pi * 4096 + po) HL); [lia |].
  rewrite Z.div_add_l by lia. rewrite Z.div_small by lia.
  now rewrite Z.add_0_r.
Qed.

Lemma ReadBlock_page_total L R process src_addr size pi po ca s :
  layout_ok L = true -> state_inv L true s ->
  pi < PAGE_TABLE_NUM_ENTRIES -> 0 <= po < 4096 ->
  exists chunk s',
    ReadBlock_page L R process src_addr size pi po ca s = Ok (chunk, s')
    /\ same_control s s'.
Proof.
  intros HL Hinv Hpi Hpo.
  assert (Hdata := data_only_ReadBlock_page L R process src_addr size pi po ca).
  assert (Hok : exists r, ReadBlock_page L R process src_addr size pi po ca s
                          = Ok r).
  { unfold ReadBlock_page, bind, get.
    apply Z.ltb_lt in Hpi. rewrite Hpi.
    destruct (Hinv process pi) as (_ & _ & Hsp & H1 & _).
    specialize (H1 eq_refl). unfold P1 in H1.
    destruct (attributes (tables s process) pi) eqn:Ea.
    - eexists. reflexivity.
    - destruct (pointers (tables s process) pi);
        [eexists; reflexivity | now contradiction H1].
    - destruct (RasterizerFlushVirtualRegion_total L R
                  (u32 (Z.shiftl pi PAGE_BITS + po)) (u32 ca) Flush s)
        as (s1 & -> & _).
      destruct (cached_page_has_backing L s process pi po HL Hinv Ea Hpo)
        as [p Hp].
      unfold lift. rewrite Hp. eexists. reflexivity.
    - now contradiction Hsp. }
  destruct Hok as [[chunk s'] Hrun]. exists chunk, s'.
  split; [exact Hrun | exact (Hdata _ _ _ Hrun)].
Qed.

Lemma WriteBlock_page_total L R process dest_addr size pi po src ca s :
  layout_ok L = true -> state_inv L true s ->
  pi < PAGE_TABLE_NUM_ENTRIES -> 0 <= po < 4096 ->
  exists s',
    WriteBlock_page L R process dest_addr size pi po src ca s = Ok (tt, s')
    /\ same_control s s'.
Proof.
  intros HL Hinv Hpi Hpo.
  assert (Hdata := data_only_WriteBlock_page L R process dest_addr size pi po
                     src ca).
  assert (Hok : exists r, WriteBlock_page L R process dest_addr size pi po
                            src ca s = Ok r).
  { unfold WriteBlock_page, bind, get.
    apply Z.ltb_lt in Hpi. rewrite Hpi.
    destruct (Hinv process pi) as (_ & _ & Hsp & H1 & _).
    specialize (H1 eq_refl). unfold P1 in H1.
    destruct (attributes (tables s process) pi) eqn:Ea.
    - eexists. reflexivity.
    - destruct (pointers (tables s process) pi);
        [eexists; reflexivity | now contradiction H1].
    - destruct (RasterizerFlushVirtualRegion_total L R
                  (u32 (Z.shiftl pi PAGE_BITS + po)) (u32 ca) Invalidate s)
        as (s1 & -> & _).
      destruct (cached_page_has_backing L s process pi po HL Hinv Ea Hpo)
        as [p Hp].
      unfold lift. rewrite Hp. eexists. reflexivity.
    - now contradiction Hsp. }
  destruct Hok as [[[] s'] Hrun]. exists s'.
  split; [exact Hrun | exact (Hdata _ _ _ Hrun)].
Qed.

Lemma ZeroBlock_page_total L R process dest_addr size pi po ca s :
  layout_ok L = true -> state_inv L true s ->
  pi < PAGE_TABLE_NUM_ENTRIES -> 0 <= po < 4096 ->
  exists s',
    ZeroBlock_page L R process dest_addr size pi po ca s = Ok (tt, s')
    /\ same_control s s'.
Proof.
  intros HL Hinv Hpi Hpo.
  assert (Hdata := data_only_ZeroBlock_page L R process dest_addr size pi po
                     ca).
  assert (Hok : exists r, ZeroBlock_page L R process dest_addr size pi po
                            ca s = Ok r).
  { unfold ZeroBlock_page, bind, get.
    apply Z.ltb_lt in Hpi. rewrite Hpi.
    destruct (Hinv process pi) as (_ & _ & Hsp & H1 & _).
    specialize (H1 eq_refl). unfold P1 in H1.
    destruct (attributes (tables s process) pi) eqn:Ea.
    - eexists. reflexivity.
    - destruct (pointers (tables s process) pi);
        [eexists; reflexivity | now contradiction H1].
    - destruct (RasterizerFlushVirtualRegion_total L R
                  (u32 (Z.shiftl pi PAGE_BITS + po)) (u32 ca) Invalidate s)
        as (s1 & -> & _).
      destruct (cached_page_has_backing L s process pi po HL Hinv Ea Hpo)
        as [p Hp].
      unfold lift. rewrite Hp. eexists. reflexivity.
    - now contradiction Hsp. }
  destruct Hok as [[[] s'] Hrun]. exists s'.
  split; [exact Hrun | exact (Hdata _ _ _ Hrun)].
Qed.

Lemma ReadBlock_loop_total L R process src_addr size :
  layout_ok L = true ->
  forall fuel pi po rem dest s,
    state_inv L true s ->
    0 <= po < 4096 -> 0 <= rem <= Z.of_nat fuel ->
    pi * 4096 + po + rem <= 2 ^ 32 -> pi < PAGE_TABLE_NUM_ENTRIES ->
    exists buf s',
      ReadBlock_loop L R fuel process src_addr size pi po rem dest s
      = Ok (buf, s')
      /\ same_control s s'.
Proof.
  intros HL. induction fuel as [| fuel IH];
    intros pi po rem dest s Hinv Hpo Hrem Hend Hpi.
  - rewrite ReadBlock_loop_done by lia. exists dest, s.
    split; [reflexivity | apply same_control_refl].
  - destruct (Z.eq_dec rem 0) as [-> | Hnz].
    { rewrite ReadBlock_loop_done by lia. exists dest, s.
      split; [reflexivity | apply same_control_refl]. }
    cbn [ReadBlock_loop]. destruct (Z.leb_spec rem 0); [lia |].
    rewrite PAGE_SIZE_val. set (ca := Z.min (4096 - po) rem).
    destruct (ReadBlock_page_total L R process src_addr size pi po ca s
                HL Hinv Hpi Hpo) as (chunk & s1 & Hrun1 & Hc1).
    rewrite (bind_eq _ _ _ _ _ Hrun1).
    rewrite PAGE_TABLE_NUM_ENTRIES_val in *.
    destruct (Z.eq_dec rem ca) as [Elast | Hmore].
    + rewrite ReadBlock_loop_done by lia. eexists. exists s1.
      split; [reflexivity | exact Hc1].
    + destruct (IH (pi + 1) 0 (rem - ca) (dest ++ chunk) s1)
        as (buf & s2 & Hrun2 & Hc2);
        try (unfold ca in *; lia).
      * eapply state_inv_same_control; eauto.
      * exists buf, s2. split; [exact Hrun2 |].
        eapply same_control_trans; eauto.
Qed.

Lemma WriteBlock_loop_total L R process dest_addr size :
  layout_ok L = true ->
  forall fuel pi po src rem s,
    state_inv L true s ->
    0 <= po < 4096 -> 0 <= rem <= Z.of_nat fuel ->
    pi * 4096 + po + rem <= 2 ^ 32 -> pi < PAGE_TABLE_NUM_ENTRIES ->
    exists s',
      WriteBlock_loop L R fuel process dest_addr size pi po src rem s
      = Ok (tt, s')
      /\ same_control s s'.
Proof.
  intros HL. induction fuel as [| fuel IH];
    intros pi po src rem s Hinv Hpo Hrem Hend Hpi.
  - rewrite WriteBlock_loop_done by lia. exists s.
    split; [reflexivity | apply same_control_refl].
  - destruct (Z.eq_dec rem 0) as [-> | Hnz].
    { rewrite WriteBlock_loop_done by lia. exists s.
      split; [reflexivity | apply same_control_refl]. }
    cbn [WriteBlock_loop]. destruct (Z.leb_spec rem 0); [lia |].
    rewrite PAGE_SIZE_val. set (ca := Z.min (4096 - po) rem).
    destruct (WriteBlock_page_total L R process dest_addr size pi po src ca s
                HL Hinv Hpi Hpo) as (s1 & Hrun1 & Hc1).
    rewrite (bind_eq _ _ _ _ _ Hrun1).
    rewrite PAGE_TABLE_NUM_ENTRIES_val in *.
    destruct (Z.eq_dec rem ca) as [Elast | Hmore].
    + rewrite WriteBlock_loop_done by lia. exists s1.
      split; [reflexivity | exact Hc1].
    + destruct (IH (pi + 1) 0 (buffer_advance src ca) (rem - ca) s1)
        as (s2 & Hrun2 & Hc2);
        try (unfold ca in *; lia).
      * eapply state_inv_same_control; eauto.
      * exists s2. split; [exact Hrun2 |].
        eapply same_control_trans; eauto.
Qed.

Lemma ZeroBlock_loop_total L R process dest_addr size :
  layout_ok L = true ->
  forall fuel pi po rem s,
    state_inv L true s ->
    0 <= po < 4096 -> 0 <= rem <= Z.of_nat fuel ->
    pi * 4096 + po + rem <= 2 ^ 32 -> pi < PAGE_TABLE_NUM_ENTRIES ->
    exists s',
      ZeroBlock_loop L R fuel process dest_addr size pi po rem s = Ok (tt, s')
      /\ same_control s s'.
Proof.
  intros HL. induction fuel as [| fuel IH];
    intros pi po rem s Hinv Hpo Hrem Hend Hpi.
  - rewrite ZeroBlock_loop_done by lia. exists s.
    split; [reflexivity | apply same_control_refl].
  - destruct (Z.eq_dec rem 0) as [-> | Hnz].
    { rewrite ZeroBlock_loop_done by lia. exists s.
      split; [reflexivity | apply same_control_refl]. }
    cbn [ZeroBlock_loop]. destruct (Z.leb_spec rem 0); [lia |].
    rewrite PAGE_SIZE_val. set (ca := Z.min (4096 - po) rem).
    destruct (ZeroBlock_page_total L R process dest_addr size pi po ca s
                HL Hinv Hpi Hpo) as (s1 & Hrun1 & Hc1).
    rewrite (bind_eq _ _ _ _ _ Hrun1).
    rewrite PAGE_TABLE_NUM_ENTRIES_val in *.
    destruct (Z.eq_dec rem ca) as [Elast | Hmore].
    + rewrite ZeroBlock_loop_done by lia. exists s1.
      split; [reflexivity | exact Hc1].
    + destruct (IH (pi + 1) 0 (rem - ca) s1) as (s2 & Hrun2 & Hc2);
        try (unfold ca in *; lia).
      * eapply state_inv_same_control; eauto.
      * exists s2. split; [exact Hrun2 |].
        eapply same_control_trans; eauto.
Qed.

(** The loop bounds of a transfer that starts at [v] and stays inside the
    address space. *)
Lemma block_range v size :
  0 <= v -> 0 <= size -> v + size <= 2 ^ 32 -> v < 2 ^ 32 ->
  0 <= v mod 4096 < 4096
  /\ v / 4096 * 4096 + v mod 4096 + size <= 2 ^ 32
  /\ v / 4096 < PAGE_TABLE_NUM_ENTRIES.
Proof.
  intros Hv Hsize Hend Hlt. rewrite PAGE_TABLE_NUM_ENTRIES_val.
  pose proof (Z.mod_pos_bound v 4096 ltac:(lia)).
  pose proof (Z.div_mod v 4096 ltac:(lia)).
  repeat split; try lia; apply Z.div_lt_upper_bound; lia.
Qed.

(** X21: in a state reached without a null mapping, no access hits an
    assertion or an unreachable branch: with a current page table, the
    typed accesses return at every address, and the block transfers
    [ReadBlock], [WriteBlock] and [ZeroBlock] return on every range that
    stays inside the address space, whatever the pages of the range
    are. *)
Theorem accesses_return_after_runs_without_null_mapping :
  forall (L : Layout) (R : Rasterizer) (ops : list Op) (s : MemorySystem),
    layout_ok L = true ->
    run L R ops initial = Ok (tt, s) ->
    forallb op_strict ops = true ->
    (forall t n v data,
       current_page_table s = Some t -> 0 <= v < 2 ^ 32 ->
       (exists x s', Read L R n v s = Ok (x, s') /\ same_control s s')
       /\ (exists s', Write L R n v data s = Ok (tt, s')
                      /\ same_control s s'))
    /\ (forall process v size src_buffer,
          0 <= v < 2 ^ 32 -> 0 <= size -> v + size <= 2 ^ 32 ->
          (exists buf s', ReadBlock L R process v size s = Ok (buf, s')
                          /\ same_control s s')
          /\ (exists s', WriteBlock L R process v src_buffer size s
                         = Ok (tt, s') /\ same_control s s')
          /\ (exists s', ZeroBlock L R process v size s = Ok (tt, s')
                         /\ same_control s s')).
Proof.
  intros L R ops s HL Hrun Hstrict.
  assert (Hinv : state_inv L true s).
  { eapply run_inv_from; [| apply state_inv_initial | exact Hrun]. auto. }
  split.
  - intros t n v data Hcur Hv.
    destruct (Hinv t (Z.shiftr v PAGE_BITS)) as (_ & _ & Hsp & H1 & _).
    specialize (H1 eq_refl). unfold P1 in H1.
    destruct (page_address v Hv) as [Eaddr _].
    pose proof (Z.mod_pos_bound v 4096 ltac:(lia)) as Hpo.
    assert (Hback : attributes (tables s t) (Z.shiftr v PAGE_BITS)
                    = RasterizerCachedMemory ->
                    exists p, GetPointerForRasterizerCache L v = Ok p).
    { intros Ha.
      destruct (cached_page_has_backing L s t (Z.shiftr v PAGE_BITS)
                  (Z.land v PAGE_MASK) HL Hinv Ha) as [p Hp].
      - now rewrite land_page_mask.
      - rewrite Eaddr in Hp. now exists p. }
    assert (Hread : exists r, Read L R n v s = Ok r).
    { unfold Read, bind, get. rewrite Hcur.
      destruct (pointers (tables s t) (Z.shiftr v PAGE_BITS)) as [p |];
        [eexists; reflexivity |].
      destruct (attributes (tables s t) (Z.shiftr v PAGE_BITS)) eqn:Ea.
      - eexists. reflexivity.
      - now contradiction H1.
      - destruct (RasterizerFlushVirtualRegion_total L R v (Z.of_nat n)
                    Flush s) as (s1 & -> & _).
        destruct (Hback eq_refl) as [p Hp].
        unfold lift. rewrite Hp. eexists. reflexivity.
      - now contradiction Hsp. }
    assert (Hwrite : exists r, Write L R n v data s = Ok r).
    { unfold Write, bind, get. rewrite Hcur.
      destruct (pointers (tables s t) (Z.shiftr v PAGE_BITS)) as [p |];
        [eexists; reflexivity |].
      destruct (attributes (tables s t) (Z.shiftr v PAGE_BITS)) eqn:Ea.
      - eexists. reflexivity.
      - now contradiction H1.
      - destruct (RasterizerFlushVirtualRegion_total L R v (Z.of_nat n)
                    Invalidate s) as (s1 & -> & _).
        destruct (Hback eq_refl) as [p Hp].
        unfold lift. rewrite Hp. eexists. reflexivity.
      - now contradiction Hsp. }
    destruct Hread as [[x s1] Hr]. destruct Hwrite as [[[] s2] Hw].
    split.
    + exists x, s1. split; [exact Hr |].
      exact (data_only_Read L R n v _ _ _ Hr).
    + exists s2. split; [exact Hw |].
      exact (data_only_Write L R n v data _ _ _ Hw).
  - intros process v size src Hv Hsize Hend.
    destruct (block_range v size ltac:(lia) Hsize Hend ltac:(lia))
      as (Hpo & Hlast & Hpi).
    unfold ReadBlock, WriteBlock, ZeroBlock.
    rewrite shiftr_page, land_page_mask.
    split; [| split].
    + apply ReadBlock_loop_total; auto; lia.
    + apply WriteBlock_loop_total; auto; lia.
    + apply ZeroBlock_loop_total; auto; lia.
Qed.

Lemma accesses_return_after_runs_without_null_mapping_witness :
  exists buf s',
    ReadBlock ctr_layout stamping_rasterizer 0 0x1EFFFFFE 8
      (state_after ctr_layout stamping_rasterizer vram_page_ops)
    = Ok (buf, s')
    /\ same_control
         (state_after ctr_layout stamping_rasterizer vram_page_ops) s'.
Proof.
  destruct (accesses_return_after_runs_without_null_mapping ctr_layout
              stamping_rasterizer vram_page_ops
              (state_after ctr_layout stamping_rasterizer vram_page_ops))
    as [_ Hblock].
  - reflexivity.
  - apply runs_state_after. vm_compute. reflexivity.
  - reflexivity.
  - apply (Hblock 0%nat 0x1EFFFFFE 8 (Bytes [])); [| lia |].
    + split; [lia | reflexivity].
    + vm_compute. discriminate.
Defined.

(** ** What a marking leaves alone *)

(** X22: a returning [RasterizerMarkRegionCached] changes only the pages
    it names. The host memory, the current page table and the DSP are
    kept; a table that is not registered is kept; and on a page that
    holds no virtual alias of an address of the range, every table keeps
    its entry and the marker keeps its flag. *)
Theorem RasterizerMarkRegionCached_leaves_other_pages :
  forall (L : Layout) (s s' : MemorySystem) (start size : Z) (cached : bool),
    layout_ok L = true ->
    0 <= start < 2 ^ 32 -> 0 < size -> start + size <= 2 ^ 32 ->
    RasterizerMarkRegionCached L start size cached s = Ok (tt, s') ->
    mem s' = mem s
    /\ current_page_table s' = current_page_table s
    /\ dsp s' = dsp s
    /\ page_table_list s' = page_table_list s
    /\ (forall t i,
          ~ In t (page_table_list s) ->
          entry (tables s') t i = entry (tables s) t i)
    /\ (forall a,
          (forall q v,
             start <= q < start + size -> In v (aliases L q) ->
             Z.shiftr v PAGE_BITS <> Z.shiftr a PAGE_BITS) ->
          IsCached L (cache_marker s') a = IsCached L (cache_marker s) a
          /\ forall t,
               entry (tables s') t (Z.shiftr a PAGE_BITS)
               = entry (tables s) t (Z.shiftr a PAGE_BITS)).
Proof.
  intros L s s' start size cached HL Hs Hsz Hend Hrun.
  unfold RasterizerMarkRegionCached in Hrun.
  destruct (start =? 0).
  { injection Hrun as <-. repeat split; reflexivity. }
  rewrite mark_pages_eq in Hrun.
  pose proof (fun u =>
                visited_alias_in_range L start size u HL (proj1 Hs) Hsz Hend)
    as Hvisited.
  set (n := Z.to_nat (num_pages_of start size)) in *. clearbody n.
  set (vs := alias_seq L n start) in *. clearbody vs.
  destruct (apply_touches L cached (touches (page_table_list s) vs) (tables s))
    as [tb' | |] eqn:Etouch; try discriminate.
  cbn [map_result] in Hrun. injection Hrun as <-.
  pose proof (apply_touches_spec L cached _ _ _
                (fun t0 v0 H0 =>
                   proj1 (Hvisited v0
                            (proj2 (proj1 (in_touches _ _ _ _) H0))))
                Etouch) as Hspec.
  cbn [mem current_page_table dsp page_table_list tables cache_marker marked].
  do 4 (split; [reflexivity |]).
  split.
  - intros t i Hnot. destruct (Hspec t i) as (_ & _ & Hrest).
    apply Hrest. intros v Hin. apply in_touches in Hin.
    now contradiction Hnot.
  - intros a Hfar.
    assert (Hno : forall v, In v vs ->
                            Z.shiftr v PAGE_BITS <> Z.shiftr a PAGE_BITS).
    { intros v Hv.
      destruct (Hvisited v Hv) as (_ & _ & q & v0 & Hq & Hin & Epage).
      rewrite (shiftr_page v), <- Epage, <- shiftr_page.
      exact (Hfar q v0 Hq Hin). }
    split.
    + apply mark_all_other. intros v Hv Hat.
      destruct (Hvisited v Hv) as (_ & Hc & _).
      apply (Hno v Hv). rewrite !shiftr_page. symmetry.
      apply (At_page_inj L a v HL Hat).
      rewrite Hat. now apply At_cacheable.
    + intros t. destruct (Hspec t (Z.shiftr a PAGE_BITS)) as (_ & _ & Hrest).
      apply Hrest. intros v Hin. apply in_touches in Hin.
      apply Hno. apply Hin.
Qed.

Lemma RasterizerMarkRegionCached_leaves_other_pages_witness :
  entry (tables (state_after ctr_layout idle_rasterizer vram_page_ops))
    0%nat 0x100
  = entry (tables (state_after ctr_layout idle_rasterizer vram_map_ops))
      0%nat 0x100.
Proof.
  destruct (RasterizerMarkRegionCached_leaves_other_pages ctr_layout
              (state_after ctr_layout idle_rasterizer vram_map_ops)
              (state_after ctr_layout idle_rasterizer vram_page_ops)
              0x18000000 0x1000 true)
    as (_ & _ & _ & _ & _ & Hfar).
  - reflexivity.
  - split; [lia | reflexivity].
  - lia.
  - vm_compute. discriminate.
  - vm_compute. reflexivity.
  - destruct (Hfar 0x00100000) as [_ Hentry].
    + intros q v Hq Hin.
      destruct (aliases_in_window ctr_layout q v eq_refl ltac:(lia) Hin)
        as [Hc _].
      rewrite !shiftr_page. unfold cacheable in Hc. cbn in Hc.
      intros E. change (0x00100000 / 4096) with 256 in E.
      pose proof (Z.div_mod v 4096 ltac:(lia)).
      pose proof (Z.mod_pos_bound v 4096 ltac:(lia)). lia.
    + exact (Hentry 0%nat).
Defined.
